(** * Raynet Cloud RADIUS: the synchronisation core, embedded and verified

    The development follows the TypeScript sources:
    - [src/lib/radius-utils.ts]: namespace mapper and attribute encoder
      ([buildMikroTikRateLimit], [buildRadiusUsername],
      [extractSubscriberUsername], [planToRadiusAttributes]);
    - [src/services/radius.service.ts]: the [radiusService] object
      (synchroniser, session reconciliation, device control);
    - [src/services/otp.service.ts]: verification and expiry of one-time
      passwords ([verifyOtp], [cleanupExpired]).

    JavaScript strings are modelled by [string] (sequences of 8-bit
    characters instead of UTF-16 code units), Prisma [Int] columns by [Z],
    nullable columns by [option], tables by lists of rows in insertion
    order (duplicates are possible: the RADIUS tables carry no uniqueness
    constraint on the columns written here, and the surrogate key that the
    database assigns to every row is not modelled). *)

From Stdlib Require Import ZArith List String Ascii Bool Lia Permutation.
From Stdlib Require Import Decimal DecimalString.
Import ListNotations.

Local Open Scope string_scope.
Local Open Scope Z_scope.

(** ** JavaScript primitives used by the sources *)

Module Js.

(** [String(n)] and [`${n}`] for an integral number. *)
Definition numberToString (n : Z) : string :=
  NilZero.string_of_int (Z.to_int n).

(** [`${x}`] for [x : number | null]. *)
Definition template (x : option Z) : string :=
  match x with
  | Some n => numberToString n
  | None => "null"
  end.

(** Truthiness of [number | null]: [null] and [0] are falsy. *)
Definition truthyNumber (x : option Z) : bool :=
  match x with
  | Some n => negb (n =? 0)
  | None => false
  end.

(** Truthiness of [string | null | undefined]: the empty string is falsy. *)
Definition truthyString (x : option string) : bool :=
  match x with
  | Some s => negb (String.eqb s EmptyString)
  | None => false
  end.

(** [x || d] on [number | null]. *)
Definition orNumber (x : option Z) (d : Z) : Z :=
  match x with
  | Some n => if n =? 0 then d else n
  | None => d
  end.

(** [s.split(sep)] for a one-character separator: never empty, the empty
    string splits into one empty part. *)
Fixpoint split (sep : ascii) (s : string) : list string :=
  match s with
  | EmptyString => [EmptyString]
  | String c rest =>
      if Ascii.eqb c sep then EmptyString :: split sep rest
      else match split sep rest with
           | [] => [String c EmptyString]
           | part :: parts => String c part :: parts
           end
  end.

(** [parts.join(sep)]. *)
Definition join (sep : string) (parts : list string) : string :=
  String.concat sep parts.

(** [parts.shift()], for the array that is left. *)
Definition shift {A : Type} (parts : list A) : list A := tl parts.

(** [s.includes(c)] for one character. *)
Fixpoint includes (c : ascii) (s : string) : bool :=
  match s with
  | EmptyString => false
  | String c' rest => Ascii.eqb c' c || includes c rest
  end.

Definition upperChar (c : ascii) : ascii :=
  let n := nat_of_ascii c in
  if (Nat.leb 97 n && Nat.leb n 122)%bool then ascii_of_nat (n - 32) else c.

(** [s.toUpperCase()] on the ASCII range (MAC addresses are hexadecimal
    digits and separators). *)
Fixpoint toUpperCase (s : string) : string :=
  match s with
  | EmptyString => EmptyString
  | String c rest => String (upperChar c) (toUpperCase rest)
  end.

End Js.

(** ** Business records read by the core *)

(** Modelled from the spec: the generated Prisma enumeration [SpeedUnit] is
    not part of the sources ("mega vs kilo", spec section 4.2); the code
    only asks whether the unit is [MBPS]. *)
Inductive SpeedUnit := MBPS | KBPS.

(** Modelled from the spec: the generated Prisma enumeration [ValidityUnit]
    is not part of the sources (hour-based against day- and month-based
    plans, spec section 4.2); the code only asks whether the unit is
    [HOURS]. *)
Inductive ValidityUnit := HOURS | DAYS | MONTHS.

(** Modelled from the spec: the generated Prisma type [Plan] is not part of
    the sources; the fields are the ones the code reads, nullable where the
    code tests them for presence (spec section 3: optional burst
    speed/threshold/duration, optional address-pool name, max simultaneous
    devices). *)
Record Plan := {
  plan_id : string;
  downloadSpeed : Z;
  uploadSpeed : Z;
  speedUnit : SpeedUnit;
  burstDownloadSpeed : option Z;
  burstUploadSpeed : option Z;
  burstThreshold : option Z;
  burstTime : option Z;
  priority : Z;
  poolName : option string;
  validityDays : Z;
  validityUnit : ValidityUnit;
  simultaneousDevices : option Z
}.

(** A [Date] as the code observes it: through [getFullYear], [getMonth]
    (0-based) and [getDate] in local time. *)
Record Date := {
  getFullYear : Z;
  getMonth : nat;
  getDate : Z
}.

(** Modelled from the spec: the generated Prisma type [Subscriber] is not
    part of the sources; the fields are the ones the code reads (spec
    section 3: optional assigned plan, optional device MAC binding, optional
    static address, optional expiry date). *)
Record Subscriber := {
  sub_id : string;
  sub_username : string;
  planId : option string;
  macAddress : option string;
  staticIp : option string;
  expiryDate : option Date
}.

(** ** Namespace mapper and attribute encoder ([radius-utils.ts]) *)

Definition unitSymbol (u : SpeedUnit) : string :=
  match u with
  | MBPS => "M"
  | KBPS => "k"
  end.

Definition buildMikroTikRateLimit (plan : Plan) : string :=
  let unit := unitSymbol (speedUnit plan) in
  let rx := Js.numberToString (downloadSpeed plan) ++ unit in
  let tx := Js.numberToString (uploadSpeed plan) ++ unit in
  if Js.truthyNumber (burstDownloadSpeed plan)
     && Js.truthyNumber (burstUploadSpeed plan)
     && Js.truthyNumber (burstTime plan)
  then
    let burstRx := Js.template (burstDownloadSpeed plan) ++ unit in
    let burstTx := Js.template (burstUploadSpeed plan) ++ unit in
    let thresholdRx :=
      if Js.truthyNumber (burstThreshold plan)
      then Js.template (burstThreshold plan) ++ "k" else "0" in
    let thresholdTx :=
      if Js.truthyNumber (burstThreshold plan)
      then Js.template (burstThreshold plan) ++ "k" else "0" in
    let time :=
      Js.template (burstTime plan) ++ "s/" ++ Js.template (burstTime plan) ++ "s" in
    rx ++ "/" ++ tx ++ " " ++ burstRx ++ "/" ++ burstTx ++ " "
       ++ thresholdRx ++ "/" ++ thresholdTx ++ " " ++ time ++ " "
       ++ Js.numberToString (priority plan)
  else
    rx ++ "/" ++ tx.

Definition buildRadiusUsername (tenantSlug username : string) : string :=
  tenantSlug ++ "_" ++ username.

Definition buildRadiusGroupname (tenantSlug planId : string) : string :=
  tenantSlug ++ "_" ++ planId.

Definition extractSubscriberUsername (radiusUsername : string) : string :=
  let parts := Js.split "_" radiusUsername in
  let parts := Js.shift parts in
  Js.join "_" parts.

Record RadiusAttribute := {
  attr_attribute : string;
  attr_value : string;
  attr_priority : Z
}.

Definition planToRadiusAttributes (plan : Plan) : list RadiusAttribute :=
  let attributes := [] in
  let rateLimit := buildMikroTikRateLimit plan in
  let attributes := (attributes ++
    [ {| attr_attribute := "Mikrotik-Rate-Limit";
         attr_value := rateLimit;
         attr_priority := 1 |} ])%list in
  let attributes :=
    match poolName plan with
    | Some pool =>
        if Js.truthyString (poolName plan)
        then (attributes ++
          [ {| attr_attribute := "Framed-Pool";
               attr_value := pool;
               attr_priority := 2 |} ])%list
        else attributes
    | None => attributes
    end in
  let attributes :=
    match validityUnit plan with
    | HOURS =>
        let seconds := validityDays plan * 3600 in
        (attributes ++
          [ {| attr_attribute := "Session-Timeout";
               attr_value := Js.numberToString seconds;
               attr_priority := 3 |} ])%list
    | _ => attributes
    end in
  attributes.

(** ** The relational store

    One record per table row, with the columns the service writes or reads;
    a table is the list of its rows in insertion order. *)

Record RadCheck := {
  rc_username : string;
  rc_attribute : string;
  rc_op : string;
  rc_value : string
}.

Record RadReply := {
  rr_username : string;
  rr_attribute : string;
  rr_op : string;
  rr_value : string
}.

Record RadUserGroup := {
  ug_username : string;
  ug_groupname : string;
  ug_priority : Z
}.

Record RadGroupCheck := {
  gc_groupname : string;
  gc_attribute : string;
  gc_op : string;
  gc_value : string
}.

Record RadGroupReply := {
  gr_groupname : string;
  gr_attribute : string;
  gr_op : string;
  gr_value : string;
  gr_priority : Z
}.

(** Times are milliseconds since the epoch, as [Date.getTime()] gives them. *)
Record RadAcct := {
  acct_username : string;
  nasipaddress : string;
  acctstarttime : option Z;
  acctupdatetime : option Z;
  acctstoptime : option Z;
  acctterminatecause : string
}.

Record Store := {
  radCheck : list RadCheck;
  radReply : list RadReply;
  radUserGroup : list RadUserGroup;
  radGroupCheck : list RadGroupCheck;
  radGroupReply : list RadGroupReply;
  radAcct : list RadAcct
}.

(** A table of the store, as the Prisma client names it ([tx.radCheck], ...). *)
Record Table (R : Type) := {
  rows : Store -> list R;
  withRows : list R -> Store -> Store
}.
Arguments rows {R}.
Arguments withRows {R}.

Definition radCheckT : Table RadCheck :=
  {| rows := radCheck;
     withRows := fun l d =>
       {| radCheck := l; radReply := radReply d; radUserGroup := radUserGroup d;
          radGroupCheck := radGroupCheck d; radGroupReply := radGroupReply d;
          radAcct := radAcct d |} |}.

Definition radUserGroupT : Table RadUserGroup :=
  {| rows := radUserGroup;
     withRows := fun l d =>
       {| radCheck := radCheck d; radReply := radReply d; radUserGroup := l;
          radGroupCheck := radGroupCheck d; radGroupReply := radGroupReply d;
          radAcct := radAcct d |} |}.

Definition radGroupCheckT : Table RadGroupCheck :=
  {| rows := radGroupCheck;
     withRows := fun l d =>
       {| radCheck := radCheck d; radReply := radReply d;
          radUserGroup := radUserGroup d;
          radGroupCheck := l; radGroupReply := radGroupReply d;
          radAcct := radAcct d |} |}.

Definition radGroupReplyT : Table RadGroupReply :=
  {| rows := radGroupReply;
     withRows := fun l d =>
       {| radCheck := radCheck d; radReply := radReply d;
          radUserGroup := radUserGroup d;
          radGroupCheck := radGroupCheck d; radGroupReply := l;
          radAcct := radAcct d |} |}.

Definition radAcctT : Table RadAcct :=
  {| rows := radAcct;
     withRows := fun l d =>
       {| radCheck := radCheck d; radReply := radReply d;
          radUserGroup := radUserGroup d;
          radGroupCheck := radGroupCheck d; radGroupReply := radGroupReply d;
          radAcct := l |} |}.

(** ** Asynchronous, fallible computations

    A promise either fulfils with a value or rejects with an error.  The world
    it runs in holds the store, the clock, and two schedules that stand for
    the environment: [faults] decides, statement by statement, whether the
    next database statement is rejected (an exhausted schedule rejects
    nothing), and [ticks] gives the time that passes after each reading of
    the clock. *)

Inductive Error := PrismaError (code : string) | TransportError (message : string).

Record World := {
  db : Store;
  faults : list (option Error);
  clock : Z;
  ticks : list Z
}.

Inductive Outcome (A : Type) :=
| Fulfilled (a : A)
| Rejected (e : Error).
Arguments Fulfilled {A}.
Arguments Rejected {A}.

Definition Async (A : Type) : Type := World -> Outcome A * World.

Definition ret {A : Type} (a : A) : Async A := fun w => (Fulfilled a, w).

Definition throw {A : Type} (e : Error) : Async A := fun w => (Rejected e, w).

Definition bind {A B : Type} (m : Async A) (k : A -> Async B) : Async B :=
  fun w =>
    match m w with
    | (Fulfilled a, w') => k a w'
    | (Rejected e, w') => (Rejected e, w')
    end.

Declare Scope async_scope.
Delimit Scope async_scope with async.
Notation "x <- m ;; k" := (bind m (fun x => k))
  (at level 61, m at next level, right associativity) : async_scope.
Notation "m ;; k" := (bind m (fun _ => k))
  (at level 61, right associativity) : async_scope.
Local Open Scope async_scope.

(** [try { m } catch (error) { h error }]. *)
Definition tryCatch {A : Type} (m : Async A) (h : Error -> Async A) : Async A :=
  fun w =>
    match m w with
    | (Fulfilled a, w') => (Fulfilled a, w')
    | (Rejected e, w') => h e w'
    end.

(** [for (const x of l) { await body x }]. *)
Fixpoint forOf {A : Type} (l : list A) (body : A -> Async unit) : Async unit :=
  match l with
  | [] => ret tt
  | x :: rest => body x ;; forOf rest body
  end.

(** One database statement: rejected when the fault schedule says so, and
    otherwise applied to the store. *)
Definition statement {A : Type} (f : Store -> A * Store) : Async A :=
  fun w =>
    match faults w with
    | Some e :: later =>
        (Rejected e,
         {| db := db w; faults := later; clock := clock w; ticks := ticks w |})
    | None :: later =>
        (Fulfilled (fst (f (db w))),
         {| db := snd (f (db w)); faults := later;
            clock := clock w; ticks := ticks w |})
    | [] =>
        (Fulfilled (fst (f (db w))),
         {| db := snd (f (db w)); faults := [];
            clock := clock w; ticks := ticks w |})
    end.

(** [prisma.$transaction(async (tx) => body)]: when the body rejects, the
    store is rolled back to what it was and the error is passed on. *)
Definition transaction {A : Type} (body : Async A) : Async A :=
  fun w =>
    match body w with
    | (Fulfilled a, w') => (Fulfilled a, w')
    | (Rejected e, w') =>
        (Rejected e,
         {| db := db w; faults := faults w'; clock := clock w'; ticks := ticks w' |})
    end.

(** [Date.now()] and [new Date()]: the current reading; the clock then
    advances by the next tick. *)
Definition dateNow : Async Z :=
  fun w =>
    (Fulfilled (clock w),
     match ticks w with
     | [] => w
     | t :: later =>
         {| db := db w; faults := faults w;
            clock := clock w + Z.max 0 t; ticks := later |}
     end).

(** *** The Prisma client's model operations *)

Definition deleteMany {R : Type} (t : Table R) (where_ : R -> bool) : Async nat :=
  statement (fun d =>
    (List.length (filter where_ (rows t d)),
     withRows t (filter (fun r => negb (where_ r)) (rows t d)) d)).

Definition create {R : Type} (t : Table R) (data : R) : Async R :=
  statement (fun d => (data, withRows t (rows t d ++ [data])%list d)).

Definition findFirst {R : Type} (t : Table R) (where_ : R -> bool)
  : Async (option R) :=
  statement (fun d => (find where_ (rows t d), d)).

Definition updateMany {R : Type} (t : Table R) (where_ : R -> bool)
  (data : R -> R) : Async nat :=
  statement (fun d =>
    (List.length (filter where_ (rows t d)),
     withRows t (map (fun r => if where_ r then data r else r) (rows t d)) d)).

(** *** String filters

    The client sends [{ startsWith: prefix }] to the database as
    [column LIKE pattern], the pattern being the prefix followed by [%].  The
    prefix is not escaped: the database of the project is PostgreSQL, where
    in a pattern [%] stands for any sequence of characters, [_] for any one
    character, and a backslash makes the character after it stand for
    itself. *)

Definition backslash : ascii := ascii_of_nat 92.

(** [matches] holds of [s] or of a string left after dropping characters
    from the start of [s]. *)
Fixpoint anySuffix (matches : string -> bool) (s : string) : bool :=
  matches s
  || match s with
     | EmptyString => false
     | String _ rest => anySuffix matches rest
     end.

(** [s LIKE pattern].  A pattern that ends in a lone backslash, which
    PostgreSQL refuses, matches nothing here; the patterns of the service
    end in [_%]. *)
Fixpoint like (pattern : string) : string -> bool :=
  match pattern with
  | EmptyString =>
      fun s => match s with EmptyString => true | String _ _ => false end
  | String c rest =>
      if Ascii.eqb c "%" then anySuffix (like rest)
      else if Ascii.eqb c "_" then
        fun s =>
          match s with
          | EmptyString => false
          | String _ s' => like rest s'
          end
      else if Ascii.eqb c backslash then
        match rest with
        | EmptyString => fun _ => false
        | String escaped rest' =>
            fun s =>
              match s with
              | EmptyString => false
              | String x s' => Ascii.eqb x escaped && like rest' s'
              end
        end
      else
        fun s =>
          match s with
          | EmptyString => false
          | String x s' => Ascii.eqb x c && like rest s'
          end
  end.

(** [{ startsWith: prefix }] on a string column. *)
Definition startsWith (prefix s : string) : bool := like (prefix ++ "%") s.

(** ** The service ([radius.service.ts])

    Console output is not part of the model. *)

(** Modelled from the spec: the CoA client ([src/lib/radius-client.ts]) is
    not part of the sources.  Its two senders are taken as parameters of the
    operations that call them: each builds a control request for the NAS,
    sends it and waits for the acknowledgment (spec section 4.6); here any
    asynchronous computation of a boolean, fulfilled or rejected. *)
Record CoaDisconnectParams := {
  cd_nasIp : string;
  cd_secret : string;
  cd_username : string
}.

Record CoaChangeRateParams := {
  cr_nasIp : string;
  cr_secret : string;
  cr_username : string;
  cr_rateLimit : string
}.

Module radiusService.

Definition months : list string :=
  ["Jan"; "Feb"; "Mar"; "Apr"; "May"; "Jun";
   "Jul"; "Aug"; "Sep"; "Oct"; "Nov"; "Dec"].

Definition formatRadiusExpiration (date : Date) : string :=
  nth (getMonth date) months "undefined" ++ " "
    ++ Js.numberToString (getDate date) ++ " "
    ++ Js.numberToString (getFullYear date) ++ " 23:59:59".

(** [where: { username, attribute }] on the check table. *)
Definition checkWhere (username attribute : string) (r : RadCheck) : bool :=
  String.eqb (rc_username r) username && String.eqb (rc_attribute r) attribute.

(** [where: { username }] on the user-group table. *)
Definition userGroupWhere (username : string) (r : RadUserGroup) : bool :=
  String.eqb (ug_username r) username.

Definition syncSubscriberAuth (tenantSlug : string) (subscriber : Subscriber)
  (cleartextPassword : option string) : Async unit :=
  let radiusUsername := buildRadiusUsername tenantSlug (sub_username subscriber) in
  tryCatch
    (transaction
       ((match cleartextPassword with
         | Some password =>
             if Js.truthyString cleartextPassword then
               deleteMany radCheckT (checkWhere radiusUsername "Cleartext-Password") ;;
               create radCheckT
                 {| rc_username := radiusUsername;
                    rc_attribute := "Cleartext-Password";
                    rc_op := ":=";
                    rc_value := password |} ;;
               ret tt
             else ret tt
         | None => ret tt
         end) ;;
        deleteMany radCheckT (checkWhere radiusUsername "Expiration") ;;
        (match expiryDate subscriber with
         | Some date =>
             create radCheckT
               {| rc_username := radiusUsername;
                  rc_attribute := "Expiration";
                  rc_op := ":=";
                  rc_value := formatRadiusExpiration date |} ;;
             ret tt
         | None => ret tt
         end) ;;
        deleteMany radCheckT (checkWhere radiusUsername "Calling-Station-Id") ;;
        (match macAddress subscriber with
         | Some mac =>
             if Js.truthyString (macAddress subscriber) then
               create radCheckT
                 {| rc_username := radiusUsername;
                    rc_attribute := "Calling-Station-Id";
                    rc_op := ":=";
                    rc_value := Js.toUpperCase mac |} ;;
               ret tt
             else ret tt
         | None => ret tt
         end)))
    (fun error => throw error).

Definition enableSubscriberRadius (tenantSlug : string) (subscriber : Subscriber)
  : Async unit :=
  let radiusUsername := buildRadiusUsername tenantSlug (sub_username subscriber) in
  tryCatch
    (transaction
       (deleteMany radCheckT (checkWhere radiusUsername "Auth-Type") ;;
        deleteMany radCheckT (checkWhere radiusUsername "Expiration") ;;
        (match expiryDate subscriber with
         | Some date =>
             create radCheckT
               {| rc_username := radiusUsername;
                  rc_attribute := "Expiration";
                  rc_op := ":=";
                  rc_value := formatRadiusExpiration date |} ;;
             ret tt
         | None => ret tt
         end) ;;
        deleteMany radCheckT (checkWhere radiusUsername "Calling-Station-Id") ;;
        (match macAddress subscriber with
         | Some mac =>
             if Js.truthyString (macAddress subscriber) then
               create radCheckT
                 {| rc_username := radiusUsername;
                    rc_attribute := "Calling-Station-Id";
                    rc_op := ":=";
                    rc_value := Js.toUpperCase mac |} ;;
               ret tt
             else ret tt
         | None => ret tt
         end) ;;
        (match planId subscriber with
         | Some plan =>
             if Js.truthyString (planId subscriber) then
               let groupname := buildRadiusGroupname tenantSlug plan in
               existing <- findFirst radUserGroupT (userGroupWhere radiusUsername) ;;
               match existing with
               | None =>
                   create radUserGroupT
                     {| ug_username := radiusUsername;
                        ug_groupname := groupname;
                        ug_priority := 1 |} ;;
                   ret tt
               | Some _ => ret tt
               end
             else ret tt
         | None => ret tt
         end)))
    (fun error => throw error).

Definition disableSubscriberRadius (tenantSlug username : string) : Async unit :=
  let radiusUsername := buildRadiusUsername tenantSlug username in
  tryCatch
    (transaction
       (deleteMany radCheckT (checkWhere radiusUsername "Auth-Type") ;;
        create radCheckT
          {| rc_username := radiusUsername;
             rc_attribute := "Auth-Type";
             rc_op := ":=";
             rc_value := "Reject" |} ;;
        deleteMany radUserGroupT (userGroupWhere radiusUsername) ;;
        ret tt))
    (fun error => throw error).

Definition syncPlanBandwidth (tenantSlug : string) (plan : Plan) : Async unit :=
  let groupname := buildRadiusGroupname tenantSlug (plan_id plan) in
  tryCatch
    (transaction
       (deleteMany radGroupReplyT (fun r => String.eqb (gr_groupname r) groupname) ;;
        deleteMany radGroupCheckT (fun r => String.eqb (gc_groupname r) groupname) ;;
        let attributes := planToRadiusAttributes plan in
        forOf attributes (fun attr =>
          create radGroupReplyT
            {| gr_groupname := groupname;
               gr_attribute := attr_attribute attr;
               gr_op := ":=";
               gr_value := attr_value attr;
               gr_priority := attr_priority attr |} ;;
          ret tt) ;;
        create radGroupCheckT
          {| gc_groupname := groupname;
             gc_attribute := "Simultaneous-Use";
             gc_op := ":=";
             gc_value := Js.numberToString (Js.orNumber (simultaneousDevices plan) 1) |} ;;
        ret tt))
    (fun error => throw error).

Definition disconnectUser (sendCoaDisconnect : CoaDisconnectParams -> Async bool)
  (nasIp username secret : string) : Async bool :=
  tryCatch
    (success <- sendCoaDisconnect
                  {| cd_nasIp := nasIp; cd_secret := secret; cd_username := username |} ;;
     ret success)
    (fun error => ret false).

Definition changeUserBandwidth (sendCoaChangeRate : CoaChangeRateParams -> Async bool)
  (nasIp username secret rateLimit : string) : Async bool :=
  tryCatch
    (success <- sendCoaChangeRate
                  {| cr_nasIp := nasIp; cr_secret := secret;
                     cr_username := username; cr_rateLimit := rateLimit |} ;;
     ret success)
    (fun error => ret false).

(** [{ lt: threshold }] on a nullable time column: a null never matches. *)
Definition ltTime (t : option Z) (threshold : Z) : bool :=
  match t with
  | Some v => v <? threshold
  | None => false
  end.

Definition isNull {A : Type} (t : option A) : bool :=
  match t with
  | Some _ => false
  | None => true
  end.

(** The [where] clause of the sweep: [acctstoptime: null] and the [OR] of the
    two staleness conditions, and the [startsWith] filter on the username
    when a tenant is given. *)
Definition staleWhere (tenantSlug : option string) (threshold : Z) (r : RadAcct)
  : bool :=
  isNull (acctstoptime r)
  && (ltTime (acctupdatetime r) threshold
      || (isNull (acctupdatetime r) && ltTime (acctstarttime r) threshold))
  && match tenantSlug with
     | Some slug =>
         if Js.truthyString tenantSlug
         then startsWith (slug ++ "_") (acct_username r)
         else true
     | None => true
     end.

Definition closeStale (stoptime : Z) (r : RadAcct) : RadAcct :=
  {| acct_username := acct_username r;
     nasipaddress := nasipaddress r;
     acctstarttime := acctstarttime r;
     acctupdatetime := acctupdatetime r;
     acctstoptime := Some stoptime;
     acctterminatecause := "Stale-Session" |}.

Definition cleanupStaleSessions (tenantSlug : option string)
  (staleThresholdMinutes : option Z) : Async nat :=
  let staleThresholdMinutes :=
    match staleThresholdMinutes with
    | Some minutes => minutes
    | None => 15
    end in
  tryCatch
    (now <- dateNow ;;
     let threshold := now - staleThresholdMinutes * 60 * 1000 in
     let where_ := staleWhere tenantSlug threshold in
     stoptime <- dateNow ;;
     result <- updateMany radAcctT where_ (closeStale stoptime) ;;
     ret result)
    (fun error => throw error).

End radiusService.

(** ** Vocabulary of the specification *)

(** A nullable number that is "missing or zero". *)
Definition missingOrZero (x : option Z) : Prop := x = None \/ x = Some 0.

(** A nullable number that is "present and non-zero", with its value. *)
Definition presentNonZero (x : option Z) (n : Z) : Prop := x = Some n /\ n <> 0.

(** The two-field base form ["{down}{unit}/{up}{unit}"]. *)
Definition baseRateLimit (plan : Plan) : string :=
  (Js.numberToString (downloadSpeed plan) ++ unitSymbol (speedUnit plan)) ++ "/"
    ++ (Js.numberToString (uploadSpeed plan) ++ unitSymbol (speedUnit plan)).

(** The space-separated fields of a rate-limit string. *)
Definition rateLimitFields (rateLimit : string) : list string :=
  Js.split " " rateLimit.

(** A fixed plan with the given bandwidth and burst profile. *)
Definition planOf (down up : Z) (unit : SpeedUnit)
  (burstDown burstUp threshold burstSec : option Z) (prio : Z) : Plan :=
  {| plan_id := "gold";
     downloadSpeed := down;
     uploadSpeed := up;
     speedUnit := unit;
     burstDownloadSpeed := burstDown;
     burstUploadSpeed := burstUp;
     burstThreshold := threshold;
     burstTime := burstSec;
     priority := prio;
     poolName := None;
     validityDays := 30;
     validityUnit := DAYS;
     simultaneousDevices := None |}.

(** The plan of the specification's example, without burst profile. *)
Definition planBase : Plan :=
  planOf 50 30 MBPS None None None None 8.

(** The plan of the specification's example, with its burst profile. *)
Definition planBurst : Plan :=
  planOf 50 30 MBPS (Some 100) (Some 50) (Some 100) (Some 10) 1.

(** A burst profile without threshold. *)
Definition planBurstNoThreshold : Plan :=
  planOf 50 30 MBPS (Some 100) (Some 50) None (Some 10) 1.

(** A plan with a burst profile, a pool, an hour-based validity and a limit
    of three devices. *)
Definition planGold : Plan :=
  {| plan_id := "gold";
     downloadSpeed := 50;
     uploadSpeed := 30;
     speedUnit := MBPS;
     burstDownloadSpeed := Some 100;
     burstUploadSpeed := Some 50;
     burstThreshold := Some 100;
     burstTime := Some 10;
     priority := 1;
     poolName := Some "pool-gold";
     validityDays := 12;
     validityUnit := HOURS;
     simultaneousDevices := Some 3 |}.

(** ** Effects of the operations on the store

    What each successful operation leaves in the store, written as a function
    of the store it started from; the lemmas [*_fulfilled] below derive these
    from the operations themselves. *)

(** A world in which no database statement is rejected. *)
Definition noFaults (w : World) : World :=
  {| db := db w; faults := []; clock := clock w; ticks := ticks w |}.

(** A computation whose success does not depend on the fault schedule: when
    it fulfils under some schedule, it fulfils with the same value and the
    same store under the empty one. *)
Definition steady {A : Type} (m : Async A) : Prop :=
  forall w a w', m w = (Fulfilled a, w') ->
                 m (noFaults w) = (Fulfilled a, noFaults w').

Definition notWhere {R : Type} (where_ : R -> bool) (r : R) : bool :=
  negb (where_ r).

(** Check rows that all belong to one username and one attribute. *)
Definition rowsOf (username attribute : string) (l : list RadCheck) : Prop :=
  Forall (fun r => rc_username r = username /\ rc_attribute r = attribute) l.

Definition expirationRows (radiusUsername : string) (subscriber : Subscriber)
  : list RadCheck :=
  match expiryDate subscriber with
  | Some date =>
      [ {| rc_username := radiusUsername;
           rc_attribute := "Expiration";
           rc_op := ":=";
           rc_value := radiusService.formatRadiusExpiration date |} ]
  | None => []
  end.

Definition macRows (radiusUsername : string) (subscriber : Subscriber)
  : list RadCheck :=
  match macAddress subscriber with
  | Some mac =>
      if Js.truthyString (macAddress subscriber) then
        [ {| rc_username := radiusUsername;
             rc_attribute := "Calling-Station-Id";
             rc_op := ":=";
             rc_value := Js.toUpperCase mac |} ]
      else []
  | None => []
  end.

Definition passwordRows (radiusUsername : string) (password : string)
  : list RadCheck :=
  [ {| rc_username := radiusUsername;
       rc_attribute := "Cleartext-Password";
       rc_op := ":=";
       rc_value := password |} ].

Definition rejectRow (radiusUsername : string) : RadCheck :=
  {| rc_username := radiusUsername;
     rc_attribute := "Auth-Type";
     rc_op := ":=";
     rc_value := "Reject" |}.

(** The membership row that [enableSubscriberRadius] writes for a plan. *)
Definition planMembership (tenantSlug radiusUsername plan : string) : RadUserGroup :=
  {| ug_username := radiusUsername;
     ug_groupname := buildRadiusGroupname tenantSlug plan;
     ug_priority := 1 |}.

Definition restoredMembership (tenantSlug radiusUsername : string)
  (subscriber : Subscriber) (memberships : list RadUserGroup) : list RadUserGroup :=
  match planId subscriber with
  | Some plan =>
      if Js.truthyString (planId subscriber) then
        match find (radiusService.userGroupWhere radiusUsername) memberships with
        | None => [planMembership tenantSlug radiusUsername plan]
        | Some _ => []
        end
      else []
  | None => []
  end.

Definition refreshedCheck (radiusUsername : string) (subscriber : Subscriber)
  (checks : list RadCheck) : list RadCheck :=
  filter (notWhere (radiusService.checkWhere radiusUsername "Calling-Station-Id"))
    (filter (notWhere (radiusService.checkWhere radiusUsername "Expiration")) checks
     ++ expirationRows radiusUsername subscriber)
  ++ macRows radiusUsername subscriber.

Definition afterEnable (tenantSlug : string) (subscriber : Subscriber) (d : Store)
  : Store :=
  let radiusUsername := buildRadiusUsername tenantSlug (sub_username subscriber) in
  {| radCheck :=
       refreshedCheck radiusUsername subscriber
         (filter (notWhere (radiusService.checkWhere radiusUsername "Auth-Type"))
            (radCheck d));
     radReply := radReply d;
     radUserGroup :=
       radUserGroup d
       ++ restoredMembership tenantSlug radiusUsername subscriber (radUserGroup d);
     radGroupCheck := radGroupCheck d;
     radGroupReply := radGroupReply d;
     radAcct := radAcct d |}.

Definition afterDisable (tenantSlug username : string) (d : Store) : Store :=
  let radiusUsername := buildRadiusUsername tenantSlug username in
  {| radCheck :=
       filter (notWhere (radiusService.checkWhere radiusUsername "Auth-Type"))
         (radCheck d)
       ++ [rejectRow radiusUsername];
     radReply := radReply d;
     radUserGroup :=
       filter (notWhere (radiusService.userGroupWhere radiusUsername))
         (radUserGroup d);
     radGroupCheck := radGroupCheck d;
     radGroupReply := radGroupReply d;
     radAcct := radAcct d |}.

Definition afterSyncAuth (tenantSlug : string) (subscriber : Subscriber)
  (cleartextPassword : option string) (d : Store) : Store :=
  let radiusUsername := buildRadiusUsername tenantSlug (sub_username subscriber) in
  {| radCheck :=
       refreshedCheck radiusUsername subscriber
         (match cleartextPassword with
          | Some password =>
              if Js.truthyString cleartextPassword then
                filter (notWhere (radiusService.checkWhere radiusUsername
                                    "Cleartext-Password")) (radCheck d)
                ++ passwordRows radiusUsername password
              else radCheck d
          | None => radCheck d
          end);
     radReply := radReply d;
     radUserGroup := radUserGroup d;
     radGroupCheck := radGroupCheck d;
     radGroupReply := radGroupReply d;
     radAcct := radAcct d |}.

Definition groupReplyRow (groupname : string) (attr : RadiusAttribute)
  : RadGroupReply :=
  {| gr_groupname := groupname;
     gr_attribute := attr_attribute attr;
     gr_op := ":=";
     gr_value := attr_value attr;
     gr_priority := attr_priority attr |}.

Definition simultaneousUseRow (groupname : string) (plan : Plan) : RadGroupCheck :=
  {| gc_groupname := groupname;
     gc_attribute := "Simultaneous-Use";
     gc_op := ":=";
     gc_value := Js.numberToString (Js.orNumber (simultaneousDevices plan) 1) |}.

Definition afterSyncPlanBandwidth (tenantSlug : string) (plan : Plan) (d : Store)
  : Store :=
  let groupname := buildRadiusGroupname tenantSlug (plan_id plan) in
  {| radCheck := radCheck d;
     radReply := radReply d;
     radUserGroup := radUserGroup d;
     radGroupCheck :=
       filter (notWhere (fun r => String.eqb (gc_groupname r) groupname))
         (radGroupCheck d)
       ++ [simultaneousUseRow groupname plan];
     radGroupReply :=
       filter (notWhere (fun r => String.eqb (gr_groupname r) groupname))
         (radGroupReply d)
       ++ map (groupReplyRow groupname) (planToRadiusAttributes plan);
     radAcct := radAcct d |}.

(** ** Vocabulary of toggling *)

(** Two tables hold the same rows: each row the same number of times, in
    whatever order. *)
Definition sameRows {R : Type} (a b : list R) : Prop := Permutation a b.

(** The check, reply and user-group tables of two stores hold the same rows. *)
Definition sameTables (d1 d2 : Store) : Prop :=
  sameRows (radCheck d1) (radCheck d2)
  /\ sameRows (radReply d1) (radReply d2)
  /\ sameRows (radUserGroup d1) (radUserGroup d2).

(** The starting states from which toggling converges: the username has no
    membership row, or its only membership row is the one that
    [enableSubscriberRadius] creates for the subscriber's plan. *)
Definition membershipSettled (tenantSlug : string) (subscriber : Subscriber)
  (d : Store) : Prop :=
  let radiusUsername := buildRadiusUsername tenantSlug (sub_username subscriber) in
  filter (radiusService.userGroupWhere radiusUsername) (radUserGroup d) = []
  \/ exists plan,
       planId subscriber = Some plan
       /\ plan <> EmptyString
       /\ filter (radiusService.userGroupWhere radiusUsername) (radUserGroup d)
          = [ {| ug_username := radiusUsername;
                 ug_groupname := buildRadiusGroupname tenantSlug plan;
                 ug_priority := 1 |} ].

(** The membership rows that [enableSubscriberRadius] writes when the
    username has none. *)
Definition planRows (tenantSlug radiusUsername : string) (subscriber : Subscriber)
  : list RadUserGroup :=
  match planId subscriber with
  | Some plan =>
      if Js.truthyString (planId subscriber)
      then [planMembership tenantSlug radiusUsername plan]
      else []
  | None => []
  end.

(** ** Example worlds *)

Definition alice : Subscriber :=
  {| sub_id := "sub-1";
     sub_username := "alice";
     planId := Some "gold";
     macAddress := Some "aa:bb:cc:00:11:22";
     staticIp := None;
     expiryDate := Some {| getFullYear := 2025; getMonth := 0; getDate := 15 |} |}.

(** Alice without expiry date and without MAC binding. *)
Definition aliceUnbound : Subscriber :=
  {| sub_id := "sub-1";
     sub_username := "alice";
     planId := Some "gold";
     macAddress := None;
     staticIp := None;
     expiryDate := None |}.

(** A store in which alice has a password, an old expiration, a MAC binding,
    a stale reject row and a membership in the plan "silver"; bob is another
    subscriber of the same tenant. *)
Definition storeA : Store :=
  {| radCheck :=
       [ {| rc_username := "acme_alice"; rc_attribute := "Cleartext-Password";
            rc_op := ":="; rc_value := "s3cret" |};
         {| rc_username := "acme_alice"; rc_attribute := "Expiration";
            rc_op := ":="; rc_value := "Dec 31 2024 23:59:59" |};
         {| rc_username := "acme_bob"; rc_attribute := "Auth-Type";
            rc_op := ":="; rc_value := "Reject" |};
         {| rc_username := "acme_alice"; rc_attribute := "Calling-Station-Id";
            rc_op := ":="; rc_value := "00:00:00:00:00:01" |};
         {| rc_username := "acme_alice"; rc_attribute := "Auth-Type";
            rc_op := ":="; rc_value := "Accept" |} ];
     radReply := [];
     radUserGroup :=
       [ {| ug_username := "acme_alice"; ug_groupname := "acme_silver";
            ug_priority := 1 |};
         {| ug_username := "acme_bob"; ug_groupname := "acme_gold";
            ug_priority := 1 |} ];
     radGroupCheck :=
       [ {| gc_groupname := "acme_gold"; gc_attribute := "Simultaneous-Use";
            gc_op := ":="; gc_value := "3" |};
         {| gc_groupname := "acme_silver"; gc_attribute := "Simultaneous-Use";
            gc_op := ":="; gc_value := "1" |} ];
     radGroupReply :=
       [ {| gr_groupname := "acme_gold"; gr_attribute := "Mikrotik-Rate-Limit";
            gr_op := ":="; gr_value := "10M/10M"; gr_priority := 1 |} ];
     radAcct := [] |}.

(** [storeA], with statements that all go through and a database failure
    scheduled long after. *)
Definition worldA : World :=
  {| db := storeA;
     faults := [None; None; None; None; None; None; None; None; None; None;
                None; None; None; None; None; None; None; None; None; None;
                None; None; None; None; Some (PrismaError "P1001")];
     clock := 1700000000000;
     ticks := [3; 0; 2] |}.

(** A store in which alice has no membership yet. *)
Definition storeFresh : Store :=
  {| radCheck := radCheck storeA;
     radReply := [];
     radUserGroup :=
       [ {| ug_username := "acme_bob"; ug_groupname := "acme_gold";
            ug_priority := 1 |} ];
     radGroupCheck := [];
     radGroupReply := [];
     radAcct := [] |}.

Definition worldFresh : World :=
  {| db := storeFresh; faults := []; clock := 1700000000000; ticks := [] |}.

(** ** Vocabulary of the stale-session sweep *)

(** The threshold of the sweep, from the first reading of the clock. *)
Definition staleThreshold (staleThresholdMinutes : option Z) (now : Z) : Z :=
  now - match staleThresholdMinutes with
        | Some minutes => minutes
        | None => 15
        end * 60 * 1000.


(** [Like pattern s]: the string [s] matches the pattern.  A [%] of the
    pattern stands for any sequence of characters of [s], a [_] for any one
    character, a backslash and the character after it for that character,
    and any other character for itself. *)
Inductive Like : string -> string -> Prop :=
| Like_empty : Like EmptyString EmptyString
| Like_percent (pattern skipped s : string) :
    Like pattern s -> Like (String "%" pattern) (skipped ++ s)
| Like_underscore (pattern s : string) (c : ascii) :
    Like pattern s -> Like (String "_" pattern) (String c s)
| Like_escaped (pattern s : string) (c : ascii) :
    Like pattern s -> Like (String backslash (String c pattern)) (String c s)
| Like_literal (pattern s : string) (c : ascii) :
    c <> "%"%char -> c <> "_"%char -> c <> backslash ->
    Like pattern s -> Like (String c pattern) (String c s).

(** A string without [%], [_] and backslash: in a pattern it stands for
    itself. *)
Definition plain (s : string) : bool :=
  negb (Js.includes "%" s) && negb (Js.includes "_" s)
  && negb (Js.includes backslash s).

(** The records a sweep looks at: all of them when no tenant slug (or an
    empty one) is given, and otherwise those whose username matches the
    pattern made of the slug, a [_] and a [%]. *)
Definition inScope (tenantSlug : option string) (r : RadAcct) : Prop :=
  match tenantSlug with
  | Some slug => slug = EmptyString \/ Like (slug ++ "_%") (acct_username r)
  | None => True
  end.


(** An open session without update that started [minutes] before [now]. *)
Definition sessionStarted (username : string) (now minutes : Z) : RadAcct :=
  {| acct_username := username;
     nasipaddress := "10.0.0.1";
     acctstarttime := Some (now - minutes * 60 * 1000);
     acctupdatetime := None;
     acctstoptime := None;
     acctterminatecause := EmptyString |}.


(** A sender whose request times out: the promise rejects. *)
Definition sendTimesOut {P : Type} (params : P) : Async bool :=
  throw (TransportError "ETIMEDOUT").

(** A sender that receives the acknowledgment [ack]. *)
Definition sendAnswers {P : Type} (ack : bool) (params : P) : Async bool :=
  ret ack.

(** A world whose accounting table holds, for the tenant "acme", a session
    started twenty minutes ago and a session started ten minutes ago, both
    open and never updated. *)
Definition worldTwoSessions : World :=
  {| db :=
       {| radCheck := []; radReply := []; radUserGroup := [];
          radGroupCheck := []; radGroupReply := [];
          radAcct := [ sessionStarted "acme_alice" 1700000000000 20;
                       sessionStarted "acme_carol" 1700000000000 10 ] |};
     faults := [None];
     clock := 1700000000000;
     ticks := [2; 5] |}.

(** A world whose accounting table holds four open sessions that started
    twenty minutes ago and were never updated: one of the tenant "acme", one
    of the tenant "acmes", one whose username has no underscore after
    "acme", and one of the tenant "globex". *)
Definition worldNeighbours : World :=
  {| db :=
       {| radCheck := []; radReply := []; radUserGroup := [];
          radGroupCheck := []; radGroupReply := [];
          radAcct := [ sessionStarted "acme_alice" 1700000000000 20;
                       sessionStarted "acmes_bob" 1700000000000 20;
                       sessionStarted "acmeXcarol" 1700000000000 20;
                       sessionStarted "globex_dan" 1700000000000 20 ] |};
     faults := [];
     clock := 1700000000000;
     ticks := [2; 5] |}.

(** * The rest of the service ([radius.service.ts])

    The operations of [radiusService] that the sections above leave out,
    under their source names. *)

Definition radReplyT : Table RadReply :=
  {| rows := radReply;
     withRows := fun l d =>
       {| radCheck := radCheck d; radReply := l; radUserGroup := radUserGroup d;
          radGroupCheck := radGroupCheck d; radGroupReply := radGroupReply d;
          radAcct := radAcct d |} |}.

(** [where: { username, attribute }] on the reply table. *)
Definition replyWhere (username attribute : string) (r : RadReply) : bool :=
  String.eqb (rr_username r) username && String.eqb (rr_attribute r) attribute.

Definition syncSubscriberPlan (tenantSlug username : string) (planId : option string)
  : Async unit :=
  let radiusUsername := buildRadiusUsername tenantSlug username in
  tryCatch
    (transaction
       (deleteMany radUserGroupT (radiusService.userGroupWhere radiusUsername) ;;
        match planId with
        | Some plan =>
            if Js.truthyString planId then
              let groupname := buildRadiusGroupname tenantSlug plan in
              create radUserGroupT
                {| ug_username := radiusUsername;
                   ug_groupname := groupname;
                   ug_priority := 1 |} ;;
              ret tt
            else ret tt
        | None => ret tt
        end))
    (fun error => throw error).

Definition removePlanBandwidth (tenantSlug planId : string) : Async unit :=
  let groupname := buildRadiusGroupname tenantSlug planId in
  tryCatch
    (deleteMany radGroupReplyT (fun r => String.eqb (gr_groupname r) groupname) ;;
     ret tt)
    (fun error => throw error).

Definition syncSubscriberReplyAttributes (tenantSlug : string)
  (subscriber : Subscriber) : Async unit :=
  let radiusUsername := buildRadiusUsername tenantSlug (sub_username subscriber) in
  tryCatch
    (transaction
       (deleteMany radReplyT (replyWhere radiusUsername "Framed-IP-Address") ;;
        match staticIp subscriber with
        | Some ip =>
            if Js.truthyString (staticIp subscriber) then
              create radReplyT
                {| rr_username := radiusUsername;
                   rr_attribute := "Framed-IP-Address";
                   rr_op := ":=";
                   rr_value := ip |} ;;
              ret tt
            else ret tt
        | None => ret tt
        end))
    (fun error => throw error).

(** [prisma.$transaction([a, b, c])]: the three statements in order, in one
    transaction. *)
Definition removeSubscriberAuth (tenantSlug username : string) : Async unit :=
  let radiusUsername := buildRadiusUsername tenantSlug username in
  tryCatch
    (transaction
       (deleteMany radCheckT (fun r => String.eqb (rc_username r) radiusUsername) ;;
        deleteMany radReplyT (fun r => String.eqb (rr_username r) radiusUsername) ;;
        deleteMany radUserGroupT (radiusService.userGroupWhere radiusUsername) ;;
        ret tt))
    (fun error => throw error).

(** ** Session queries *)

(** [orderBy: { acctstarttime: "desc" }]: [a] may come before [b].  The
    database of the project is PostgreSQL, where a descending order puts
    null values first. *)
Definition startsNoEarlier (a b : RadAcct) : bool :=
  match acctstarttime a, acctstarttime b with
  | None, _ => true
  | Some _, None => false
  | Some x, Some y => y <=? x
  end.

Fixpoint insertByStart (r : RadAcct) (l : list RadAcct) : list RadAcct :=
  match l with
  | [] => [r]
  | x :: rest =>
      if startsNoEarlier r x then r :: x :: rest else x :: insertByStart r rest
  end.

(** The rows in descending order of start time; rows with equal start times
    keep their table order (the database leaves their order open). *)
Definition orderByStartDesc (l : list RadAcct) : list RadAcct :=
  fold_right insertByStart [] l.

(** [findMany({ where, orderBy })]. *)
Definition findMany {R : Type} (t : Table R) (where_ : R -> bool)
  (orderBy : list R -> list R) : Async (list R) :=
  statement (fun d => (orderBy (filter where_ (rows t d)), d)).

(** [findMany({ where, orderBy, skip, take })] with [skip] and [take] at
    least zero.  Other values are outside the model: the statement is
    rejected (the client refuses a negative [skip]; a negative [take], which
    the client reads as paging backwards, is not modelled). *)
Definition findManyPage {R : Type} (t : Table R) (where_ : R -> bool)
  (orderBy : list R -> list R) (skip take : Z) : Async (list R) :=
  if (skip <? 0) || (take <? 0)
  then throw (PrismaError "P2009")
  else statement (fun d =>
         (firstn (Z.to_nat take)
            (skipn (Z.to_nat skip) (orderBy (filter where_ (rows t d)))),
          d)).

(** [count({ where })]. *)
Definition count {R : Type} (t : Table R) (where_ : R -> bool) : Async Z :=
  statement (fun d => (Z.of_nat (List.length (filter where_ (rows t d))), d)).

(** [Promise.all([a, b])] for two queries: both are issued; it rejects with
    the first rejection. *)
Definition promiseAll2 {A B : Type} (a : Async A) (b : Async B) : Async (A * B) :=
  fun w =>
    match a w with
    | (Fulfilled x, w1) =>
        match b w1 with
        | (Fulfilled y, w2) => (Fulfilled (x, y), w2)
        | (Rejected e, w2) => (Rejected e, w2)
        end
    | (Rejected e, w1) => (Rejected e, snd (b w1))
    end.

Definition getOnlineUsers (tenantSlug : string) : Async (list RadAcct) :=
  tryCatch
    (findMany radAcctT
       (fun r => startsWith (tenantSlug ++ "_") (acct_username r)
                 && radiusService.isNull (acctstoptime r))
       orderByStartDesc)
    (fun error => throw error).

Definition getUserActiveSessions (tenantSlug username : string)
  : Async (list RadAcct) :=
  let radiusUsername := buildRadiusUsername tenantSlug username in
  tryCatch
    (findMany radAcctT
       (fun r => String.eqb (acct_username r) radiusUsername
                 && radiusService.isNull (acctstoptime r))
       orderByStartDesc)
    (fun error => throw error).

Record SessionHistoryParams := {
  sh_tenantSlug : string;
  sh_subscriberUsername : option string;
  sh_nasIp : option string;
  sh_startDate : option Z;
  sh_endDate : option Z;
  sh_onlyActive : option bool;
  sh_page : option Z;
  sh_pageSize : option Z
}.

Record PaginationMeta := {
  meta_total : Z;
  meta_page : Z;
  meta_pageSize : Z;
  meta_totalPages : Z
}.

(** [{ gte: bound }] and [{ lte: bound }] on a nullable time column. *)
Definition gteTime (t : option Z) (bound : Z) : bool :=
  match t with
  | Some v => bound <=? v
  | None => false
  end.

Definition lteTime (t : option Z) (bound : Z) : bool :=
  match t with
  | Some v => v <=? bound
  | None => false
  end.

(** The [where] object that [getSessionHistory] builds: the [startsWith]
    filter of the tenant, replaced by the exact username when a subscriber
    is given, and the optional filters. *)
Definition historyWhere (params : SessionHistoryParams) (r : RadAcct) : bool :=
  (match sh_subscriberUsername params with
   | Some subscriber =>
       if Js.truthyString (sh_subscriberUsername params)
       then String.eqb (acct_username r)
              (buildRadiusUsername (sh_tenantSlug params) subscriber)
       else startsWith (sh_tenantSlug params ++ "_") (acct_username r)
   | None => startsWith (sh_tenantSlug params ++ "_") (acct_username r)
   end)
  && (match sh_nasIp params with
      | Some ip =>
          if Js.truthyString (sh_nasIp params)
          then String.eqb (nasipaddress r) ip else true
      | None => true
      end)
  && (match sh_startDate params with
      | Some bound => gteTime (acctstarttime r) bound
      | None => true
      end)
  && (match sh_endDate params with
      | Some bound => lteTime (acctstarttime r) bound
      | None => true
      end)
  && (match sh_onlyActive params with
      | Some true => radiusService.isNull (acctstoptime r)
      | _ => true
      end).

(** [Math.ceil(total / pageSize)] on integers (a page size of zero, for
    which JavaScript gives [Infinity] or [NaN], is outside the model). *)
Definition ceilDiv (total pageSize : Z) : Z := - ((- total) / pageSize).

Definition getSessionHistory (params : SessionHistoryParams)
  : Async (list RadAcct * PaginationMeta) :=
  let page := match sh_page params with Some p => p | None => 1 end in
  let pageSize := match sh_pageSize params with Some s => s | None => 50 end in
  let where_ := historyWhere params in
  tryCatch
    (result <- promiseAll2
                 (findManyPage radAcctT where_ orderByStartDesc
                    ((page - 1) * pageSize) pageSize)
                 (count radAcctT where_) ;;
     ret (fst result,
          {| meta_total := snd result;
             meta_page := page;
             meta_pageSize := pageSize;
             meta_totalPages := ceilDiv (snd result) pageSize |}))
    (fun error => throw error).

(** The loop of [disconnectAllUserSessions]: one disconnect per session,
    counting the acknowledged ones. *)
Fixpoint disconnectEach (disconnect : RadAcct -> Async bool)
  (sessions : list RadAcct) (disconnected : nat) : Async nat :=
  match sessions with
  | [] => ret disconnected
  | session :: rest =>
      success <- disconnect session ;;
      disconnectEach disconnect rest
        (if success then S disconnected else disconnected)
  end.

Definition disconnectAllUserSessions
  (sendCoaDisconnect : CoaDisconnectParams -> Async bool)
  (tenantSlug username nasSecret : string) : Async nat :=
  activeSessions <- getUserActiveSessions tenantSlug username ;;
  disconnectEach
    (fun session =>
       let radiusUsername := buildRadiusUsername tenantSlug username in
       radiusService.disconnectUser sendCoaDisconnect
         (nasipaddress session) radiusUsername nasSecret)
    activeSessions 0%nat.

(** [buildFupRateLimit] of [radius-utils.ts]. *)
Definition buildFupRateLimit (fupDownloadSpeed fupUploadSpeed : Z)
  (speedUnit : SpeedUnit) : string :=
  let unit := unitSymbol speedUnit in
  let rx := Js.numberToString fupDownloadSpeed ++ unit in
  let tx := Js.numberToString fupUploadSpeed ++ unit in
  rx ++ "/" ++ tx.

(** ** Tasks over another part of the database

    The trusted-client table and the one-time-password table are not part of
    [Store]; the operations on them run as tasks over a world of their own,
    with the same reading as [Async]: fulfil or reject, and thread the
    world. *)

Definition Task (W A : Type) : Type := W -> Outcome A * W.

Definition taskRet {W A : Type} (a : A) : Task W A := fun w => (Fulfilled a, w).

Definition taskThrow {W A : Type} (e : Error) : Task W A := fun w => (Rejected e, w).

Definition taskBind {W A B : Type} (m : Task W A) (k : A -> Task W B) : Task W B :=
  fun w =>
    match m w with
    | (Fulfilled a, w') => k a w'
    | (Rejected e, w') => (Rejected e, w')
    end.

(** [try { m } catch (error) { h error }]. *)
Definition taskTry {W A : Type} (m : Task W A) (h : Error -> Task W A) : Task W A :=
  fun w =>
    match m w with
    | (Fulfilled a, w') => (Fulfilled a, w')
    | (Rejected e, w') => h e w'
    end.

(** ** Device registry ([syncNasDevice], [removeNasDevice]) *)

(** Modelled from the spec: the generated Prisma type [NasDevice] is not part
    of the sources; the fields are the ones the code reads (spec section 3:
    IP address, display name, type, shared secret, optional description). *)
Record NasDevice := {
  nasIp : string;
  nas_name : string;
  nasType : string;
  nas_secret : string;
  nas_description : option string
}.

(** A row of the trusted-client table; [nasname] is its unique key. *)
Record RadNas := {
  nasname : string;
  shortname : string;
  rn_type : string;
  rn_secret : string;
  rn_description : option string
}.

Record Registry := {
  radNas : list RadNas;
  registryFaults : list (option Error)
}.

(** One statement on the trusted-client table: rejected when the fault
    schedule says so, and otherwise run, which may itself reject. *)
Definition registryStatement {A : Type}
  (f : list RadNas -> Outcome A * list RadNas) : Task Registry A :=
  fun w =>
    match registryFaults w with
    | Some e :: later => (Rejected e, {| radNas := radNas w; registryFaults := later |})
    | None :: later =>
        (fst (f (radNas w)), {| radNas := snd (f (radNas w)); registryFaults := later |})
    | [] =>
        (fst (f (radNas w)), {| radNas := snd (f (radNas w)); registryFaults := [] |})
    end.

Definition lowerChar (c : ascii) : ascii :=
  let n := nat_of_ascii c in
  if (Nat.leb 65 n && Nat.leb n 90)%bool then ascii_of_nat (n + 32) else c.

(** [s.toLowerCase()] on the ASCII range. *)
Fixpoint toLowerCase (s : string) : string :=
  match s with
  | EmptyString => EmptyString
  | String c rest => String (lowerChar c) (toLowerCase rest)
  end.

(** [x || undefined] on [string | null]. *)
Definition orUndefined (x : option string) : option string :=
  if Js.truthyString x then x else None.

(** [radNas.upsert({ where: { nasname }, create, update })]: the row with
    the key is updated, and when there is none the new row is added.  An
    [undefined] field of [update] leaves the column as it is. *)
Definition upsertNas (key : string) (create : RadNas) (update : RadNas -> RadNas)
  : Task Registry unit :=
  registryStatement (fun table =>
    (Fulfilled tt,
     if existsb (fun r => String.eqb (nasname r) key) table
     then map (fun r => if String.eqb (nasname r) key then update r else r) table
     else (table ++ [create])%list)).

(** [radNas.delete({ where: { nasname } })]: rejects with the code P2025
    when there is no such row. *)
Definition deleteNas (key : string) : Task Registry unit :=
  registryStatement (fun table =>
    if existsb (fun r => String.eqb (nasname r) key) table
    then (Fulfilled tt, filter (fun r => negb (String.eqb (nasname r) key)) table)
    else (Rejected (PrismaError "P2025"), table)).

Definition syncNasDevice (nas : NasDevice) : Task Registry unit :=
  taskTry
    (upsertNas (nasIp nas)
       {| nasname := nasIp nas;
          shortname := String.substring 0 32 (nas_name nas);
          rn_type := toLowerCase (nasType nas);
          rn_secret := nas_secret nas;
          rn_description := orUndefined (nas_description nas) |}
       (fun r =>
          {| nasname := nasname r;
             shortname := String.substring 0 32 (nas_name nas);
             rn_type := toLowerCase (nasType nas);
             rn_secret := nas_secret nas;
             rn_description :=
               match orUndefined (nas_description nas) with
               | Some d => Some d
               | None => rn_description r
               end |}))
    (fun error => taskThrow error).

Definition removeNasDevice (nasIp : string) : Task Registry unit :=
  taskTry
    (deleteNas nasIp)
    (fun error =>
       match error with
       | PrismaError code =>
           if String.eqb code "P2025" then taskRet tt else taskThrow error
       | TransportError _ => taskThrow error
       end).

(** ** Effects of the other operations on the store *)

(** The membership rows that [syncSubscriberPlan] writes. *)
Definition membershipFor (tenantSlug radiusUsername : string) (planId : option string)
  : list RadUserGroup :=
  match planId with
  | Some plan =>
      if Js.truthyString planId
      then [planMembership tenantSlug radiusUsername plan]
      else []
  | None => []
  end.

Definition afterSyncPlan (tenantSlug username : string) (planId : option string)
  (d : Store) : Store :=
  let radiusUsername := buildRadiusUsername tenantSlug username in
  withRows radUserGroupT
    (filter (notWhere (radiusService.userGroupWhere radiusUsername)) (radUserGroup d)
     ++ membershipFor tenantSlug radiusUsername planId)
    d.

(** The reply rows that [syncSubscriberReplyAttributes] writes. *)
Definition staticIpRows (radiusUsername : string) (subscriber : Subscriber)
  : list RadReply :=
  match staticIp subscriber with
  | Some ip =>
      if Js.truthyString (staticIp subscriber) then
        [ {| rr_username := radiusUsername;
             rr_attribute := "Framed-IP-Address";
             rr_op := ":=";
             rr_value := ip |} ]
      else []
  | None => []
  end.

Definition afterSyncReply (tenantSlug : string) (subscriber : Subscriber) (d : Store)
  : Store :=
  let radiusUsername := buildRadiusUsername tenantSlug (sub_username subscriber) in
  withRows radReplyT
    (filter (notWhere (replyWhere radiusUsername "Framed-IP-Address")) (radReply d)
     ++ staticIpRows radiusUsername subscriber)
    d.

Definition afterRemoveAuth (tenantSlug username : string) (d : Store) : Store :=
  let radiusUsername := buildRadiusUsername tenantSlug username in
  {| radCheck :=
       filter (notWhere (fun r => String.eqb (rc_username r) radiusUsername))
         (radCheck d);
     radReply :=
       filter (notWhere (fun r => String.eqb (rr_username r) radiusUsername))
         (radReply d);
     radUserGroup :=
       filter (notWhere (radiusService.userGroupWhere radiusUsername))
         (radUserGroup d);
     radGroupCheck := radGroupCheck d;
     radGroupReply := radGroupReply d;
     radAcct := radAcct d |}.

Definition afterRemovePlanBandwidth (tenantSlug planId : string) (d : Store) : Store :=
  withRows radGroupReplyT
    (filter (notWhere (fun r =>
               String.eqb (gr_groupname r) (buildRadiusGroupname tenantSlug planId)))
       (radGroupReply d))
    d.

(** The rows of the three per-username tables that belong to [username]. *)
Definition checksOf (username : string) (d : Store) : list RadCheck :=
  filter (fun r => String.eqb (rc_username r) username) (radCheck d).

Definition repliesOf (username : string) (d : Store) : list RadReply :=
  filter (fun r => String.eqb (rr_username r) username) (radReply d).

Definition membershipsOf (username : string) (d : Store) : list RadUserGroup :=
  filter (radiusService.userGroupWhere username) (radUserGroup d).

(** Between two stores, nothing changed but rows of [username] in the check,
    reply and user-group tables: the rows of every other username are the
    same, in the same order, and the group and accounting tables are the
    same. *)
Definition onlyTouches (username : string) (d d' : Store) : Prop :=
  (forall other, other <> username ->
     checksOf other d' = checksOf other d
     /\ repliesOf other d' = repliesOf other d
     /\ membershipsOf other d' = membershipsOf other d)
  /\ radGroupCheck d' = radGroupCheck d
  /\ radGroupReply d' = radGroupReply d
  /\ radAcct d' = radAcct d.

(** ** More example worlds *)

(** Alice with a static address. *)
Definition aliceStatic : Subscriber :=
  {| sub_id := "sub-1";
     sub_username := "alice";
     planId := Some "gold";
     macAddress := None;
     staticIp := Some "10.1.1.5";
     expiryDate := None |}.

(** [storeA], with reply rows for alice, and a database failure at the third
    statement. *)
Definition worldFaulty : World :=
  {| db :=
       {| radCheck := radCheck storeA;
          radReply :=
            [ {| rr_username := "acme_alice"; rr_attribute := "Framed-IP-Address";
                 rr_op := ":="; rr_value := "10.1.1.4" |};
              {| rr_username := "acme_alice"; rr_attribute := "Framed-MTU";
                 rr_op := ":="; rr_value := "1480" |} ];
          radUserGroup := radUserGroup storeA;
          radGroupCheck := radGroupCheck storeA;
          radGroupReply := radGroupReply storeA;
          radAcct := [] |};
     faults := [None; None; Some (PrismaError "P1001")];
     clock := 1700000000000;
     ticks := [] |}.

(** ** Example registries *)

(** A router whose display name is longer than the short-name column. *)
Definition routerNorth : NasDevice :=
  {| nasIp := "10.0.0.1";
     nas_name := "North Tower Rooftop Router, Building A";
     nasType := "MikroTik";
     nas_secret := "s3cret";
     nas_description := None |}.

(** A registry that knows the router under an older name, with a
    description, and one other device. *)
Definition registryA : Registry :=
  {| radNas :=
       [ {| nasname := "10.0.0.1"; shortname := "north"; rn_type := "other";
            rn_secret := "old"; rn_description := Some "rooftop" |};
         {| nasname := "10.0.0.2"; shortname := "south"; rn_type := "mikrotik";
            rn_secret := "zzz"; rn_description := None |} ];
     registryFaults := [] |}.

(** The rows of the trusted-client table with the key [key]. *)
Definition hasKey (key : string) (r : RadNas) : bool := String.eqb (nasname r) key.

(** ** Vocabulary of the session queries *)

(** The sessions are in descending order of start time. *)
Fixpoint descending (l : list RadAcct) : Prop :=
  match l with
  | [] => True
  | x :: rest => Forall (fun y => startsNoEarlier x y = true) rest /\ descending rest
  end.

(** A session of [username] on the NAS [nas] that started at [start] and
    stopped at [stop]. *)
Definition sessionOf (username nas : string) (start : Z) (stop : option Z) : RadAcct :=
  {| acct_username := username;
     nasipaddress := nas;
     acctstarttime := Some start;
     acctupdatetime := None;
     acctstoptime := stop;
     acctterminatecause := EmptyString |}.

(** A world with five sessions of the tenant "acme", three of them open, and
    one open session of the tenant "globex". *)
Definition worldHistory : World :=
  {| db :=
       {| radCheck := []; radReply := []; radUserGroup := [];
          radGroupCheck := []; radGroupReply := [];
          radAcct :=
            [ sessionOf "acme_alice" "10.0.0.1" 100 (Some 150);
              sessionOf "acme_alice" "10.0.0.1" 300 None;
              sessionOf "globex_bob" "10.0.0.9" 250 None;
              sessionOf "acme_carol" "10.0.0.2" 200 None;
              sessionOf "acme_alice" "10.0.0.2" 400 None;
              sessionOf "acme_carol" "10.0.0.2" 50 (Some 60) ] |};
     faults := [];
     clock := 1000;
     ticks := [] |}.

(** A world with one open session of the subscriber "bob" of a tenant whose
    slug starts with a backslash. *)
Definition worldEscaped : World :=
  {| db :=
       {| radCheck := []; radReply := []; radUserGroup := [];
          radGroupCheck := []; radGroupReply := [];
          radAcct :=
            [ sessionOf (buildRadiusUsername (String backslash "isp") "bob")
                "10.0.0.1" 100 None ] |};
     faults := [];
     clock := 1000;
     ticks := [] |}.

(** The third page of the sessions of the tenant "acme", two to a page. *)
Definition thirdPageOfTwo : SessionHistoryParams :=
  {| sh_tenantSlug := "acme";
     sh_subscriberUsername := None;
     sh_nasIp := None;
     sh_startDate := None;
     sh_endDate := None;
     sh_onlyActive := None;
     sh_page := Some 3;
     sh_pageSize := Some 2 |}.

(** The sessions that [getSessionHistory] is asked for: those of the
    subscriber when one is given, and otherwise those whose username matches
    the pattern of the tenant; on the NAS, if one is given; started within
    the bounds that are given; still open, when only active sessions are
    asked for. *)
Definition inHistory (params : SessionHistoryParams) (r : RadAcct) : Prop :=
  match sh_subscriberUsername params with
  | Some subscriber =>
      if String.eqb subscriber EmptyString
      then Like (sh_tenantSlug params ++ "_%") (acct_username r)
      else acct_username r = sh_tenantSlug params ++ "_" ++ subscriber
  | None => Like (sh_tenantSlug params ++ "_%") (acct_username r)
  end
  /\ match sh_nasIp params with
     | Some ip => ip = EmptyString \/ nasipaddress r = ip
     | None => True
     end
  /\ match sh_startDate params with
     | Some bound =>
         exists started, acctstarttime r = Some started /\ bound <= started
     | None => True
     end
  /\ match sh_endDate params with
     | Some bound =>
         exists started, acctstarttime r = Some started /\ started <= bound
     | None => True
     end
  /\ (sh_onlyActive params = Some true -> acctstoptime r = None).

(** * One-time passwords ([otp.service.ts])

    [verifyOtp] and [cleanupExpired] of the [otpService] object.  The
    generated Prisma type of an OTP row is not part of the sources: the
    columns are the ones the two operations read and write.  [sendOtp] and
    [getStats] are not modelled: the first depends on the template and SMS
    services and on the defaults of the schema, the second on floating-point
    formatting. *)

Record Otp := {
  otp_id : string;
  otp_tenantId : string;
  otp_phone : string;
  otp_code : string;
  otp_purpose : string;
  otp_expiresAt : Z;
  otp_attempts : Z;
  otp_verified : bool;
  otp_createdAt : Z
}.

(** The world of the OTP operations: the table, the schedule of database
    faults, and the clock with its ticks, read as in [World]. *)
Record OtpWorld := {
  otp : list Otp;
  otpFaults : list (option Error);
  otpClock : Z;
  otpTicks : list Z
}.

Declare Scope task_scope.
Delimit Scope task_scope with task.
Notation "x <- m ;; k" := (taskBind m (fun x => k))
  (at level 61, m at next level, right associativity) : task_scope.
Notation "m ;; k" := (taskBind m (fun _ => k))
  (at level 61, right associativity) : task_scope.

(** One statement on the OTP table: rejected when the fault schedule says
    so, and otherwise run, which may itself reject. *)
Definition otpStatement {A : Type}
  (f : list Otp -> Outcome A * list Otp) : Task OtpWorld A :=
  fun w =>
    match otpFaults w with
    | Some e :: later =>
        (Rejected e,
         {| otp := otp w; otpFaults := later;
            otpClock := otpClock w; otpTicks := otpTicks w |})
    | None :: later =>
        (fst (f (otp w)),
         {| otp := snd (f (otp w)); otpFaults := later;
            otpClock := otpClock w; otpTicks := otpTicks w |})
    | [] =>
        (fst (f (otp w)),
         {| otp := snd (f (otp w)); otpFaults := [];
            otpClock := otpClock w; otpTicks := otpTicks w |})
    end.

(** [new Date()]: the current reading; the clock then advances by the next
    tick. *)
Definition otpNow : Task OtpWorld Z :=
  fun w =>
    (Fulfilled (otpClock w),
     match otpTicks w with
     | [] => w
     | t :: later =>
         {| otp := otp w; otpFaults := otpFaults w;
            otpClock := otpClock w + Z.max 0 t; otpTicks := later |}
     end).

(** The first row in descending order of creation time; rows created at the
    same time come in table order. *)
Fixpoint newest (l : list Otp) : option Otp :=
  match l with
  | [] => None
  | r :: rest =>
      match newest rest with
      | Some r' => if otp_createdAt r' >? otp_createdAt r then Some r' else Some r
      | None => Some r
      end
  end.

(** [otp.findFirst({ where, orderBy: { createdAt: "desc" } })]. *)
Definition otpFindFirst (where_ : Otp -> bool) : Task OtpWorld (option Otp) :=
  otpStatement (fun table => (Fulfilled (newest (filter where_ table)), table)).

(** [otp.update({ where: { id }, data })]: rejects with the code P2025 when
    there is no such row.  The service does not use the row returned. *)
Definition otpUpdate (id : string) (data : Otp -> Otp) : Task OtpWorld unit :=
  otpStatement (fun table =>
    if existsb (fun r => String.eqb (otp_id r) id) table
    then (Fulfilled tt,
          map (fun r => if String.eqb (otp_id r) id then data r else r) table)
    else (Rejected (PrismaError "P2025"), table)).

(** [otp.deleteMany({ where })], fulfilled with the number of rows deleted. *)
Definition otpDeleteMany (where_ : Otp -> bool) : Task OtpWorld nat :=
  otpStatement (fun table =>
    (Fulfilled (List.length (filter where_ table)),
     filter (fun r => negb (where_ r)) table)).

Definition withAttempts (attempts : Z) (r : Otp) : Otp :=
  {| otp_id := otp_id r; otp_tenantId := otp_tenantId r; otp_phone := otp_phone r;
     otp_code := otp_code r; otp_purpose := otp_purpose r;
     otp_expiresAt := otp_expiresAt r; otp_attempts := attempts;
     otp_verified := otp_verified r; otp_createdAt := otp_createdAt r |}.

Definition withVerified (verified : bool) (r : Otp) : Otp :=
  {| otp_id := otp_id r; otp_tenantId := otp_tenantId r; otp_phone := otp_phone r;
     otp_code := otp_code r; otp_purpose := otp_purpose r;
     otp_expiresAt := otp_expiresAt r; otp_attempts := otp_attempts r;
     otp_verified := verified; otp_createdAt := otp_createdAt r |}.

Record VerifyOtpParams := {
  vp_tenantId : string;
  vp_phone : string;
  vp_code : string;
  vp_purpose : string
}.

(** The [error] field of a response: a text of the service, or the message
    of the error that was caught. *)
Inductive ErrorText := Text (s : string) | MessageOf (e : Error).

Record VerifyOtpResponse := {
  success : bool;
  vr_error : option ErrorText
}.

Section otpService.

(** [parseInt(process.env.OTP_MAX_ATTEMPTS || "3", 10)]: an integer, or
    [None] for [NaN], when the variable is set to something that is no
    number. *)
Variable OTP_MAX_ATTEMPTS : option Z.

(** [attempts >= OTP_MAX_ATTEMPTS]; a comparison with [NaN] is false. *)
Definition attemptsExhausted (attempts : Z) : bool :=
  match OTP_MAX_ATTEMPTS with
  | Some limit => attempts >=? limit
  | None => false
  end.

(** [`${OTP_MAX_ATTEMPTS - attempts - 1}`]. *)
Definition attemptsRemaining (attempts : Z) : string :=
  match OTP_MAX_ATTEMPTS with
  | Some limit => Js.numberToString (limit - attempts - 1)
  | None => "NaN"
  end.

Definition verifyWhere (tenantId phone purpose : string) (r : Otp) : bool :=
  String.eqb (otp_tenantId r) tenantId
  && String.eqb (otp_phone r) phone
  && String.eqb (otp_purpose r) purpose
  && Bool.eqb (otp_verified r) false.

Definition verifyOtp (params : VerifyOtpParams) : Task OtpWorld VerifyOtpResponse :=
  let tenantId := vp_tenantId params in
  let phone := vp_phone params in
  let code := vp_code params in
  let purpose := vp_purpose params in
  taskTry
    (found <- otpFindFirst (verifyWhere tenantId phone purpose) ;;
     match found with
     | None =>
         taskRet {| success := false;
                    vr_error := Some (Text "No OTP found or OTP already verified") |}
     | Some otp =>
         now <- otpNow ;;
         if now >? otp_expiresAt otp then
           taskRet {| success := false;
                      vr_error :=
                        Some (Text "OTP has expired. Please request a new one") |}
         else if attemptsExhausted (otp_attempts otp) then
           taskRet {| success := false;
                      vr_error :=
                        Some (Text "Too many failed attempts. Please request a new OTP") |}
         else if negb (String.eqb (otp_code otp) code) then
           otpUpdate (otp_id otp) (withAttempts (otp_attempts otp + 1)) ;;
           taskRet {| success := false;
                      vr_error :=
                        Some (Text ("Invalid OTP. "
                                    ++ attemptsRemaining (otp_attempts otp)
                                    ++ " attempts remaining")) |}
         else
           otpUpdate (otp_id otp) (withVerified true) ;;
           taskRet {| success := true; vr_error := None |}
     end)%task
    (fun error => taskRet {| success := false; vr_error := Some (MessageOf error) |}).

Definition cleanupExpired : Task OtpWorld nat :=
  taskTry
    (now <- otpNow ;;
     count <- otpDeleteMany (fun r => otp_expiresAt r <? now) ;;
     taskRet count)%task
    (fun error => taskRet 0%nat).

End otpService.

(** ** Vocabulary of the one-time passwords *)

(** No database fault is pending. *)
Definition otpNoFaults (w : OtpWorld) : Prop :=
  Forall (fun fault => fault = None) (otpFaults w).

(** The OTPs of a tenant, phone and purpose that are not verified yet. *)
Definition pendingOtps (tenantId phone purpose : string) (w : OtpWorld) : list Otp :=
  filter (verifyWhere tenantId phone purpose) (otp w).

(** The codes in [guesses] are tried in turn; the responses come in the same
    order. *)
Fixpoint tryCodes (OTP_MAX_ATTEMPTS : option Z) (tenantId phone purpose : string)
  (guesses : list string) : Task OtpWorld (list VerifyOtpResponse) :=
  match guesses with
  | [] => taskRet []
  | code :: later =>
      (response <- verifyOtp OTP_MAX_ATTEMPTS
                     {| vp_tenantId := tenantId; vp_phone := phone;
                        vp_code := code; vp_purpose := purpose |} ;;
       responses <- tryCodes OTP_MAX_ATTEMPTS tenantId phone purpose later ;;
       taskRet (response :: responses))%task
  end.

(** An OTP for the login of a phone of the tenant "acme". *)
Definition otpOf (id code : string) (createdAt : Z) (attempts : Z) (verified : bool)
  : Otp :=
  {| otp_id := id; otp_tenantId := "acme"; otp_phone := "+15550100";
     otp_code := code; otp_purpose := "LOGIN";
     otp_expiresAt := createdAt + 300000; otp_attempts := attempts;
     otp_verified := verified; otp_createdAt := createdAt |}.

(** Two OTPs of the same phone, the older one verified, and one of another
    tenant; the clock is one minute after the newest. *)
Definition worldOtp : OtpWorld :=
  {| otp :=
       [ otpOf "otp1" "111111" 1000 0 true;
         otpOf "otp2" "424242" 500000 0 false;
         {| otp_id := "otp3"; otp_tenantId := "globex"; otp_phone := "+15550100";
            otp_code := "424242"; otp_purpose := "LOGIN";
            otp_expiresAt := 900000; otp_attempts := 0;
            otp_verified := false; otp_createdAt := 600000 |} ];
     otpFaults := [];
     otpClock := 560000;
     otpTicks := [1000; 1000] |}.

(** What [verifyOtp] does with a request, by the pending OTP it examines and
    the reading of the clock. *)
Inductive Verdict := NoneFound | Expired | Exhausted | WrongCode | Accepted.

Definition verdict (OTP_MAX_ATTEMPTS : option Z) (params : VerifyOtpParams)
  (w : OtpWorld) : Verdict :=
  match newest (pendingOtps (vp_tenantId params) (vp_phone params)
                  (vp_purpose params) w) with
  | None => NoneFound
  | Some o =>
      if otpClock w >? otp_expiresAt o then Expired
      else if attemptsExhausted OTP_MAX_ATTEMPTS (otp_attempts o) then Exhausted
      else if negb (String.eqb (otp_code o) (vp_code params)) then WrongCode
      else Accepted
  end.

(** The table after an update of the rows with the key of [o]. *)
Definition updated (o : Otp) (data : Otp -> Otp) (table : list Otp) : list Otp :=
  map (fun r => if String.eqb (otp_id r) (otp_id o) then data r else r) table.

(** The world after a statement that leaves [table]. *)
Definition afterStatement (table : list Otp) (w : OtpWorld) : OtpWorld :=
  {| otp := table; otpFaults := tl (otpFaults w);
     otpClock := otpClock w; otpTicks := otpTicks w |}.

(** The world after a reading of the clock. *)
Definition afterReading (w : OtpWorld) : OtpWorld :=
  match otpTicks w with
  | [] => w
  | t :: later =>
      {| otp := otp w; otpFaults := otpFaults w;
         otpClock := otpClock w + Z.max 0 t; otpTicks := later |}
  end.

(** * Properties *)

(** ** Strings *)

Lemma includes_append (c : ascii) (a b : string) :
  Js.includes c (a ++ b) = Js.includes c a || Js.includes c b.
Proof.
  induction a as [|x a IH]; simpl.
  - reflexivity.
  - rewrite IH. now rewrite orb_assoc.
Qed.

Lemma split_not_nil (sep : ascii) (s : string) : Js.split sep s <> [].
Proof.
  destruct s as [|c s]; simpl.
  - discriminate.
  - destruct (Ascii.eqb c sep); [discriminate|].
    destruct (Js.split sep s); discriminate.
Qed.

Lemma split_without_separator (sep : ascii) (s : string) :
  Js.includes sep s = false -> Js.split sep s = [s].
Proof.
  induction s as [|c s IH]; simpl; intros H.
  - reflexivity.
  - apply orb_false_elim in H as [Hc Hs].
    rewrite Hc, (IH Hs). reflexivity.
Qed.

Lemma split_at_first_separator (sep : ascii) (a b : string) :
  Js.includes sep a = false ->
  Js.split sep (a ++ String sep b) = a :: Js.split sep b.
Proof.
  induction a as [|c a IH]; simpl; intros H.
  - now rewrite Ascii.eqb_refl.
  - apply orb_false_elim in H as [Hc Ha].
    rewrite Hc, (IH Ha). reflexivity.
Qed.

Lemma join_split (sep : ascii) (s : string) :
  Js.join (String sep EmptyString) (Js.split sep s) = s.
Proof.
  unfold Js.join.
  induction s as [|c s IH]; simpl.
  - reflexivity.
  - destruct (Ascii.eqb_spec c sep) as [->|Hne].
    + pose proof (split_not_nil sep s) as Hnil.
      destruct (Js.split sep s) as [|p ps]; [contradiction|].
      simpl in *. now rewrite IH.
    + pose proof (split_not_nil sep s) as Hnil.
      destruct (Js.split sep s) as [|p ps]; [contradiction|].
      destruct ps as [|q qs]; simpl in *; now rewrite <- IH.
Qed.

(** Decimal numerals hold digits and at most a leading minus sign: no
    space. *)
Lemma uint_without_space (d : Decimal.uint) :
  Js.includes " " (NilEmpty.string_of_uint d) = false.
Proof. induction d; simpl; auto. Qed.

Lemma numberToString_without_space (n : Z) :
  Js.includes " " (Js.numberToString n) = false.
Proof.
  unfold Js.numberToString, NilZero.string_of_int, NilZero.string_of_uint.
  destruct (Z.to_int n) as [d|d]; destruct d; simpl;
    auto using uint_without_space.
Qed.

Lemma unitSymbol_without_space (u : SpeedUnit) :
  Js.includes " " (unitSymbol u) = false.
Proof. now destruct u. Qed.

Lemma truthyNumber_false (x : option Z) :
  Js.truthyNumber x = false <-> missingOrZero x.
Proof.
  unfold missingOrZero. destruct x as [n|]; simpl.
  - rewrite negb_false_iff, Z.eqb_eq. split.
    + intros ->. now right.
    + intros [H|H]; congruence.
  - split; auto.
Qed.

Lemma truthyNumber_true (x : option Z) (n : Z) :
  presentNonZero x n -> Js.truthyNumber x = true /\ Js.template x = Js.numberToString n.
Proof.
  intros [-> Hn]. simpl. split; [|reflexivity].
  now apply negb_true_iff, Z.eqb_neq.
Qed.

Lemma string_app_assoc (a b c : string) : (a ++ b) ++ c = a ++ (b ++ c).
Proof. induction a as [|x a IH]; simpl; [reflexivity | now rewrite IH]. Qed.

Ltac without_space :=
  repeat rewrite includes_append;
  repeat rewrite numberToString_without_space;
  repeat rewrite unitSymbol_without_space;
  reflexivity.

Lemma split_field (field rest : string) :
  Js.includes " " field = false ->
  Js.split " " (field ++ " " ++ rest) = field :: Js.split " " rest.
Proof. intros H. now apply (split_at_first_separator " " field rest). Qed.

Lemma five_fields (f1 f2 f3 f4 f5 : string) :
  Js.includes " " f1 = false -> Js.includes " " f2 = false ->
  Js.includes " " f3 = false -> Js.includes " " f4 = false ->
  Js.includes " " f5 = false ->
  rateLimitFields (f1 ++ " " ++ f2 ++ " " ++ f3 ++ " " ++ f4 ++ " " ++ f5)
  = [f1; f2; f3; f4; f5].
Proof.
  intros H1 H2 H3 H4 H5. unfold rateLimitFields.
  rewrite !split_field by assumption.
  now rewrite split_without_separator.
Qed.

(** ** Attribute encoder *)

Lemma buildMikroTikRateLimit_base (plan : Plan) :
  missingOrZero (burstDownloadSpeed plan) \/
  missingOrZero (burstUploadSpeed plan) \/
  missingOrZero (burstTime plan) ->
  buildMikroTikRateLimit plan = baseRateLimit plan.
Proof.
  intros H. unfold buildMikroTikRateLimit, baseRateLimit.
  rewrite <- !truthyNumber_false in H.
  destruct H as [H|[H|H]]; rewrite H; simpl;
    rewrite ?andb_false_r; reflexivity.
Qed.

Lemma buildMikroTikRateLimit_burst (plan : Plan) (bd bu bt : Z) :
  presentNonZero (burstDownloadSpeed plan) bd ->
  presentNonZero (burstUploadSpeed plan) bu ->
  presentNonZero (burstTime plan) bt ->
  rateLimitFields (buildMikroTikRateLimit plan) =
    [ baseRateLimit plan;
      Js.numberToString bd ++ unitSymbol (speedUnit plan) ++ "/"
        ++ Js.numberToString bu ++ unitSymbol (speedUnit plan);
      match burstThreshold plan with
      | Some t =>
          if t =? 0 then "0/0"
          else Js.numberToString t ++ "k/" ++ Js.numberToString t ++ "k"
      | None => "0/0"
      end;
      Js.numberToString bt ++ "s/" ++ Js.numberToString bt ++ "s";
      Js.numberToString (priority plan) ].
Proof.
  intros Hd Hu Ht.
  apply truthyNumber_true in Hd as [Hd Hd'], Hu as [Hu Hu'], Ht as [Ht Ht'].
  unfold buildMikroTikRateLimit, baseRateLimit.
  rewrite Hd, Hu, Ht, Hd', Hu', Ht'. cbn [andb].
  rewrite <- five_fields.
  - f_equal. destruct (burstThreshold plan) as [t|]; cbn [Js.truthyNumber].
    + destruct (t =? 0); cbn [negb Js.template];
        repeat (rewrite !string_app_assoc; cbn [append]); reflexivity.
    + repeat (rewrite !string_app_assoc; cbn [append]); reflexivity.
  - without_space.
  - without_space.
  - destruct (burstThreshold plan) as [t|]; [destruct (t =? 0)|]; without_space.
  - without_space.
  - without_space.
Qed.

(** C2: with a burst field missing or zero, [buildMikroTikRateLimit] returns
    exactly the base form ["{down}{unit}/{up}{unit}"], a single
    space-separated field, with unit ["M"] for MBPS plans and ["k"]
    otherwise; with burst download, burst upload and burst duration all
    present and non-zero it returns exactly five space-separated fields:
    rate, burst rate, threshold, burst time, priority.  A 50/30 MBPS plan
    without burst gives ["50M/30M"], and with burst 100/50, threshold 100,
    burst time 10 and priority 1 it gives
    ["50M/30M 100M/50M 100k/100k 10s/10s 1"]. *)
Theorem buildMikroTikRateLimit_forms :
  (forall plan,
      missingOrZero (burstDownloadSpeed plan) \/
      missingOrZero (burstUploadSpeed plan) \/
      missingOrZero (burstTime plan) ->
      buildMikroTikRateLimit plan = baseRateLimit plan
      /\ rateLimitFields (buildMikroTikRateLimit plan) = [baseRateLimit plan])
  /\ (forall plan,
      baseRateLimit plan =
        match speedUnit plan with
        | MBPS => Js.numberToString (downloadSpeed plan) ++ "M/"
                    ++ Js.numberToString (uploadSpeed plan) ++ "M"
        | _ => Js.numberToString (downloadSpeed plan) ++ "k/"
                 ++ Js.numberToString (uploadSpeed plan) ++ "k"
        end)
  /\ (forall plan bd bu bt,
      presentNonZero (burstDownloadSpeed plan) bd ->
      presentNonZero (burstUploadSpeed plan) bu ->
      presentNonZero (burstTime plan) bt ->
      rateLimitFields (buildMikroTikRateLimit plan) =
        [ baseRateLimit plan;
          Js.numberToString bd ++ unitSymbol (speedUnit plan) ++ "/"
            ++ Js.numberToString bu ++ unitSymbol (speedUnit plan);
          match burstThreshold plan with
          | Some t =>
              if t =? 0 then "0/0"
              else Js.numberToString t ++ "k/" ++ Js.numberToString t ++ "k"
          | None => "0/0"
          end;
          Js.numberToString bt ++ "s/" ++ Js.numberToString bt ++ "s";
          Js.numberToString (priority plan) ])
  /\ (forall plan,
      downloadSpeed plan = 50 -> uploadSpeed plan = 30 -> speedUnit plan = MBPS ->
      burstDownloadSpeed plan = None -> burstUploadSpeed plan = None ->
      burstTime plan = None ->
      buildMikroTikRateLimit plan = "50M/30M")
  /\ (forall plan,
      downloadSpeed plan = 50 -> uploadSpeed plan = 30 -> speedUnit plan = MBPS ->
      burstDownloadSpeed plan = Some 100 -> burstUploadSpeed plan = Some 50 ->
      burstThreshold plan = Some 100 -> burstTime plan = Some 10 ->
      priority plan = 1 ->
      buildMikroTikRateLimit plan = "50M/30M 100M/50M 100k/100k 10s/10s 1").
Proof.
  repeat split.
  - now apply buildMikroTikRateLimit_base.
  - rewrite buildMikroTikRateLimit_base by assumption.
    unfold rateLimitFields, baseRateLimit.
    apply split_without_separator. without_space.
  - intros plan. unfold baseRateLimit.
    destruct (speedUnit plan); cbn [unitSymbol];
      repeat (rewrite !string_app_assoc; cbn [append]); reflexivity.
  - intros plan bd bu bt. apply buildMikroTikRateLimit_burst.
  - intros plan Hd Hu Hs Hbd Hbu Hbt. unfold buildMikroTikRateLimit.
    rewrite Hd, Hu, Hs, Hbd. reflexivity.
  - intros plan Hd Hu Hs Hbd Hbu Hth Hbt Hp. unfold buildMikroTikRateLimit.
    rewrite Hd, Hu, Hs, Hbd, Hbu, Hth, Hbt, Hp. reflexivity.
Qed.

(** The two plans of the specification's examples. *)
Lemma buildMikroTikRateLimit_forms_witness :
  buildMikroTikRateLimit planBase = "50M/30M"
  /\ rateLimitFields (buildMikroTikRateLimit planBase) = ["50M/30M"]
  /\ rateLimitFields (buildMikroTikRateLimit planBurst)
     = ["50M/30M"; "100M/50M"; "100k/100k"; "10s/10s"; "1"]
  /\ buildMikroTikRateLimit planBurst = "50M/30M 100M/50M 100k/100k 10s/10s 1".
Proof.
  destruct buildMikroTikRateLimit_forms as (Hbase & _ & Hburst & Hex1 & Hex2).
  split; [|split; [|split]].
  - apply Hex1; reflexivity.
  - apply (Hbase planBase). left. left. reflexivity.
  - apply (Hburst planBurst 100 50 10); split; (reflexivity || discriminate).
  - apply Hex2; reflexivity.
Defined.

(** C3 (as stated, refuted): with the burst profile set and no threshold,
    the third field is not ["0k/0k"]. *)
Lemma burst_threshold_field_is_not_0k :
  presentNonZero (burstDownloadSpeed planBurstNoThreshold) 100
  /\ presentNonZero (burstUploadSpeed planBurstNoThreshold) 50
  /\ presentNonZero (burstTime planBurstNoThreshold) 10
  /\ missingOrZero (burstThreshold planBurstNoThreshold)
  /\ buildMikroTikRateLimit planBurstNoThreshold = "50M/30M 100M/50M 0/0 10s/10s 1"
  /\ nth_error (rateLimitFields (buildMikroTikRateLimit planBurstNoThreshold)) 2
     <> Some "0k/0k".
Proof.
  repeat split; try reflexivity; try discriminate.
  now left.
Qed.

(** C3 (amended): when burst download, burst upload and burst duration are
    all present and non-zero and the burst threshold is absent or zero, the
    third space-separated field of the rate-limit string is ["0/0"]: the
    zero carries no ["k"] suffix. *)
Theorem burst_threshold_field_absent (plan : Plan) (bd bu bt : Z) :
  presentNonZero (burstDownloadSpeed plan) bd ->
  presentNonZero (burstUploadSpeed plan) bu ->
  presentNonZero (burstTime plan) bt ->
  missingOrZero (burstThreshold plan) ->
  nth_error (rateLimitFields (buildMikroTikRateLimit plan)) 2 = Some "0/0".
Proof.
  intros Hd Hu Ht Hth.
  rewrite (buildMikroTikRateLimit_burst plan bd bu bt Hd Hu Ht).
  destruct Hth as [-> | ->]; reflexivity.
Qed.

(** A burst profile without threshold. *)
Lemma burst_threshold_field_absent_witness :
  nth_error (rateLimitFields (buildMikroTikRateLimit planBurstNoThreshold)) 2
  = Some "0/0".
Proof.
  apply (burst_threshold_field_absent planBurstNoThreshold 100 50 10).
  - split; [reflexivity | discriminate].
  - split; [reflexivity | discriminate].
  - split; [reflexivity | discriminate].
  - left; reflexivity.
Defined.

(** ** Namespace mapper *)

(** C4: when the tenant slug holds no underscore, extracting the subscriber
    username from the namespaced username gives back the local username,
    whatever underscores the local username holds. *)
Theorem extractSubscriberUsername_buildRadiusUsername (tenant localUsername : string) :
  Js.includes "_" tenant = false ->
  extractSubscriberUsername (buildRadiusUsername tenant localUsername)
  = localUsername.
Proof.
  intros Htenant.
  unfold extractSubscriberUsername, buildRadiusUsername.
  change (tenant ++ "_" ++ localUsername)
    with (tenant ++ String "_" localUsername).
  rewrite split_at_first_separator by assumption.
  cbn [Js.shift tl].
  apply (join_split "_" localUsername).
Qed.

(** A local username with two underscores. *)
Lemma extractSubscriberUsername_buildRadiusUsername_witness :
  Js.includes "_" "acme" = false
  /\ buildRadiusUsername "acme" "al_ice_2" = "acme_al_ice_2"
  /\ extractSubscriberUsername (buildRadiusUsername "acme" "al_ice_2") = "al_ice_2".
Proof.
  split; [reflexivity | split; [reflexivity |]].
  apply (extractSubscriberUsername_buildRadiusUsername "acme" "al_ice_2").
  reflexivity.
Defined.

(** ** Asynchronous computations *)

Lemma steady_ret {A : Type} (a : A) : steady (ret a).
Proof. intros w a' w' H. inversion H; subst. reflexivity. Qed.

Lemma steady_statement {A : Type} (f : Store -> A * Store) : steady (statement f).
Proof.
  intros w a w'. unfold statement, noFaults.
  destruct (faults w) as [|[e|] later]; cbn; intros H; inversion H; reflexivity.
Qed.

Lemma steady_bind {A B : Type} (m : Async A) (k : A -> Async B) :
  steady m -> (forall a, steady (k a)) -> steady (bind m k).
Proof.
  intros Hm Hk w b w'. unfold bind.
  destruct (m w) as [[a|e] w1] eqn:E; [|discriminate].
  intros H. rewrite (Hm _ _ _ E). now apply Hk.
Qed.

Lemma steady_transaction {A : Type} (body : Async A) :
  steady body -> steady (transaction body).
Proof.
  intros Hb w a w'. unfold transaction.
  destruct (body w) as [[a'|e] w1] eqn:E; [|discriminate].
  intros H. inversion H; subst. now rewrite (Hb _ _ _ E).
Qed.

Lemma steady_rethrow {A : Type} (m : Async A) :
  steady m -> steady (tryCatch m (fun error => throw error)).
Proof.
  intros Hm w a w'. unfold tryCatch, throw.
  destruct (m w) as [[a'|e] w1] eqn:E; [|discriminate].
  intros H. inversion H; subst. now rewrite (Hm _ _ _ E).
Qed.

Lemma steady_forOf {A : Type} (l : list A) (body : A -> Async unit) :
  (forall x, steady (body x)) -> steady (forOf l body).
Proof.
  intros Hb. induction l as [|x l IH]; cbn [forOf].
  - apply steady_ret.
  - apply steady_bind; [apply Hb | intros _; exact IH].
Qed.

Ltac steady_step :=
  first
    [ apply steady_ret
    | apply steady_statement
    | apply steady_rethrow
    | apply steady_transaction
    | apply steady_forOf; intros ?
    | apply steady_bind; [|intros ?]
    | match goal with
      | |- steady (match ?x with _ => _ end) => destruct x
      end ].

Ltac prove_steady :=
  unfold deleteMany, create, findFirst, updateMany; repeat steady_step.

(** A fulfilled steady computation leaves the store that the fault-free run
    leaves. *)
Lemma steady_store {A : Type} (m : Async A) (w w' : World) (a : A) :
  steady m -> m w = (Fulfilled a, w') ->
  fst (m (noFaults w)) = Fulfilled a /\ db w' = db (snd (m (noFaults w))).
Proof.
  intros Hm H. rewrite (Hm _ _ _ H). split; reflexivity.
Qed.

(** A rejected transaction leaves the store as it found it. *)
Lemma transaction_rolls_back {A : Type} (body : Async A) (w w' : World) (e : Error) :
  tryCatch (transaction body) (fun error => throw error) w = (Rejected e, w') ->
  db w' = db w.
Proof.
  unfold tryCatch, transaction, throw.
  destruct (body w) as [[a|e'] w1]; intros H; inversion H; reflexivity.
Qed.

Lemma noFaults_id (w : World) : faults w = [] -> noFaults w = w.
Proof. destruct w as [d fs c ts]. cbn. now intros ->. Qed.

(** ** The synchroniser's effect on the store *)

Lemma disableSubscriberRadius_steady (tenantSlug username : string) :
  steady (radiusService.disableSubscriberRadius tenantSlug username).
Proof. unfold radiusService.disableSubscriberRadius. prove_steady. Qed.

Lemma enableSubscriberRadius_steady (tenantSlug : string) (subscriber : Subscriber) :
  steady (radiusService.enableSubscriberRadius tenantSlug subscriber).
Proof. unfold radiusService.enableSubscriberRadius. prove_steady. Qed.

Lemma syncSubscriberAuth_steady (tenantSlug : string) (subscriber : Subscriber)
  (cleartextPassword : option string) :
  steady (radiusService.syncSubscriberAuth tenantSlug subscriber cleartextPassword).
Proof. unfold radiusService.syncSubscriberAuth. prove_steady. Qed.

Lemma syncPlanBandwidth_steady (tenantSlug : string) (plan : Plan) :
  steady (radiusService.syncPlanBandwidth tenantSlug plan).
Proof. unfold radiusService.syncPlanBandwidth. prove_steady. Qed.

Lemma disableSubscriberRadius_noFaults (tenantSlug username : string) (w : World) :
  radiusService.disableSubscriberRadius tenantSlug username (noFaults w)
  = (Fulfilled tt,
     {| db := afterDisable tenantSlug username (db w);
        faults := []; clock := clock w; ticks := ticks w |}).
Proof. reflexivity. Qed.

Ltac run_async :=
  unfold tryCatch, transaction, bind, throw, ret, deleteMany, create, findFirst,
    updateMany, statement, noFaults;
  cbn -[radiusService.formatRadiusExpiration filter find Js.toUpperCase
        Js.truthyString planToRadiusAttributes].

Lemma enableSubscriberRadius_noFaults (tenantSlug : string) (subscriber : Subscriber)
  (w : World) :
  radiusService.enableSubscriberRadius tenantSlug subscriber (noFaults w)
  = (Fulfilled tt,
     {| db := afterEnable tenantSlug subscriber (db w);
        faults := []; clock := clock w; ticks := ticks w |}).
Proof.
  unfold radiusService.enableSubscriberRadius, afterEnable, refreshedCheck,
    expirationRows, macRows, restoredMembership.
  destruct (expiryDate subscriber) as [date|],
           (macAddress subscriber) as [mac|],
           (planId subscriber) as [plan|];
    repeat match goal with
      | |- context [Js.truthyString ?x] => destruct (Js.truthyString x)
      end;
    run_async;
    repeat match goal with
      | |- context [find ?f ?l] => destruct (find f l)
      end;
    run_async; rewrite ?app_nil_r; reflexivity.
Qed.

Lemma syncSubscriberAuth_noFaults (tenantSlug : string) (subscriber : Subscriber)
  (cleartextPassword : option string) (w : World) :
  radiusService.syncSubscriberAuth tenantSlug subscriber cleartextPassword (noFaults w)
  = (Fulfilled tt,
     {| db := afterSyncAuth tenantSlug subscriber cleartextPassword (db w);
        faults := []; clock := clock w; ticks := ticks w |}).
Proof.
  unfold radiusService.syncSubscriberAuth, afterSyncAuth, refreshedCheck,
    expirationRows, macRows, passwordRows.
  destruct (expiryDate subscriber) as [date|],
           (macAddress subscriber) as [mac|],
           cleartextPassword as [password|];
    repeat match goal with
      | |- context [Js.truthyString ?x] => destruct (Js.truthyString x)
      end;
    run_async; rewrite ?app_nil_r; reflexivity.
Qed.

Lemma forOf_groupReply_noFaults (groupname : string) (attributes : list RadiusAttribute)
  (d : Store) (c : Z) (ts : list Z) :
  forOf attributes (fun attr =>
    create radGroupReplyT
      {| gr_groupname := groupname;
         gr_attribute := attr_attribute attr;
         gr_op := ":=";
         gr_value := attr_value attr;
         gr_priority := attr_priority attr |} ;;
    ret tt)
    {| db := d; faults := []; clock := c; ticks := ts |}
  = (Fulfilled tt,
     {| db := withRows radGroupReplyT
                (radGroupReply d ++ map (groupReplyRow groupname) attributes) d;
        faults := []; clock := c; ticks := ts |}).
Proof.
  revert d. induction attributes as [|attr rest IH]; intros d.
  - cbn. rewrite app_nil_r. now destruct d.
  - cbn [forOf]. unfold bind at 1. unfold bind at 1.
    unfold create at 1, statement at 1. cbn -[forOf].
    rewrite IH. cbn. now rewrite <- app_assoc.
Qed.

Lemma syncPlanBandwidth_noFaults (tenantSlug : string) (plan : Plan) (w : World) :
  radiusService.syncPlanBandwidth tenantSlug plan (noFaults w)
  = (Fulfilled tt,
     {| db := afterSyncPlanBandwidth tenantSlug plan (db w);
        faults := []; clock := clock w; ticks := ticks w |}).
Proof.
  unfold radiusService.syncPlanBandwidth, afterSyncPlanBandwidth.
  unfold tryCatch, transaction.
  unfold bind at 1, deleteMany at 1, statement at 1. cbn [faults noFaults fst snd].
  unfold bind at 1, deleteMany at 1, statement at 1. cbn [faults noFaults fst snd].
  unfold bind at 1. rewrite forOf_groupReply_noFaults.
  reflexivity.
Qed.

(** What a fulfilled operation leaves in the store. *)
Lemma disableSubscriberRadius_fulfilled (tenantSlug username : string) (w w' : World) :
  radiusService.disableSubscriberRadius tenantSlug username w = (Fulfilled tt, w') ->
  db w' = afterDisable tenantSlug username (db w).
Proof.
  intros H.
  apply (steady_store _ _ _ _ (disableSubscriberRadius_steady _ _)) in H as [_ ->].
  now rewrite disableSubscriberRadius_noFaults.
Qed.

Lemma enableSubscriberRadius_fulfilled (tenantSlug : string) (subscriber : Subscriber)
  (w w' : World) :
  radiusService.enableSubscriberRadius tenantSlug subscriber w = (Fulfilled tt, w') ->
  db w' = afterEnable tenantSlug subscriber (db w).
Proof.
  intros H.
  apply (steady_store _ _ _ _ (enableSubscriberRadius_steady _ _)) in H as [_ ->].
  now rewrite enableSubscriberRadius_noFaults.
Qed.

Lemma syncSubscriberAuth_fulfilled (tenantSlug : string) (subscriber : Subscriber)
  (cleartextPassword : option string) (w w' : World) :
  radiusService.syncSubscriberAuth tenantSlug subscriber cleartextPassword w
  = (Fulfilled tt, w') ->
  db w' = afterSyncAuth tenantSlug subscriber cleartextPassword (db w).
Proof.
  intros H.
  apply (steady_store _ _ _ _ (syncSubscriberAuth_steady _ _ _)) in H as [_ ->].
  now rewrite syncSubscriberAuth_noFaults.
Qed.

Lemma syncPlanBandwidth_fulfilled (tenantSlug : string) (plan : Plan) (w w' : World) :
  radiusService.syncPlanBandwidth tenantSlug plan w = (Fulfilled tt, w') ->
  db w' = afterSyncPlanBandwidth tenantSlug plan (db w).
Proof.
  intros H.
  apply (steady_store _ _ _ _ (syncPlanBandwidth_steady _ _)) in H as [_ ->].
  now rewrite syncPlanBandwidth_noFaults.
Qed.

(** ** Filters over tables *)

Lemma filter_notWhere_same {R : Type} (p : R -> bool) (l : list R) :
  filter p (filter (notWhere p) l) = [].
Proof.
  induction l as [|x l IH]; cbn; [reflexivity|].
  unfold notWhere at 1. destruct (p x) eqn:E; cbn; [exact IH|].
  now rewrite E.
Qed.

Lemma filter_implied {R : Type} (p q : R -> bool) (l : list R) :
  (forall x, p x = true -> q x = true) ->
  filter p (filter q l) = filter p l.
Proof.
  intros Hpq. induction l as [|x l IH]; cbn; [reflexivity|].
  destruct (q x) eqn:Eq; cbn.
  - now rewrite IH.
  - destruct (p x) eqn:Ep; [|exact IH].
    apply Hpq in Ep. congruence.
Qed.

Lemma filter_idempotent {R : Type} (p : R -> bool) (l : list R) :
  filter p (filter p l) = filter p l.
Proof. now apply filter_implied. Qed.

Lemma filter_swap {R : Type} (p q : R -> bool) (l : list R) :
  filter p (filter q l) = filter q (filter p l).
Proof.
  induction l as [|x l IH]; cbn; [reflexivity|].
  destruct (q x) eqn:Eq, (p x) eqn:Ep; cbn; rewrite ?Eq, ?Ep, IH; reflexivity.
Qed.

Lemma filter_none {R : Type} (p : R -> bool) (l : list R) :
  (forall x, In x l -> p x = false) -> filter p l = [].
Proof.
  induction l as [|x l IH]; cbn; intros H; [reflexivity|].
  rewrite (H x) by now left. apply IH. intros y Hy. apply H. now right.
Qed.

Lemma filter_all {R : Type} (p : R -> bool) (l : list R) :
  (forall x, In x l -> p x = true) -> filter p l = l.
Proof.
  induction l as [|x l IH]; cbn; intros H; [reflexivity|].
  rewrite (H x) by now left. f_equal. apply IH. intros y Hy. apply H. now right.
Qed.

Lemma checkWhere_other (username a b : string) (r : RadCheck) :
  a <> b ->
  radiusService.checkWhere username a r = true ->
  radiusService.checkWhere username b r = false.
Proof.
  unfold radiusService.checkWhere. intros Hab H.
  apply andb_true_iff in H as [_ Ha]. apply String.eqb_eq in Ha.
  apply andb_false_iff. right. apply String.eqb_neq. congruence.
Qed.

(** Rows written for one attribute are found by that attribute's [where]
    clause and by no other attribute's. *)
Lemma checkWhere_row (username attribute attribute' op value : string) :
  radiusService.checkWhere username attribute'
    {| rc_username := username; rc_attribute := attribute;
       rc_op := op; rc_value := value |}
  = String.eqb attribute attribute'.
Proof. unfold radiusService.checkWhere. cbn. now rewrite String.eqb_refl. Qed.

Lemma checkWhere_rowsOf (u a b : string) (l : list RadCheck) (r : RadCheck) :
  rowsOf u a l -> In r l -> radiusService.checkWhere u b r = String.eqb a b.
Proof.
  unfold rowsOf. rewrite Forall_forall. intros H Hr.
  destruct (H r Hr) as [Hu Ha].
  unfold radiusService.checkWhere. now rewrite Hu, Ha, String.eqb_refl.
Qed.

Lemma filter_rowsOf_same (u a : string) (l : list RadCheck) :
  rowsOf u a l -> filter (radiusService.checkWhere u a) l = l.
Proof.
  intros H. apply filter_all. intros r Hr.
  rewrite (checkWhere_rowsOf u a a l r H Hr). apply String.eqb_refl.
Qed.

Lemma filter_rowsOf_other (u a b : string) (l : list RadCheck) :
  rowsOf u a l -> a <> b -> filter (radiusService.checkWhere u b) l = [].
Proof.
  intros H Hab. apply filter_none. intros r Hr.
  rewrite (checkWhere_rowsOf u a b l r H Hr). now apply String.eqb_neq.
Qed.

Lemma strip_rowsOf_same (u a : string) (l : list RadCheck) :
  rowsOf u a l -> filter (notWhere (radiusService.checkWhere u a)) l = [].
Proof.
  intros H. apply filter_none. intros r Hr. unfold notWhere.
  rewrite (checkWhere_rowsOf u a a l r H Hr). now rewrite String.eqb_refl.
Qed.

Lemma strip_rowsOf_other (u a b : string) (l : list RadCheck) :
  rowsOf u a l -> a <> b -> filter (notWhere (radiusService.checkWhere u b)) l = l.
Proof.
  intros H Hab. apply filter_all. intros r Hr. unfold notWhere.
  rewrite (checkWhere_rowsOf u a b l r H Hr).
  apply negb_true_iff. now apply String.eqb_neq.
Qed.

Lemma expirationRows_rowsOf (u : string) (s : Subscriber) :
  rowsOf u "Expiration" (expirationRows u s).
Proof.
  unfold rowsOf, expirationRows. destruct (expiryDate s); repeat constructor.
Qed.

Lemma macRows_rowsOf (u : string) (s : Subscriber) :
  rowsOf u "Calling-Station-Id" (macRows u s).
Proof.
  unfold rowsOf, macRows.
  destruct (macAddress s); [destruct (Js.truthyString _)|]; repeat constructor.
Qed.

Lemma rejectRow_rowsOf (u : string) : rowsOf u "Auth-Type" [rejectRow u].
Proof. repeat constructor. Qed.

Create HintDb rows.
#[local] Hint Resolve expirationRows_rowsOf macRows_rowsOf rejectRow_rowsOf : rows.

Ltac other_attribute := first [assumption | discriminate | eauto with rows].

(** The refreshed check table: the rows that are neither the username's
    expiration nor its MAC binding, then the new expiration row, then the new
    MAC binding. *)
Lemma refreshedCheck_eq (u : string) (s : Subscriber) (checks : list RadCheck) :
  refreshedCheck u s checks
  = (filter (notWhere (radiusService.checkWhere u "Calling-Station-Id"))
       (filter (notWhere (radiusService.checkWhere u "Expiration")) checks)
     ++ expirationRows u s ++ macRows u s)%list.
Proof.
  unfold refreshedCheck. rewrite filter_app, <- app_assoc.
  now rewrite (strip_rowsOf_other u "Expiration" "Calling-Station-Id"
                 (expirationRows u s)) by other_attribute.
Qed.

Lemma refreshedCheck_expiration (u : string) (s : Subscriber) (checks : list RadCheck) :
  filter (radiusService.checkWhere u "Expiration") (refreshedCheck u s checks)
  = expirationRows u s.
Proof.
  rewrite refreshedCheck_eq, !filter_app.
  rewrite (filter_swap _ (notWhere (radiusService.checkWhere u "Calling-Station-Id"))).
  rewrite filter_notWhere_same. cbn [filter app].
  rewrite filter_rowsOf_same by other_attribute.
  rewrite (filter_rowsOf_other u "Calling-Station-Id" "Expiration")
    by other_attribute.
  apply app_nil_r.
Qed.

Lemma refreshedCheck_mac (u : string) (s : Subscriber) (checks : list RadCheck) :
  filter (radiusService.checkWhere u "Calling-Station-Id") (refreshedCheck u s checks)
  = macRows u s.
Proof.
  rewrite refreshedCheck_eq, !filter_app.
  rewrite filter_notWhere_same.
  rewrite (filter_rowsOf_other u "Expiration" "Calling-Station-Id")
    by other_attribute.
  now rewrite filter_rowsOf_same by other_attribute.
Qed.

(** Rows that are neither the username's expiration nor its MAC binding are
    kept, in their order. *)
Lemma refreshedCheck_frame (u : string) (s : Subscriber) (checks : list RadCheck)
  (p : RadCheck -> bool) :
  (forall r, p r = true ->
             radiusService.checkWhere u "Expiration" r = false
             /\ radiusService.checkWhere u "Calling-Station-Id" r = false) ->
  filter p (refreshedCheck u s checks) = filter p checks.
Proof.
  intros Hp. rewrite refreshedCheck_eq, !filter_app.
  rewrite !filter_implied.
  - rewrite (filter_none p (expirationRows u s)), (filter_none p (macRows u s)).
    + now rewrite !app_nil_r.
    + intros r Hr. destruct (p r) eqn:E; [|reflexivity].
      destruct (Hp r E) as [_ H].
      rewrite (checkWhere_rowsOf u "Calling-Station-Id" "Calling-Station-Id"
                 (macRows u s) r) in H by other_attribute.
      discriminate.
    + intros r Hr. destruct (p r) eqn:E; [|reflexivity].
      destruct (Hp r E) as [H _].
      rewrite (checkWhere_rowsOf u "Expiration" "Expiration"
                 (expirationRows u s) r) in H by other_attribute.
      discriminate.
  - intros r E. unfold notWhere. now rewrite (proj1 (Hp r E)).
  - intros r E. unfold notWhere. now rewrite (proj2 (Hp r E)).
Qed.

(** ** Disabling a subscriber *)

(** Without database faults the operations complete. *)
Lemma synchroniser_completes (tenantSlug : string) (subscriber : Subscriber)
  (cleartextPassword : option string) (plan : Plan) (w : World) :
  faults w = [] ->
  (exists w', radiusService.disableSubscriberRadius tenantSlug
                (sub_username subscriber) w = (Fulfilled tt, w'))
  /\ (exists w', radiusService.enableSubscriberRadius tenantSlug subscriber w
                 = (Fulfilled tt, w'))
  /\ (exists w', radiusService.syncSubscriberAuth tenantSlug subscriber
                   cleartextPassword w = (Fulfilled tt, w'))
  /\ (exists w', radiusService.syncPlanBandwidth tenantSlug plan w
                 = (Fulfilled tt, w')).
Proof.
  intros Hf. rewrite <- (noFaults_id w Hf).
  rewrite disableSubscriberRadius_noFaults, enableSubscriberRadius_noFaults,
    syncSubscriberAuth_noFaults, syncPlanBandwidth_noFaults.
  repeat split; eexists; reflexivity.
Qed.

(** C1: after [disableSubscriberRadius tenant username] has completed
    successfully, the check table holds an Auth-Type row with value "Reject"
    for the namespaced username (it is the username's only Auth-Type row),
    and the user-group table holds no row for that username, whatever the
    tables held before. *)
Theorem disableSubscriberRadius_rejects (tenantSlug username : string) (w w' : World) :
  radiusService.disableSubscriberRadius tenantSlug username w = (Fulfilled tt, w') ->
  In {| rc_username := buildRadiusUsername tenantSlug username;
        rc_attribute := "Auth-Type"; rc_op := ":="; rc_value := "Reject" |}
     (radCheck (db w'))
  /\ filter (fun r =>
               String.eqb (rc_username r) (buildRadiusUsername tenantSlug username)
               && String.eqb (rc_attribute r) "Auth-Type")
       (radCheck (db w'))
     = [ {| rc_username := buildRadiusUsername tenantSlug username;
            rc_attribute := "Auth-Type"; rc_op := ":="; rc_value := "Reject" |} ]
  /\ filter (fun r =>
               String.eqb (ug_username r) (buildRadiusUsername tenantSlug username))
       (radUserGroup (db w'))
     = []
  /\ (forall r, In r (radUserGroup (db w')) ->
                ug_username r <> buildRadiusUsername tenantSlug username).
Proof.
  intros H. rewrite (disableSubscriberRadius_fulfilled _ _ _ _ H).
  unfold afterDisable. cbn [radCheck radUserGroup].
  assert (Hnone : filter (fun r =>
                            String.eqb (ug_username r)
                              (buildRadiusUsername tenantSlug username))
                    (filter (notWhere (radiusService.userGroupWhere
                                         (buildRadiusUsername tenantSlug username)))
                       (radUserGroup (db w)))
                  = []).
  { exact (filter_notWhere_same
             (radiusService.userGroupWhere (buildRadiusUsername tenantSlug username))
             (radUserGroup (db w))). }
  split; [|split; [|split; [exact Hnone|]]].
  - apply in_or_app. right. now left.
  - change (filter (radiusService.checkWhere (buildRadiusUsername tenantSlug username)
                      "Auth-Type")
              (filter (notWhere (radiusService.checkWhere
                                   (buildRadiusUsername tenantSlug username) "Auth-Type"))
                 (radCheck (db w))
               ++ [rejectRow (buildRadiusUsername tenantSlug username)])
            = [rejectRow (buildRadiusUsername tenantSlug username)]).
    rewrite filter_app, filter_notWhere_same.
    now rewrite filter_rowsOf_same by other_attribute.
  - intros r Hr Hu.
    assert (Hin : In r (filter (fun r =>
                                  String.eqb (ug_username r)
                                    (buildRadiusUsername tenantSlug username))
                          (filter (notWhere (radiusService.userGroupWhere
                                               (buildRadiusUsername tenantSlug username)))
                             (radUserGroup (db w))))).
    { apply filter_In. split; [exact Hr | now apply String.eqb_eq]. }
    rewrite Hnone in Hin. exact Hin.
Qed.

(** Alice, who has a stale Auth-Type row and a membership, is disabled. *)
Lemma disableSubscriberRadius_rejects_witness :
  exists w',
    radiusService.disableSubscriberRadius "acme" "alice" worldA = (Fulfilled tt, w')
    /\ In {| rc_username := "acme_alice"; rc_attribute := "Auth-Type";
             rc_op := ":="; rc_value := "Reject" |} (radCheck (db w'))
    /\ filter (fun r =>
                 String.eqb (rc_username r) "acme_alice"
                 && String.eqb (rc_attribute r) "Auth-Type")
         (radCheck (db w'))
       = [ {| rc_username := "acme_alice"; rc_attribute := "Auth-Type";
              rc_op := ":="; rc_value := "Reject" |} ]
    /\ filter (fun r => String.eqb (ug_username r) "acme_alice")
         (radUserGroup (db w'))
       = []
    /\ (forall r, In r (radUserGroup (db w')) -> ug_username r <> "acme_alice")
    /\ In {| ug_username := "acme_alice"; ug_groupname := "acme_silver";
             ug_priority := 1 |} (radUserGroup (db worldA)).
Proof.
  eexists. split; [reflexivity|].
  destruct (disableSubscriberRadius_rejects "acme" "alice" worldA _ eq_refl)
    as (Hrow & Hchecks & Hnone & Hall).
  split; [exact Hrow|]. split; [exact Hchecks|]. split; [exact Hnone|].
  split; [exact Hall|]. now left.
Defined.

(** ** Synchronising credentials *)

(** C10: [syncSubscriberAuth] without a cleartext password leaves the
    Cleartext-Password rows of the namespaced username as they were, and
    replaces its Expiration and Calling-Station-Id rows: after the call the
    username has exactly the expiration row of the subscriber's expiry date,
    or none when the date is absent, and exactly the MAC row of the
    subscriber's address, or none when the address is absent; every other
    check row and every other table is untouched. *)
Theorem syncSubscriberAuth_without_password (tenantSlug : string)
  (subscriber : Subscriber) (w w' : World) :
  radiusService.syncSubscriberAuth tenantSlug subscriber None w = (Fulfilled tt, w') ->
  let radiusUsername := buildRadiusUsername tenantSlug (sub_username subscriber) in
  filter (radiusService.checkWhere radiusUsername "Cleartext-Password")
    (radCheck (db w'))
  = filter (radiusService.checkWhere radiusUsername "Cleartext-Password")
      (radCheck (db w))
  /\ filter (radiusService.checkWhere radiusUsername "Expiration") (radCheck (db w'))
     = match expiryDate subscriber with
       | Some date =>
           [ {| rc_username := radiusUsername; rc_attribute := "Expiration";
                rc_op := ":=";
                rc_value := radiusService.formatRadiusExpiration date |} ]
       | None => []
       end
  /\ filter (radiusService.checkWhere radiusUsername "Calling-Station-Id")
       (radCheck (db w'))
     = match macAddress subscriber with
       | Some mac =>
           if String.eqb mac EmptyString then []
           else [ {| rc_username := radiusUsername;
                     rc_attribute := "Calling-Station-Id";
                     rc_op := ":=";
                     rc_value := Js.toUpperCase mac |} ]
       | None => []
       end
  /\ filter (fun r =>
               negb (radiusService.checkWhere radiusUsername "Expiration" r)
               && negb (radiusService.checkWhere radiusUsername
                          "Calling-Station-Id" r))
       (radCheck (db w'))
     = filter (fun r =>
                 negb (radiusService.checkWhere radiusUsername "Expiration" r)
                 && negb (radiusService.checkWhere radiusUsername
                            "Calling-Station-Id" r))
         (radCheck (db w))
  /\ radReply (db w') = radReply (db w)
  /\ radUserGroup (db w') = radUserGroup (db w)
  /\ radGroupCheck (db w') = radGroupCheck (db w)
  /\ radGroupReply (db w') = radGroupReply (db w)
  /\ radAcct (db w') = radAcct (db w).
Proof.
  intros H radiusUsername.
  rewrite (syncSubscriberAuth_fulfilled _ _ _ _ _ H).
  unfold afterSyncAuth. fold radiusUsername.
  cbn [radCheck radReply radUserGroup radGroupCheck radGroupReply radAcct].
  repeat split.
  - apply refreshedCheck_frame. intros r Hr.
    split; apply (checkWhere_other _ "Cleartext-Password"); (discriminate || assumption).
  - rewrite refreshedCheck_expiration. reflexivity.
  - rewrite refreshedCheck_mac. unfold macRows.
    destruct (macAddress subscriber) as [mac|]; [|reflexivity].
    cbn [Js.truthyString]. now destruct (String.eqb mac EmptyString).
  - apply refreshedCheck_frame. intros r Hr.
    apply andb_true_iff in Hr as [H1 H2].
    now apply negb_true_iff in H1, H2.
Qed.

(** Alice, without expiry date and MAC address: the password row stays, the
    expiration and MAC rows go. *)
Lemma syncSubscriberAuth_without_password_witness :
  exists w',
    radiusService.syncSubscriberAuth "acme" aliceUnbound None worldA
    = (Fulfilled tt, w')
    /\ filter (radiusService.checkWhere "acme_alice" "Cleartext-Password")
         (radCheck (db w'))
       = [ {| rc_username := "acme_alice"; rc_attribute := "Cleartext-Password";
              rc_op := ":="; rc_value := "s3cret" |} ]
    /\ filter (radiusService.checkWhere "acme_alice" "Expiration") (radCheck (db w'))
       = []
    /\ filter (radiusService.checkWhere "acme_alice" "Calling-Station-Id")
         (radCheck (db w'))
       = [].
Proof.
  eexists. split.
  - reflexivity.
  - pose proof (syncSubscriberAuth_without_password "acme" aliceUnbound worldA _
                  eq_refl) as (Hpw & Hexp & Hmac & _).
    split; [exact Hpw | split; [exact Hexp | exact Hmac]].
Defined.

(** ** Synchronising a plan's bandwidth *)

Lemma groupReplyRows_found (groupname : string) (attributes : list RadiusAttribute) :
  filter (fun r => String.eqb (gr_groupname r) groupname)
    (map (groupReplyRow groupname) attributes)
  = map (groupReplyRow groupname) attributes.
Proof.
  apply filter_all. intros r Hr. apply in_map_iff in Hr as (attr & <- & _).
  cbn. apply String.eqb_refl.
Qed.

Lemma groupReplyRows_stripped (groupname : string) (attributes : list RadiusAttribute) :
  filter (notWhere (fun r => String.eqb (gr_groupname r) groupname))
    (map (groupReplyRow groupname) attributes)
  = [].
Proof.
  apply filter_none. intros r Hr. apply in_map_iff in Hr as (attr & <- & _).
  unfold notWhere. cbn. now rewrite String.eqb_refl.
Qed.

(** C5: running [syncPlanBandwidth] twice in succession on an unchanged plan
    leaves the group-check table with exactly one row for the plan's group
    name, the Simultaneous-Use row whose value is the plan's device limit or
    1 when the limit is unset ([null], or 0 under [||]), and leaves the
    group-reply table exactly as the first run left it: for the group, the
    rows of [planToRadiusAttributes], once. *)
Theorem syncPlanBandwidth_twice (tenantSlug : string) (plan : Plan) (w w1 w2 : World) :
  radiusService.syncPlanBandwidth tenantSlug plan w = (Fulfilled tt, w1) ->
  radiusService.syncPlanBandwidth tenantSlug plan w1 = (Fulfilled tt, w2) ->
  let groupname := buildRadiusGroupname tenantSlug (plan_id plan) in
  filter (fun r => String.eqb (gc_groupname r) groupname) (radGroupCheck (db w2))
  = [ {| gc_groupname := groupname;
         gc_attribute := "Simultaneous-Use";
         gc_op := ":=";
         gc_value :=
           Js.numberToString
             match simultaneousDevices plan with
             | Some limit => if limit =? 0 then 1 else limit
             | None => 1
             end |} ]
  /\ radGroupCheck (db w2) = radGroupCheck (db w1)
  /\ radGroupReply (db w2) = radGroupReply (db w1)
  /\ filter (fun r => String.eqb (gr_groupname r) groupname) (radGroupReply (db w2))
     = map (fun attr =>
              {| gr_groupname := groupname;
                 gr_attribute := attr_attribute attr;
                 gr_op := ":=";
                 gr_value := attr_value attr;
                 gr_priority := attr_priority attr |})
         (planToRadiusAttributes plan).
Proof.
  intros H1 H2 groupname.
  rewrite (syncPlanBandwidth_fulfilled _ _ _ _ H2).
  rewrite (syncPlanBandwidth_fulfilled _ _ _ _ H1).
  unfold afterSyncPlanBandwidth. fold groupname.
  cbn [radGroupCheck radGroupReply].
  assert (Hrow : filter (notWhere (fun r => String.eqb (gc_groupname r) groupname))
                   [simultaneousUseRow groupname plan] = []).
  { cbn. unfold notWhere. cbn. now rewrite String.eqb_refl. }
  repeat split.
  - rewrite !filter_app, Hrow, app_nil_r, filter_notWhere_same.
    cbn. now rewrite String.eqb_refl.
  - now rewrite !filter_app, Hrow, app_nil_r, filter_idempotent.
  - now rewrite !filter_app, groupReplyRows_stripped, app_nil_r, filter_idempotent.
  - rewrite !filter_app, groupReplyRows_stripped, app_nil_r, filter_idempotent.
    rewrite filter_notWhere_same. apply groupReplyRows_found.
Qed.

(** The plan "gold" synchronised twice over a store that holds an older
    rate limit for its group. *)
Lemma syncPlanBandwidth_twice_witness :
  exists w1 w2,
    radiusService.syncPlanBandwidth "acme" planGold worldA = (Fulfilled tt, w1)
    /\ radiusService.syncPlanBandwidth "acme" planGold w1 = (Fulfilled tt, w2)
    /\ filter (fun r => String.eqb (gc_groupname r) "acme_gold")
         (radGroupCheck (db w2))
       = [ {| gc_groupname := "acme_gold"; gc_attribute := "Simultaneous-Use";
              gc_op := ":="; gc_value := "3" |} ]
    /\ radGroupReply (db w2) = radGroupReply (db w1)
    /\ radGroupReply (db w2)
       = [ {| gr_groupname := "acme_gold"; gr_attribute := "Mikrotik-Rate-Limit";
              gr_op := ":="; gr_value := "50M/30M 100M/50M 100k/100k 10s/10s 1";
              gr_priority := 1 |};
           {| gr_groupname := "acme_gold"; gr_attribute := "Framed-Pool";
              gr_op := ":="; gr_value := "pool-gold"; gr_priority := 2 |};
           {| gr_groupname := "acme_gold"; gr_attribute := "Session-Timeout";
              gr_op := ":="; gr_value := "43200"; gr_priority := 3 |} ].
Proof.
  assert (H1 : radiusService.syncPlanBandwidth "acme" planGold worldA
               = (Fulfilled tt,
                  snd (radiusService.syncPlanBandwidth "acme" planGold worldA)))
    by (vm_compute; reflexivity).
  assert (H2 : radiusService.syncPlanBandwidth "acme" planGold
                 (snd (radiusService.syncPlanBandwidth "acme" planGold worldA))
               = (Fulfilled tt,
                  snd (radiusService.syncPlanBandwidth "acme" planGold
                         (snd (radiusService.syncPlanBandwidth "acme" planGold
                                 worldA)))))
    by (vm_compute; reflexivity).
  eexists. eexists. split; [exact H1 | split; [exact H2 |]].
  pose proof (syncPlanBandwidth_twice "acme" planGold worldA _ _ H1 H2)
    as (Hcheck & _ & Hreply & _).
  split; [|split; [exact Hreply | vm_compute; reflexivity]].
  etransitivity; [exact Hcheck | vm_compute; reflexivity].
Defined.

(** ** Toggling a subscriber *)

Lemma sameRows_filter {R : Type} (p : R -> bool) (a b : list R) :
  sameRows a b -> sameRows (filter p a) (filter p b).
Proof.
  unfold sameRows. intros H.
  induction H as [|x a b _ IH|x y a|a b c _ IHab _ IHbc]; cbn.
  - constructor.
  - destruct (p x); [now constructor | exact IH].
  - destruct (p x), (p y); try apply Permutation_refl.
    apply perm_swap.
  - now apply Permutation_trans with (filter p b).
Qed.

Lemma sameRows_split {R : Type} (p : R -> bool) (l : list R) :
  sameRows (filter (notWhere p) l ++ filter p l) l.
Proof.
  unfold sameRows, notWhere. induction l as [|x l IH]; cbn.
  - constructor.
  - destruct (p x); cbn.
    + apply Permutation_sym, Permutation_cons_app, Permutation_sym, IH.
    + now constructor.
Qed.

Lemma find_none_filter {R : Type} (p : R -> bool) (l : list R) :
  filter p l = [] -> find p l = None /\ filter (notWhere p) l = l.
Proof.
  unfold notWhere. induction l as [|x l IH]; cbn; [now split|].
  destruct (p x); [discriminate|]. intros H.
  destruct (IH H) as [Hfind Hkeep]. cbn. now rewrite Hkeep.
Qed.

Lemma find_some_filter {R : Type} (p : R -> bool) (l : list R) :
  filter p l <> [] -> exists r, find p l = Some r.
Proof.
  induction l as [|x l IH]; cbn; [congruence|].
  destruct (p x); [now exists x | exact IH].
Qed.

Lemma restoredMembership_none (t u : string) (s : Subscriber) (l : list RadUserGroup) :
  filter (radiusService.userGroupWhere u) l = [] ->
  restoredMembership t u s l = planRows t u s.
Proof.
  intros H. unfold restoredMembership, planRows.
  now rewrite (proj1 (find_none_filter _ _ H)).
Qed.

Lemma restoredMembership_some (t u : string) (s : Subscriber) (l : list RadUserGroup) :
  filter (radiusService.userGroupWhere u) l <> [] ->
  restoredMembership t u s l = [].
Proof.
  intros H. unfold restoredMembership.
  destruct (find_some_filter _ _ H) as [r ->].
  destruct (planId s); [destruct (Js.truthyString _)|]; reflexivity.
Qed.

Lemma planRows_found (t u : string) (s : Subscriber) :
  filter (radiusService.userGroupWhere u) (planRows t u s) = planRows t u s
  /\ filter (notWhere (radiusService.userGroupWhere u)) (planRows t u s) = [].
Proof.
  unfold planRows, notWhere, radiusService.userGroupWhere.
  destruct (planId s); [destruct (Js.truthyString _)|]; cbn;
    rewrite ?String.eqb_refl; now split.
Qed.

Lemma restoredMembership_stripped (t u : string) (s : Subscriber)
  (l : list RadUserGroup) :
  filter (notWhere (radiusService.userGroupWhere u)) (restoredMembership t u s l) = [].
Proof.
  destruct (filter (radiusService.userGroupWhere u) l) eqn:E.
  - rewrite restoredMembership_none by assumption. apply planRows_found.
  - rewrite restoredMembership_some; [reflexivity | congruence].
Qed.

Lemma refreshedCheck_idempotent (u : string) (s : Subscriber) (checks : list RadCheck) :
  refreshedCheck u s (refreshedCheck u s checks) = refreshedCheck u s checks.
Proof.
  rewrite (refreshedCheck_eq u s (refreshedCheck u s checks)).
  rewrite (refreshedCheck_eq u s checks).
  set (expiration := notWhere (radiusService.checkWhere u "Expiration")).
  set (mac := notWhere (radiusService.checkWhere u "Calling-Station-Id")).
  assert (He : filter expiration (expirationRows u s) = [])
    by (apply (strip_rowsOf_same u "Expiration"); other_attribute).
  assert (Hm : filter mac (macRows u s) = [])
    by (apply (strip_rowsOf_same u "Calling-Station-Id"); other_attribute).
  assert (Hem : filter expiration (macRows u s) = macRows u s)
    by (apply (strip_rowsOf_other u "Calling-Station-Id" "Expiration");
        other_attribute).
  rewrite !filter_app, He, Hem, Hm. cbn [filter app]. rewrite !app_nil_r.
  now rewrite (filter_swap expiration mac), !filter_idempotent.
Qed.

Lemma refreshedCheck_toggle (u : string) (s : Subscriber) (checks : list RadCheck) :
  let authType := notWhere (radiusService.checkWhere u "Auth-Type") in
  refreshedCheck u s
    (filter authType
       (filter authType (refreshedCheck u s (filter authType checks))
        ++ [rejectRow u]))
  = refreshedCheck u s (filter authType checks).
Proof.
  intros authType.
  assert (Hkeep : filter authType (refreshedCheck u s (filter authType checks))
                  = refreshedCheck u s (filter authType checks)).
  { rewrite refreshedCheck_eq, !filter_app.
    rewrite (filter_swap authType), (filter_swap authType), filter_idempotent.
    unfold authType.
    rewrite (strip_rowsOf_other u "Expiration" "Auth-Type" (expirationRows u s))
      by other_attribute.
    now rewrite (strip_rowsOf_other u "Calling-Station-Id" "Auth-Type" (macRows u s))
      by other_attribute. }
  assert (Hreject : filter authType [rejectRow u] = [])
    by (apply (strip_rowsOf_same u "Auth-Type"); other_attribute).
  rewrite filter_app, filter_idempotent, Hkeep, Hreject, app_nil_r.
  apply refreshedCheck_idempotent.
Qed.

Lemma toggled_membership (t u : string) (s : Subscriber) (memberships : list RadUserGroup) :
  let stripped :=
    filter (notWhere (radiusService.userGroupWhere u))
      (memberships ++ restoredMembership t u s memberships) in
  (stripped ++ restoredMembership t u s stripped
   = filter (notWhere (radiusService.userGroupWhere u)) memberships
     ++ planRows t u s)%list.
Proof.
  intros stripped.
  assert (Hs : stripped = filter (notWhere (radiusService.userGroupWhere u)) memberships).
  { unfold stripped.
    now rewrite filter_app, restoredMembership_stripped, app_nil_r. }
  rewrite restoredMembership_none.
  - now rewrite Hs.
  - rewrite Hs. apply filter_notWhere_same.
Qed.

Lemma truthyString_some (x : string) :
  Js.truthyString (Some x) = true <-> x <> EmptyString.
Proof.
  cbn. rewrite negb_true_iff. apply String.eqb_neq.
Qed.

Lemma toggled_membership_same (t u : string) (s : Subscriber)
  (memberships : list RadUserGroup) :
  sameRows
    (filter (notWhere (radiusService.userGroupWhere u)) memberships ++ planRows t u s)
    (memberships ++ restoredMembership t u s memberships)
  <-> (filter (radiusService.userGroupWhere u) memberships = []
       \/ exists plan,
            planId s = Some plan /\ plan <> EmptyString
            /\ filter (radiusService.userGroupWhere u) memberships
               = [planMembership t u plan]).
Proof.
  split.
  - intros H. apply (sameRows_filter (radiusService.userGroupWhere u)) in H.
    rewrite !filter_app, filter_notWhere_same in H.
    rewrite (proj1 (planRows_found t u s)) in H. cbn [app] in H.
    destruct (filter (radiusService.userGroupWhere u) memberships)
      as [|x found] eqn:E; [now left | right].
    rewrite restoredMembership_some in H by congruence.
    cbn [filter] in H. rewrite app_nil_r in H. unfold sameRows, planRows in H.
    destruct (planId s) as [plan|] eqn:Eplan;
      [destruct (Js.truthyString (Some plan)) eqn:Etruthy|].
    + exists plan. apply Permutation_length_1_inv in H.
      repeat split; [now apply truthyString_some | exact H].
    + now apply Permutation_nil_cons in H.
    + now apply Permutation_nil_cons in H.
  - intros [Hnone | (plan & Hplan & Hne & Hone)].
    + rewrite restoredMembership_none by assumption.
      rewrite (proj2 (find_none_filter _ _ Hnone)). apply Permutation_refl.
    + rewrite restoredMembership_some by (rewrite Hone; discriminate).
      rewrite app_nil_r. unfold planRows. rewrite Hplan.
      rewrite (proj2 (truthyString_some plan) Hne), <- Hone.
      apply sameRows_split.
Qed.

(** C6 (amended): enable, then disable, then enable, each completing, leaves
    the check and reply tables exactly as the first enable left them, and
    leaves the user-group table with the same rows as the first enable
    exactly when, at the start, the username has no membership row or has as
    its only membership row the one that enable creates for the subscriber's
    plan (the plan's group at priority 1). *)
Theorem enable_disable_enable (tenantSlug : string) (subscriber : Subscriber)
  (w w1 w2 w3 : World) :
  radiusService.enableSubscriberRadius tenantSlug subscriber w = (Fulfilled tt, w1) ->
  radiusService.disableSubscriberRadius tenantSlug (sub_username subscriber) w1
  = (Fulfilled tt, w2) ->
  radiusService.enableSubscriberRadius tenantSlug subscriber w2 = (Fulfilled tt, w3) ->
  radCheck (db w3) = radCheck (db w1)
  /\ radReply (db w3) = radReply (db w1)
  /\ (sameRows (radUserGroup (db w3)) (radUserGroup (db w1))
      <-> membershipSettled tenantSlug subscriber (db w))
  /\ (sameTables (db w3) (db w1)
      <-> membershipSettled tenantSlug subscriber (db w)).
Proof.
  intros H1 H2 H3.
  rewrite (enableSubscriberRadius_fulfilled _ _ _ _ H3).
  rewrite (disableSubscriberRadius_fulfilled _ _ _ _ H2).
  rewrite (enableSubscriberRadius_fulfilled _ _ _ _ H1).
  set (u := buildRadiusUsername tenantSlug (sub_username subscriber)).
  assert (Hcheck : radCheck (afterEnable tenantSlug subscriber
                     (afterDisable tenantSlug (sub_username subscriber)
                        (afterEnable tenantSlug subscriber (db w))))
                   = radCheck (afterEnable tenantSlug subscriber (db w))).
  { unfold afterEnable, afterDisable. cbn [radCheck]. apply refreshedCheck_toggle. }
  assert (Hgroup : sameRows
                     (radUserGroup (afterEnable tenantSlug subscriber
                        (afterDisable tenantSlug (sub_username subscriber)
                           (afterEnable tenantSlug subscriber (db w)))))
                     (radUserGroup (afterEnable tenantSlug subscriber (db w)))
                   <-> membershipSettled tenantSlug subscriber (db w)).
  { unfold afterEnable, afterDisable. cbn [radUserGroup]. fold u.
    rewrite toggled_membership. apply toggled_membership_same. }
  split; [exact Hcheck | split; [reflexivity | split; [exact Hgroup |]]].
  unfold sameTables. rewrite Hcheck. split.
  - intros (_ & _ & H). now apply Hgroup.
  - intros H. repeat split; try apply Permutation_refl. now apply Hgroup.
Qed.

(** Alice, without membership at the start, toggled. *)
Lemma enable_disable_enable_witness :
  exists w1 w2 w3,
    radiusService.enableSubscriberRadius "acme" alice worldFresh = (Fulfilled tt, w1)
    /\ radiusService.disableSubscriberRadius "acme" "alice" w1 = (Fulfilled tt, w2)
    /\ radiusService.enableSubscriberRadius "acme" alice w2 = (Fulfilled tt, w3)
    /\ membershipSettled "acme" alice (db worldFresh)
    /\ sameTables (db w3) (db w1).
Proof.
  eexists. eexists. eexists.
  split; [vm_compute; reflexivity|].
  split; [vm_compute; reflexivity|].
  split; [vm_compute; reflexivity|].
  assert (Hsettled : membershipSettled "acme" alice (db worldFresh))
    by (left; reflexivity).
  split; [exact Hsettled|].
  refine (proj2 (proj2 (proj2 (proj2
    (enable_disable_enable "acme" alice worldFresh _ _ _ _ _ _)))) Hsettled);
    vm_compute; reflexivity.
Defined.

(** C6 (as stated, refuted): alice is assigned the plan "gold" while her
    membership row still names the group of the plan "silver".  A single
    enable keeps the silver membership; enable, disable, enable ends with
    the gold membership. *)
Lemma enable_disable_enable_diverges :
  exists w1 w2 w3,
    radiusService.enableSubscriberRadius "acme" alice worldA = (Fulfilled tt, w1)
    /\ radiusService.disableSubscriberRadius "acme" "alice" w1 = (Fulfilled tt, w2)
    /\ radiusService.enableSubscriberRadius "acme" alice w2 = (Fulfilled tt, w3)
    /\ filter (radiusService.userGroupWhere "acme_alice") (radUserGroup (db w1))
       = [ {| ug_username := "acme_alice"; ug_groupname := "acme_silver";
              ug_priority := 1 |} ]
    /\ filter (radiusService.userGroupWhere "acme_alice") (radUserGroup (db w3))
       = [ {| ug_username := "acme_alice"; ug_groupname := "acme_gold";
              ug_priority := 1 |} ]
    /\ radUserGroup (db w3) <> radUserGroup (db w1)
    /\ ~ sameTables (db w3) (db w1).
Proof.
  eexists. eexists. eexists.
  split; [vm_compute; reflexivity|].
  split; [vm_compute; reflexivity|].
  split; [vm_compute; reflexivity|].
  split; [reflexivity|]. split; [reflexivity|].
  split; [discriminate|].
  intros (_ & _ & H).
  apply (sameRows_filter (radiusService.userGroupWhere "acme_alice")) in H.
  apply Permutation_length_1 in H. discriminate H.
Qed.

(** ** Device control *)

(** C9: [disconnectUser] and [changeUserBandwidth] never throw.  Whatever
    the CoA sender does, the operation fulfils: with the sender's boolean
    when the sender fulfils, and with [false] when the sender rejects
    (timeout, transport error).  So [true] is returned only when the sender
    reports an acknowledged success. *)
Theorem control_operations_never_throw
  (sendCoaDisconnect : CoaDisconnectParams -> Async bool)
  (sendCoaChangeRate : CoaChangeRateParams -> Async bool)
  (nasIp username secret rateLimit : string) (w : World) :
  radiusService.disconnectUser sendCoaDisconnect nasIp username secret w
  = match sendCoaDisconnect
            {| cd_nasIp := nasIp; cd_secret := secret; cd_username := username |} w
    with
    | (Fulfilled success, w') => (Fulfilled success, w')
    | (Rejected error, w') => (Fulfilled false, w')
    end
  /\ radiusService.changeUserBandwidth sendCoaChangeRate nasIp username secret
       rateLimit w
     = match sendCoaChangeRate
               {| cr_nasIp := nasIp; cr_secret := secret;
                  cr_username := username; cr_rateLimit := rateLimit |} w
       with
       | (Fulfilled success, w') => (Fulfilled success, w')
       | (Rejected error, w') => (Fulfilled false, w')
       end
  /\ (forall error w',
         radiusService.disconnectUser sendCoaDisconnect nasIp username secret w
         <> (Rejected error, w'))
  /\ (forall error w',
         radiusService.changeUserBandwidth sendCoaChangeRate nasIp username secret
           rateLimit w
         <> (Rejected error, w')).
Proof.
  unfold radiusService.disconnectUser, radiusService.changeUserBandwidth,
    tryCatch, bind, ret.
  repeat split.
  - now destruct (sendCoaDisconnect _ w) as [[success|error] w'].
  - now destruct (sendCoaChangeRate _ w) as [[success|error] w'].
  - intros error w'.
    destruct (sendCoaDisconnect _ w) as [[success|error'] w'']; discriminate.
  - intros error w'.
    destruct (sendCoaChangeRate _ w) as [[success|error'] w'']; discriminate.
Qed.

(** A sender that times out and a sender that receives a negative
    acknowledgment. *)
Lemma control_operations_never_throw_witness :
  radiusService.disconnectUser sendTimesOut "10.0.0.1" "acme_alice" "s3cret" worldA
  = (Fulfilled false, worldA)
  /\ radiusService.changeUserBandwidth (sendAnswers false) "10.0.0.1" "acme_alice"
       "s3cret" "50M/30M" worldA
     = (Fulfilled false, worldA).
Proof.
  destruct (control_operations_never_throw sendTimesOut (sendAnswers false)
              "10.0.0.1" "acme_alice" "s3cret" "50M/30M" worldA)
    as (Hdisconnect & Hchange & _).
  split; [exact Hdisconnect | exact Hchange].
Defined.

(** ** Expiration format *)

(** C8 (the code at the failing input): a single-digit day of month is not
    padded, so the string for the 5th is one character shorter than the
    string for the 15th; the source documents the format as
    "Mon DD YYYY HH:MM:SS". *)
Theorem formatRadiusExpiration_day_not_padded :
  radiusService.formatRadiusExpiration
    {| getFullYear := 2025; getMonth := 0; getDate := 5 |}
  = "Jan 5 2025 23:59:59"
  /\ radiusService.formatRadiusExpiration
       {| getFullYear := 2025; getMonth := 0; getDate := 15 |}
     = "Jan 15 2025 23:59:59"
  /\ String.length (radiusService.formatRadiusExpiration
                      {| getFullYear := 2025; getMonth := 0; getDate := 5 |})
     = 19%nat
  /\ String.length (radiusService.formatRadiusExpiration
                      {| getFullYear := 2025; getMonth := 0; getDate := 15 |})
     = 20%nat.
Proof. repeat split; vm_compute; reflexivity. Qed.

(** ** Patterns *)

Lemma anySuffix_spec (matches : string -> bool) (s : string) :
  anySuffix matches s = true
  <-> exists skipped rest, s = skipped ++ rest /\ matches rest = true.
Proof.
  induction s as [|c s IH]; cbn [anySuffix].
  - rewrite orb_false_r. split.
    + intros H. now exists EmptyString, EmptyString.
    + intros (skipped & rest & Hs & H).
      destruct skipped; [cbn in Hs; now subst rest | discriminate].
  - rewrite orb_true_iff, IH. split.
    + intros [H | (skipped & rest & -> & H)].
      * now exists EmptyString, (String c s).
      * now exists (String c skipped), rest.
    + intros (skipped & rest & Hs & H). destruct skipped as [|c' skipped].
      * left. cbn in Hs. now subst rest.
      * right. injection Hs as _ ->. now exists skipped, rest.
Qed.

Lemma like_Like (pattern s : string) : Like pattern s -> like pattern s = true.
Proof.
  induction 1 as [ | pattern skipped s _ IH | pattern s c _ IH
                   | pattern s c _ IH | pattern s c Hp Hu Hb _ IH ].
  - reflexivity.
  - cbn [like]. rewrite Ascii.eqb_refl. apply anySuffix_spec. now exists skipped, s.
  - exact IH.
  - cbn. now rewrite Ascii.eqb_refl.
  - cbn [like]. apply Ascii.eqb_neq in Hp, Hu, Hb. rewrite Hp, Hu, Hb.
    now rewrite Ascii.eqb_refl.
Qed.

Lemma Like_like_bounded (n : nat) :
  forall pattern s,
    (String.length pattern <= n)%nat -> like pattern s = true -> Like pattern s.
Proof.
  induction n as [|n IH]; intros pattern s Hlen H.
  - destruct pattern; [|cbn in Hlen; lia].
    destruct s; [constructor | discriminate].
  - destruct pattern as [|c rest].
    { destruct s; [constructor | discriminate]. }
    cbn [String.length] in Hlen. cbn [like] in H.
    destruct (Ascii.eqb_spec c "%") as [->|Hp].
    { apply anySuffix_spec in H as (skipped & s' & -> & H).
      constructor. apply IH; [lia | exact H]. }
    destruct (Ascii.eqb_spec c "_") as [->|Hu].
    { destruct s as [|x s']; [discriminate|]. constructor. apply IH; [lia | exact H]. }
    destruct (Ascii.eqb_spec c backslash) as [->|Hb].
    { destruct rest as [|escaped rest']; [discriminate|].
      destruct s as [|x s']; [discriminate|].
      apply andb_true_iff in H as [Hx H]. apply Ascii.eqb_eq in Hx. subst x.
      constructor. apply IH; [cbn [String.length] in Hlen; lia | exact H]. }
    destruct s as [|x s']; [discriminate|].
    apply andb_true_iff in H as [Hx H]. apply Ascii.eqb_eq in Hx. subst x.
    constructor; try assumption. apply IH; [lia | exact H].
Qed.

(** The matcher decides the relation. *)
Lemma like_spec (pattern s : string) : like pattern s = true <-> Like pattern s.
Proof.
  split; [|apply like_Like].
  apply (Like_like_bounded (String.length pattern)). lia.
Qed.

Lemma plain_cons (c : ascii) (s : string) :
  plain (String c s) = true
  <-> (c <> "%"%char /\ c <> "_"%char /\ c <> backslash) /\ plain s = true.
Proof.
  unfold plain. cbn [Js.includes]. rewrite !andb_true_iff, !negb_true_iff.
  rewrite !orb_false_iff, !Ascii.eqb_neq. tauto.
Qed.

(** A plain prefix of a pattern matches itself and nothing else. *)
Lemma like_plain_prefix (prefix pattern s : string) :
  plain prefix = true ->
  like (prefix ++ pattern) s = true
  <-> exists rest, s = prefix ++ rest /\ like pattern rest = true.
Proof.
  revert s. induction prefix as [|c prefix IH]; intros s Hplain.
  - cbn [append]. split; [intros H; now exists s | now intros (rest & -> & H)].
  - apply plain_cons in Hplain as [(Hp & Hu & Hb) Hplain].
    cbn [append like]. apply Ascii.eqb_neq in Hp, Hu, Hb. rewrite Hp, Hu, Hb.
    destruct s as [|x s].
    + split; [discriminate | intros (rest & Hs & _); discriminate].
    + rewrite andb_true_iff, Ascii.eqb_eq, IH by exact Hplain. split.
      * intros [-> (rest & -> & H)]. now exists rest.
      * intros (rest & Hs & H). injection Hs as -> ->. split; [reflexivity|].
        now exists rest.
Qed.

(** A prefix without backslash matches itself, whatever else it matches. *)
Lemma like_prefix_itself (prefix pattern s : string) :
  Js.includes backslash prefix = false ->
  like pattern s = true ->
  like (prefix ++ pattern) (prefix ++ s) = true.
Proof.
  intros Hb H. induction prefix as [|c prefix IH]; [exact H|].
  cbn [Js.includes] in Hb. apply orb_false_iff in Hb as [Hc Hb].
  specialize (IH Hb). cbn [append like].
  destruct (Ascii.eqb c "%").
  { apply anySuffix_spec. now exists (String c EmptyString), (prefix ++ s). }
  destruct (Ascii.eqb c "_"); [exact IH|].
  rewrite Hc. now rewrite Ascii.eqb_refl.
Qed.

Lemma like_one_or_more (s : string) :
  like "_%" s = true <-> exists c rest, s = String c rest.
Proof.
  destruct s as [|c s].
  - split; [discriminate | intros (c & rest & H); discriminate].
  - split; [intros _; now exists c, s | intros _].
    change (anySuffix (like EmptyString) s = true).
    apply anySuffix_spec. exists s, EmptyString. split; [|reflexivity].
    clear. induction s as [|x s IH]; [reflexivity|]. cbn [append]. now rewrite <- IH.
Qed.

(** What the [startsWith] filter of a tenant selects: for a plain slug, the
    names that start with the slug and one more character, whatever this
    character is. *)
Lemma startsWith_plain (tenantSlug name : string) :
  plain tenantSlug = true ->
  startsWith (tenantSlug ++ "_") name = true
  <-> exists c rest, name = tenantSlug ++ String c rest.
Proof.
  intros Hplain. unfold startsWith. rewrite string_app_assoc.
  change ("_" ++ "%") with "_%".
  rewrite like_plain_prefix by exact Hplain. split.
  - intros (rest & -> & H). apply like_one_or_more in H as (c & rest' & ->).
    now exists c, rest'.
  - intros (c & rest & ->). exists (String c rest). split; [reflexivity|].
    apply like_one_or_more. now exists c, rest.
Qed.

(** The filter of a tenant selects the tenant's own names, when the slug
    holds no backslash. *)
Lemma startsWith_namespaced (tenantSlug username : string) :
  Js.includes backslash tenantSlug = false ->
  startsWith (tenantSlug ++ "_") (buildRadiusUsername tenantSlug username) = true.
Proof.
  intros Hb. unfold startsWith, buildRadiusUsername. rewrite string_app_assoc.
  change ("_" ++ "%") with "_%".
  apply like_prefix_itself; [exact Hb|].
  apply like_one_or_more. now exists "_"%char, username.
Qed.

Lemma startsWith_Like (prefix s : string) :
  startsWith (prefix ++ "_") s = true <-> Like (prefix ++ "_%") s.
Proof.
  unfold startsWith. rewrite string_app_assoc. apply like_spec.
Qed.

Lemma prefix_append (p s : string) :
  String.prefix p s = true <-> exists rest, s = p ++ rest.
Proof.
  revert s. induction p as [|c p IH]; intros s.
  - cbn. destruct s; split; eauto.
  - destruct s as [|c' s]; cbn [prefix append].
    + split; [discriminate | intros [rest H]; discriminate].
    + destruct (ascii_dec c c') as [Heq|Hne].
      * rewrite IH. subst c'.
        split; intros [rest H]; exists rest; [now rewrite H | now inversion H].
      * split; [discriminate | intros [rest H]; inversion H; congruence].
Qed.

(** Two prefixes of one string: one is a prefix of the other. *)
Lemma prefixes_comparable (a b restA restB : string) :
  a ++ restA = b ++ restB ->
  String.prefix a b = true \/ String.prefix b a = true.
Proof.
  revert b. induction a as [|c a IH]; intros b H.
  - left. now destruct b.
  - destruct b as [|c' b]; [now right|].
    cbn [append] in H. injection H as -> H.
    cbn [prefix]. destruct (ascii_dec c' c'); [|congruence]. now apply IH.
Qed.

(** ** Stale-session sweep *)

Lemma isNull_true {A : Type} (t : option A) :
  radiusService.isNull t = true <-> t = None.
Proof. destruct t; cbn; split; congruence. Qed.




(** What a fulfilled sweep leaves in the store, and what it returns. *)
Lemma cleanupStaleSessions_fulfilled (tenantSlug : option string)
  (staleThresholdMinutes : option Z) (w w' : World) (count : nat) :
  radiusService.cleanupStaleSessions tenantSlug staleThresholdMinutes w
  = (Fulfilled count, w') ->
  let where_ :=
    radiusService.staleWhere tenantSlug
      (staleThreshold staleThresholdMinutes (clock w)) in
  let stoptime := clock (snd (dateNow w)) in
  db w' = withRows radAcctT
            (map (fun r => if where_ r then radiusService.closeStale stoptime r else r)
               (radAcct (db w)))
            (db w)
  /\ count = List.length (filter where_ (radAcct (db w))).
Proof.
  unfold radiusService.cleanupStaleSessions, staleThreshold.
  unfold tryCatch, bind, updateMany, statement, dateNow, throw, ret.
  destruct w as [d fs c ts].
  destruct ts as [|t1 [|t2 ts]], fs as [|[e|] fs]; cbn;
    intros H; inversion H; split; reflexivity.
Qed.


Lemma swept_records (where_ : RadAcct -> bool) (close : RadAcct -> RadAcct)
  (P : RadAcct -> RadAcct -> Prop) (l : list RadAcct) :
  (forall r, where_ r = true -> P r (close r)) ->
  (forall r, where_ r = false -> P r r) ->
  Forall2 P l (map (fun r => if where_ r then close r else r) l).
Proof.
  intros Hclose Hkeep. induction l as [|r l IH]; cbn; constructor; [|exact IH].
  destruct (where_ r) eqn:E; auto.
Qed.




(** The scope of a sweep for the tenant "acme" reaches the usernames of the
    tenant "acmes" and usernames without underscore after "acme": three of
    the four stale sessions are closed, the one of "globex" is not. *)
Lemma cleanupStaleSessions_reaches_neighbours :
  exists w',
    radiusService.cleanupStaleSessions (Some "acme") None worldNeighbours
    = (Fulfilled 3%nat, w')
    /\ radAcct (db w')
       = [ radiusService.closeStale 1700000000002
             (sessionStarted "acme_alice" 1700000000000 20);
           radiusService.closeStale 1700000000002
             (sessionStarted "acmes_bob" 1700000000000 20);
           radiusService.closeStale 1700000000002
             (sessionStarted "acmeXcarol" 1700000000000 20);
           sessionStarted "globex_dan" 1700000000000 20 ]
    /\ inScope (Some "acme") (sessionStarted "acmes_bob" 1700000000000 20)
    /\ inScope (Some "acme") (sessionStarted "acmeXcarol" 1700000000000 20)
    /\ ~ inScope (Some "acme") (sessionStarted "globex_dan" 1700000000000 20).
Proof.
  eexists. split; [vm_compute; reflexivity|]. split; [reflexivity|].
  cbn [inScope sessionStarted acct_username].
  split; [right; now apply like_spec|]. split; [right; now apply like_spec|].
  intros [H|H]; [discriminate|]. apply like_spec in H. discriminate.
Qed.

(** * Properties of the rest of the service *)

(** ** What the other operations leave in the store *)

Lemma syncSubscriberPlan_steady (tenantSlug username : string) (planId : option string) :
  steady (syncSubscriberPlan tenantSlug username planId).
Proof. unfold syncSubscriberPlan. prove_steady. Qed.

Lemma syncSubscriberReplyAttributes_steady (tenantSlug : string) (subscriber : Subscriber) :
  steady (syncSubscriberReplyAttributes tenantSlug subscriber).
Proof. unfold syncSubscriberReplyAttributes. prove_steady. Qed.

Lemma removeSubscriberAuth_steady (tenantSlug username : string) :
  steady (removeSubscriberAuth tenantSlug username).
Proof. unfold removeSubscriberAuth. prove_steady. Qed.

Lemma removePlanBandwidth_steady (tenantSlug planId : string) :
  steady (removePlanBandwidth tenantSlug planId).
Proof. unfold removePlanBandwidth. prove_steady. Qed.

Lemma syncSubscriberPlan_noFaults (tenantSlug username : string)
  (planId : option string) (w : World) :
  syncSubscriberPlan tenantSlug username planId (noFaults w)
  = (Fulfilled tt,
     {| db := afterSyncPlan tenantSlug username planId (db w);
        faults := []; clock := clock w; ticks := ticks w |}).
Proof.
  unfold syncSubscriberPlan, afterSyncPlan, membershipFor.
  destruct planId as [plan|];
    repeat match goal with
      | |- context [Js.truthyString ?x] => destruct (Js.truthyString x)
      end;
    run_async; rewrite ?app_nil_r; reflexivity.
Qed.

Lemma syncSubscriberReplyAttributes_noFaults (tenantSlug : string)
  (subscriber : Subscriber) (w : World) :
  syncSubscriberReplyAttributes tenantSlug subscriber (noFaults w)
  = (Fulfilled tt,
     {| db := afterSyncReply tenantSlug subscriber (db w);
        faults := []; clock := clock w; ticks := ticks w |}).
Proof.
  unfold syncSubscriberReplyAttributes, afterSyncReply, staticIpRows.
  destruct (staticIp subscriber) as [ip|];
    repeat match goal with
      | |- context [Js.truthyString ?x] => destruct (Js.truthyString x)
      end;
    run_async; rewrite ?app_nil_r; reflexivity.
Qed.

Lemma removeSubscriberAuth_noFaults (tenantSlug username : string) (w : World) :
  removeSubscriberAuth tenantSlug username (noFaults w)
  = (Fulfilled tt,
     {| db := afterRemoveAuth tenantSlug username (db w);
        faults := []; clock := clock w; ticks := ticks w |}).
Proof. reflexivity. Qed.

Lemma removePlanBandwidth_noFaults (tenantSlug planId : string) (w : World) :
  removePlanBandwidth tenantSlug planId (noFaults w)
  = (Fulfilled tt,
     {| db := afterRemovePlanBandwidth tenantSlug planId (db w);
        faults := []; clock := clock w; ticks := ticks w |}).
Proof. reflexivity. Qed.

Lemma syncSubscriberPlan_fulfilled (tenantSlug username : string)
  (planId : option string) (w w' : World) :
  syncSubscriberPlan tenantSlug username planId w = (Fulfilled tt, w') ->
  db w' = afterSyncPlan tenantSlug username planId (db w).
Proof.
  intros H.
  apply (steady_store _ _ _ _ (syncSubscriberPlan_steady _ _ _)) in H as [_ ->].
  now rewrite syncSubscriberPlan_noFaults.
Qed.

Lemma syncSubscriberReplyAttributes_fulfilled (tenantSlug : string)
  (subscriber : Subscriber) (w w' : World) :
  syncSubscriberReplyAttributes tenantSlug subscriber w = (Fulfilled tt, w') ->
  db w' = afterSyncReply tenantSlug subscriber (db w).
Proof.
  intros H.
  apply (steady_store _ _ _ _ (syncSubscriberReplyAttributes_steady _ _)) in H as [_ ->].
  now rewrite syncSubscriberReplyAttributes_noFaults.
Qed.

Lemma removeSubscriberAuth_fulfilled (tenantSlug username : string) (w w' : World) :
  removeSubscriberAuth tenantSlug username w = (Fulfilled tt, w') ->
  db w' = afterRemoveAuth tenantSlug username (db w).
Proof.
  intros H.
  apply (steady_store _ _ _ _ (removeSubscriberAuth_steady _ _)) in H as [_ ->].
  now rewrite removeSubscriberAuth_noFaults.
Qed.

Lemma removePlanBandwidth_fulfilled (tenantSlug planId : string) (w w' : World) :
  removePlanBandwidth tenantSlug planId w = (Fulfilled tt, w') ->
  db w' = afterRemovePlanBandwidth tenantSlug planId (db w).
Proof.
  intros H.
  apply (steady_store _ _ _ _ (removePlanBandwidth_steady _ _)) in H as [_ ->].
  now rewrite removePlanBandwidth_noFaults.
Qed.

(** ** Plan membership *)

Lemma membershipFor_found (t u : string) (planId : option string) :
  filter (radiusService.userGroupWhere u) (membershipFor t u planId)
  = membershipFor t u planId
  /\ filter (notWhere (radiusService.userGroupWhere u)) (membershipFor t u planId) = [].
Proof.
  unfold membershipFor, notWhere, radiusService.userGroupWhere.
  destruct planId; [destruct (Js.truthyString _)|]; cbn;
    rewrite ?String.eqb_refl; now split.
Qed.

Lemma userGroupWhere_other (u other : string) (r : RadUserGroup) :
  other <> u ->
  radiusService.userGroupWhere other r = true ->
  notWhere (radiusService.userGroupWhere u) r = true.
Proof.
  unfold notWhere, radiusService.userGroupWhere. intros Hne H.
  apply String.eqb_eq in H. apply negb_true_iff, String.eqb_neq. congruence.
Qed.

Lemma membershipFor_other (t u other : string) (planId : option string) :
  other <> u ->
  filter (radiusService.userGroupWhere other) (membershipFor t u planId) = [].
Proof.
  intros Hne. unfold membershipFor, radiusService.userGroupWhere.
  destruct planId; [destruct (Js.truthyString _)|]; cbn; try reflexivity.
  now rewrite (proj2 (String.eqb_neq u other)) by congruence.
Qed.

(** X1: a fulfilled [syncSubscriberPlan] leaves the namespaced username with
    exactly one membership row, for the group of the given plan at priority
    1, and with none when the plan id is [null] (or empty); every other
    username's memberships and every other table are as they were. *)
Theorem syncSubscriberPlan_replaces (tenantSlug username : string)
  (planId : option string) (w w' : World) :
  syncSubscriberPlan tenantSlug username planId w = (Fulfilled tt, w') ->
  membershipsOf (buildRadiusUsername tenantSlug username) (db w')
  = match planId with
    | Some plan =>
        if String.eqb plan EmptyString then []
        else [ {| ug_username := buildRadiusUsername tenantSlug username;
                  ug_groupname := buildRadiusGroupname tenantSlug plan;
                  ug_priority := 1 |} ]
    | None => []
    end
  /\ (forall other, other <> buildRadiusUsername tenantSlug username ->
        membershipsOf other (db w') = membershipsOf other (db w))
  /\ radCheck (db w') = radCheck (db w)
  /\ radReply (db w') = radReply (db w)
  /\ radGroupCheck (db w') = radGroupCheck (db w)
  /\ radGroupReply (db w') = radGroupReply (db w)
  /\ radAcct (db w') = radAcct (db w).
Proof.
  intros H. rewrite (syncSubscriberPlan_fulfilled _ _ _ _ _ H).
  unfold afterSyncPlan, membershipsOf. cbn.
  set (u := buildRadiusUsername tenantSlug username).
  repeat split.
  - rewrite filter_app, filter_notWhere_same.
    rewrite (proj1 (membershipFor_found tenantSlug u planId)).
    unfold membershipFor. destruct planId as [plan|]; [|reflexivity].
    cbn. now destruct (String.eqb plan EmptyString).
  - intros other Hne. rewrite filter_app, membershipFor_other by assumption.
    rewrite app_nil_r. apply filter_implied.
    intros r. now apply userGroupWhere_other.
Qed.

(** Bob's membership is cleared by a [null] plan id; alice keeps hers. *)
Lemma syncSubscriberPlan_replaces_witness :
  exists w',
    syncSubscriberPlan "acme" "bob" None worldA = (Fulfilled tt, w')
    /\ membershipsOf "acme_bob" (db w') = []
    /\ membershipsOf "acme_alice" (db w') = membershipsOf "acme_alice" (db worldA).
Proof.
  eexists. split; [vm_compute; reflexivity|].
  pose proof (syncSubscriberPlan_replaces "acme" "bob" None worldA _ eq_refl)
    as (Hbob & Hothers & _).
  split; [exact Hbob|]. apply Hothers. discriminate.
Defined.

Lemma afterSyncPlan_twice (t username : string) (first second : option string)
  (d : Store) :
  afterSyncPlan t username second (afterSyncPlan t username first d)
  = afterSyncPlan t username second d.
Proof.
  unfold afterSyncPlan. cbn. f_equal.
  rewrite filter_app, filter_idempotent.
  now rewrite (proj2 (membershipFor_found _ _ first)), app_nil_r.
Qed.

(** X2: the last [syncSubscriberPlan] wins: synchronising one plan and then
    another leaves the store exactly as synchronising the second plan alone;
    in particular the operation is idempotent. *)
Theorem syncSubscriberPlan_last_wins (tenantSlug username : string)
  (first second : option string) (w w1 w2 w2' : World) :
  syncSubscriberPlan tenantSlug username first w = (Fulfilled tt, w1) ->
  syncSubscriberPlan tenantSlug username second w1 = (Fulfilled tt, w2) ->
  syncSubscriberPlan tenantSlug username second w = (Fulfilled tt, w2') ->
  db w2 = db w2'.
Proof.
  intros H1 H2 H3.
  rewrite (syncSubscriberPlan_fulfilled _ _ _ _ _ H2).
  rewrite (syncSubscriberPlan_fulfilled _ _ _ _ _ H1).
  rewrite (syncSubscriberPlan_fulfilled _ _ _ _ _ H3).
  apply afterSyncPlan_twice.
Qed.

(** Alice moved from "silver" to "gold" and then to "platinum". *)
Lemma syncSubscriberPlan_last_wins_witness :
  exists w1 w2 w2',
    syncSubscriberPlan "acme" "alice" (Some "gold") worldA = (Fulfilled tt, w1)
    /\ syncSubscriberPlan "acme" "alice" (Some "platinum") w1 = (Fulfilled tt, w2)
    /\ syncSubscriberPlan "acme" "alice" (Some "platinum") worldA = (Fulfilled tt, w2')
    /\ db w2 = db w2'.
Proof.
  eexists. eexists. eexists.
  split; [vm_compute; reflexivity|].
  split; [vm_compute; reflexivity|].
  split; [vm_compute; reflexivity|].
  eapply (syncSubscriberPlan_last_wins "acme" "alice" (Some "gold") (Some "platinum")
            worldA); vm_compute; reflexivity.
Defined.

Lemma restoredMembership_after_sync (t u : string) (s : Subscriber)
  (memberships : list RadUserGroup) :
  restoredMembership t u s
    (filter (notWhere (radiusService.userGroupWhere u)) memberships
     ++ membershipFor t u (planId s))
  = [].
Proof.
  destruct (membershipFor t u (planId s)) as [|m rest] eqn:E.
  - unfold restoredMembership. unfold membershipFor in E.
    destruct (planId s) as [plan|]; [|reflexivity].
    destruct (Js.truthyString (Some plan)); [discriminate | reflexivity].
  - apply restoredMembership_some.
    rewrite filter_app, filter_notWhere_same. cbn [app].
    rewrite <- E, (proj1 (membershipFor_found t u (planId s))), E. discriminate.
Qed.

(** X3: once the plan mapping of a subscriber is synchronised, toggling
    converges: after [syncSubscriberPlan] with the subscriber's plan, an
    enable keeps the membership as it is, and enable, disable, enable leaves
    the whole store exactly as the first enable left it. *)
Theorem toggling_after_plan_sync (tenantSlug : string) (subscriber : Subscriber)
  (w w0 w1 w2 w3 : World) :
  syncSubscriberPlan tenantSlug (sub_username subscriber) (planId subscriber) w
  = (Fulfilled tt, w0) ->
  radiusService.enableSubscriberRadius tenantSlug subscriber w0 = (Fulfilled tt, w1) ->
  radiusService.disableSubscriberRadius tenantSlug (sub_username subscriber) w1
  = (Fulfilled tt, w2) ->
  radiusService.enableSubscriberRadius tenantSlug subscriber w2 = (Fulfilled tt, w3) ->
  radUserGroup (db w1) = radUserGroup (db w0)
  /\ db w3 = db w1.
Proof.
  intros H0 H1 H2 H3.
  rewrite (enableSubscriberRadius_fulfilled _ _ _ _ H3).
  rewrite (disableSubscriberRadius_fulfilled _ _ _ _ H2).
  rewrite (enableSubscriberRadius_fulfilled _ _ _ _ H1).
  rewrite (syncSubscriberPlan_fulfilled _ _ _ _ _ H0).
  set (u := buildRadiusUsername tenantSlug (sub_username subscriber)).
  assert (Hkept : radUserGroup (afterEnable tenantSlug subscriber
                    (afterSyncPlan tenantSlug (sub_username subscriber)
                       (planId subscriber) (db w)))
                  = radUserGroup (afterSyncPlan tenantSlug (sub_username subscriber)
                       (planId subscriber) (db w))).
  { unfold afterEnable, afterSyncPlan. cbn. fold u.
    now rewrite restoredMembership_after_sync, app_nil_r. }
  split; [exact Hkept|].
  unfold afterEnable at 1 3. unfold afterDisable. cbn. fold u. f_equal.
  - apply refreshedCheck_toggle.
  - change (radUserGroup (afterEnable tenantSlug subscriber
              (afterSyncPlan tenantSlug (sub_username subscriber)
                 (planId subscriber) (db w))))
      with (radUserGroup (afterSyncPlan tenantSlug (sub_username subscriber)
                 (planId subscriber) (db w))
            ++ restoredMembership tenantSlug u subscriber
                 (radUserGroup (afterSyncPlan tenantSlug (sub_username subscriber)
                    (planId subscriber) (db w))))%list.
    rewrite toggled_membership.
    unfold afterSyncPlan. cbn. fold u.
    rewrite restoredMembership_after_sync, app_nil_r.
    rewrite filter_app, filter_idempotent.
    now rewrite (proj2 (membershipFor_found _ _ _)), app_nil_r.
Qed.

(** Alice, whose stale "silver" membership is first replaced by her plan. *)
Lemma toggling_after_plan_sync_witness :
  exists w0 w1 w2 w3,
    syncSubscriberPlan "acme" "alice" (Some "gold") worldA = (Fulfilled tt, w0)
    /\ radiusService.enableSubscriberRadius "acme" alice w0 = (Fulfilled tt, w1)
    /\ radiusService.disableSubscriberRadius "acme" "alice" w1 = (Fulfilled tt, w2)
    /\ radiusService.enableSubscriberRadius "acme" alice w2 = (Fulfilled tt, w3)
    /\ db w3 = db w1.
Proof.
  eexists. eexists. eexists. eexists.
  split; [vm_compute; reflexivity|].
  split; [vm_compute; reflexivity|].
  split; [vm_compute; reflexivity|].
  split; [vm_compute; reflexivity|].
  refine (proj2 (toggling_after_plan_sync "acme" alice worldA _ _ _ _ _ _ _ _));
    vm_compute; reflexivity.
Defined.

(** ** Operations on one username *)

Lemma checkWhere_other_user (u other attribute : string) (r : RadCheck) :
  other <> u ->
  String.eqb (rc_username r) other = true ->
  radiusService.checkWhere u attribute r = false.
Proof.
  unfold radiusService.checkWhere. intros Hne H. apply String.eqb_eq in H.
  apply andb_false_iff. left. apply String.eqb_neq. congruence.
Qed.

Lemma checksOf_strip (u other attribute : string) (checks : list RadCheck) :
  other <> u ->
  filter (fun r => String.eqb (rc_username r) other)
    (filter (notWhere (radiusService.checkWhere u attribute)) checks)
  = filter (fun r => String.eqb (rc_username r) other) checks.
Proof.
  intros Hne. apply filter_implied. intros r Hr. unfold notWhere.
  now rewrite (checkWhere_other_user u other attribute r Hne Hr).
Qed.

Lemma checksOf_refreshed (u other : string) (s : Subscriber) (checks : list RadCheck) :
  other <> u ->
  filter (fun r => String.eqb (rc_username r) other) (refreshedCheck u s checks)
  = filter (fun r => String.eqb (rc_username r) other) checks.
Proof.
  intros Hne. apply refreshedCheck_frame. intros r Hr.
  split; now apply (checkWhere_other_user u other).
Qed.

Lemma restoredMembership_other (t u other : string) (s : Subscriber)
  (memberships : list RadUserGroup) :
  other <> u ->
  filter (radiusService.userGroupWhere other) (restoredMembership t u s memberships)
  = [].
Proof.
  intros Hne. unfold restoredMembership, radiusService.userGroupWhere.
  destruct (planId s); [destruct (Js.truthyString _)|]; try reflexivity.
  destruct (find _ memberships); cbn; try reflexivity.
  now rewrite (proj2 (String.eqb_neq u other)) by congruence.
Qed.

Lemma membershipsOf_strip (u other : string) (memberships : list RadUserGroup) :
  other <> u ->
  filter (radiusService.userGroupWhere other)
    (filter (notWhere (radiusService.userGroupWhere u)) memberships)
  = filter (radiusService.userGroupWhere other) memberships.
Proof.
  intros Hne. apply filter_implied. intros r. now apply userGroupWhere_other.
Qed.

Lemma neq_eqb_false (u other : string) : other <> u -> String.eqb u other = false.
Proof. intros H. apply String.eqb_neq. congruence. Qed.

Lemma enable_onlyTouches (t : string) (s : Subscriber) (d : Store) :
  onlyTouches (buildRadiusUsername t (sub_username s)) d (afterEnable t s d).
Proof.
  unfold onlyTouches, afterEnable, checksOf, repliesOf, membershipsOf. cbn.
  repeat split.
  - now rewrite checksOf_refreshed, checksOf_strip.
  - now rewrite filter_app, restoredMembership_other, app_nil_r.
Qed.

Lemma disable_onlyTouches (t username : string) (d : Store) :
  onlyTouches (buildRadiusUsername t username) d (afterDisable t username d).
Proof.
  unfold onlyTouches, afterDisable, checksOf, repliesOf, membershipsOf. cbn.
  repeat split.
  - rewrite filter_app, checksOf_strip by assumption. cbn.
    now rewrite neq_eqb_false, app_nil_r.
  - now apply membershipsOf_strip.
Qed.

Lemma syncAuth_onlyTouches (t : string) (s : Subscriber) (password : option string)
  (d : Store) :
  onlyTouches (buildRadiusUsername t (sub_username s)) d (afterSyncAuth t s password d).
Proof.
  unfold onlyTouches, afterSyncAuth, checksOf, repliesOf, membershipsOf. cbn.
  repeat split.
  rewrite checksOf_refreshed by assumption.
  destruct password as [pw|]; [|reflexivity].
  destruct (Js.truthyString (Some pw)); [|reflexivity].
  rewrite filter_app, checksOf_strip by assumption. cbn.
  now rewrite neq_eqb_false, app_nil_r.
Qed.

Lemma syncPlan_onlyTouches (t username : string) (planId : option string) (d : Store) :
  onlyTouches (buildRadiusUsername t username) d (afterSyncPlan t username planId d).
Proof.
  unfold onlyTouches, afterSyncPlan, checksOf, repliesOf, membershipsOf. cbn.
  repeat split.
  rewrite filter_app, membershipFor_other, app_nil_r by assumption.
  now apply membershipsOf_strip.
Qed.

Lemma syncReply_onlyTouches (t : string) (s : Subscriber) (d : Store) :
  onlyTouches (buildRadiusUsername t (sub_username s)) d (afterSyncReply t s d).
Proof.
  unfold onlyTouches, afterSyncReply, checksOf, repliesOf, membershipsOf. cbn.
  repeat split.
  rewrite filter_app.
  assert (Hrows : filter (fun r => String.eqb (rr_username r) other)
                    (staticIpRows (buildRadiusUsername t (sub_username s)) s) = []).
  { unfold staticIpRows.
    destruct (staticIp s); [destruct (Js.truthyString _)|]; cbn; try reflexivity.
    now rewrite neq_eqb_false. }
  rewrite Hrows, app_nil_r. apply filter_implied.
  intros r Hr. unfold notWhere, replyWhere. apply String.eqb_eq in Hr.
  rewrite (proj2 (String.eqb_neq (rr_username r) _)) by congruence.
  reflexivity.
Qed.

Lemma removeAuth_onlyTouches (t username : string) (d : Store) :
  onlyTouches (buildRadiusUsername t username) d (afterRemoveAuth t username d).
Proof.
  unfold onlyTouches, afterRemoveAuth, checksOf, repliesOf, membershipsOf. cbn.
  repeat split.
  - apply filter_implied. intros r Hr. unfold notWhere. apply String.eqb_eq in Hr.
    apply negb_true_iff, String.eqb_neq. congruence.
  - apply filter_implied. intros r Hr. unfold notWhere. apply String.eqb_eq in Hr.
    apply negb_true_iff, String.eqb_neq. congruence.
  - now apply membershipsOf_strip.
Qed.

(** X4: the subscriber operations are scoped to one username.  Whichever of
    enable, disable, [syncSubscriberAuth], [syncSubscriberPlan],
    [syncSubscriberReplyAttributes] and [removeSubscriberAuth] has fulfilled,
    the check, reply and membership rows of every other username are the same
    as before, in the same order, and the group tables and the accounting
    table are unchanged. *)
Theorem subscriber_operations_scoped (tenantSlug : string) (subscriber : Subscriber)
  (cleartextPassword planId : option string) (w w' : World) :
  radiusService.enableSubscriberRadius tenantSlug subscriber w = (Fulfilled tt, w')
  \/ radiusService.disableSubscriberRadius tenantSlug (sub_username subscriber) w
     = (Fulfilled tt, w')
  \/ radiusService.syncSubscriberAuth tenantSlug subscriber cleartextPassword w
     = (Fulfilled tt, w')
  \/ syncSubscriberPlan tenantSlug (sub_username subscriber) planId w
     = (Fulfilled tt, w')
  \/ syncSubscriberReplyAttributes tenantSlug subscriber w = (Fulfilled tt, w')
  \/ removeSubscriberAuth tenantSlug (sub_username subscriber) w = (Fulfilled tt, w') ->
  onlyTouches (buildRadiusUsername tenantSlug (sub_username subscriber)) (db w) (db w').
Proof.
  intros [H|[H|[H|[H|[H|H]]]]].
  - rewrite (enableSubscriberRadius_fulfilled _ _ _ _ H). apply enable_onlyTouches.
  - rewrite (disableSubscriberRadius_fulfilled _ _ _ _ H). apply disable_onlyTouches.
  - rewrite (syncSubscriberAuth_fulfilled _ _ _ _ _ H). apply syncAuth_onlyTouches.
  - rewrite (syncSubscriberPlan_fulfilled _ _ _ _ _ H). apply syncPlan_onlyTouches.
  - rewrite (syncSubscriberReplyAttributes_fulfilled _ _ _ _ H).
    apply syncReply_onlyTouches.
  - rewrite (removeSubscriberAuth_fulfilled _ _ _ _ H). apply removeAuth_onlyTouches.
Qed.

(** Removing alice leaves bob's reject row and membership in place. *)
Lemma subscriber_operations_scoped_witness :
  exists w',
    removeSubscriberAuth "acme" "alice" worldA = (Fulfilled tt, w')
    /\ checksOf "acme_alice" (db w') = []
    /\ checksOf "acme_bob" (db w') = checksOf "acme_bob" (db worldA)
    /\ membershipsOf "acme_bob" (db w') = membershipsOf "acme_bob" (db worldA).
Proof.
  eexists. split; [vm_compute; reflexivity|]. split; [reflexivity|].
  assert (H : onlyTouches "acme_alice" (db worldA)
                (db (snd (removeSubscriberAuth "acme" "alice" worldA)))).
  { apply (subscriber_operations_scoped "acme" alice None None worldA).
    right. right. right. right. right. vm_compute. reflexivity. }
  destruct H as [Hothers _].
  destruct (Hothers "acme_bob") as (Hc & _ & Hm); [discriminate|].
  split; [exact Hc | exact Hm].
Defined.

(** X5: [syncSubscriberAuth] with a non-empty cleartext password leaves the
    username with exactly one Cleartext-Password row, holding that password,
    however many such rows it had; with the empty string the password rows
    are left as they were (an empty password cannot be set). *)
Theorem syncSubscriberAuth_password (tenantSlug : string) (subscriber : Subscriber)
  (password : string) (w w' : World) :
  radiusService.syncSubscriberAuth tenantSlug subscriber (Some password) w
  = (Fulfilled tt, w') ->
  filter (radiusService.checkWhere
            (buildRadiusUsername tenantSlug (sub_username subscriber))
            "Cleartext-Password") (radCheck (db w'))
  = if String.eqb password EmptyString
    then filter (radiusService.checkWhere
                   (buildRadiusUsername tenantSlug (sub_username subscriber))
                   "Cleartext-Password") (radCheck (db w))
    else [ {| rc_username := buildRadiusUsername tenantSlug (sub_username subscriber);
              rc_attribute := "Cleartext-Password";
              rc_op := ":=";
              rc_value := password |} ].
Proof.
  intros H. rewrite (syncSubscriberAuth_fulfilled _ _ _ _ _ H).
  unfold afterSyncAuth. cbn [radCheck Js.truthyString].
  set (u := buildRadiusUsername tenantSlug (sub_username subscriber)).
  rewrite refreshedCheck_frame.
  - destruct (String.eqb password EmptyString); cbn [negb]; [reflexivity|].
    rewrite filter_app, filter_notWhere_same. unfold passwordRows. cbn [filter app].
    now rewrite checkWhere_row.
  - intros r Hr.
    split; apply (checkWhere_other _ "Cleartext-Password"); (discriminate || assumption).
Qed.

(** Alice's password is replaced. *)
Lemma syncSubscriberAuth_password_witness :
  exists w',
    radiusService.syncSubscriberAuth "acme" alice (Some "n3w") worldA
    = (Fulfilled tt, w')
    /\ filter (radiusService.checkWhere "acme_alice" "Cleartext-Password")
         (radCheck (db w'))
       = [ {| rc_username := "acme_alice"; rc_attribute := "Cleartext-Password";
              rc_op := ":="; rc_value := "n3w" |} ].
Proof.
  eexists. split; [vm_compute; reflexivity|].
  refine (syncSubscriberAuth_password "acme" alice "n3w" worldA _ _).
  vm_compute. reflexivity.
Defined.

(** X6: a fulfilled enable leaves the username without any Auth-Type row
    (whatever its value was), with exactly the expiration and MAC rows of
    the subscriber, and with every other check row as it was.  It never
    changes an existing membership: the username's memberships are as before
    when it had one, whatever group they name, and otherwise the single row
    of the subscriber's plan, if it has a plan. *)
Theorem enableSubscriberRadius_state (tenantSlug : string) (subscriber : Subscriber)
  (w w' : World) :
  radiusService.enableSubscriberRadius tenantSlug subscriber w = (Fulfilled tt, w') ->
  let u := buildRadiusUsername tenantSlug (sub_username subscriber) in
  filter (radiusService.checkWhere u "Auth-Type") (radCheck (db w')) = []
  /\ filter (radiusService.checkWhere u "Expiration") (radCheck (db w'))
     = expirationRows u subscriber
  /\ filter (radiusService.checkWhere u "Calling-Station-Id") (radCheck (db w'))
     = macRows u subscriber
  /\ filter (fun r => negb (radiusService.checkWhere u "Auth-Type" r)
                      && negb (radiusService.checkWhere u "Expiration" r)
                      && negb (radiusService.checkWhere u "Calling-Station-Id" r))
       (radCheck (db w'))
     = filter (fun r => negb (radiusService.checkWhere u "Auth-Type" r)
                        && negb (radiusService.checkWhere u "Expiration" r)
                        && negb (radiusService.checkWhere u "Calling-Station-Id" r))
         (radCheck (db w))
  /\ membershipsOf u (db w')
     = match membershipsOf u (db w) with
       | [] =>
           match planId subscriber with
           | Some plan =>
               if String.eqb plan EmptyString then []
               else [ {| ug_username := u;
                         ug_groupname := buildRadiusGroupname tenantSlug plan;
                         ug_priority := 1 |} ]
           | None => []
           end
       | existing => existing
       end.
Proof.
  intros H u. rewrite (enableSubscriberRadius_fulfilled _ _ _ _ H).
  unfold afterEnable, membershipsOf. fold u. cbn [radCheck radUserGroup].
  repeat split.
  - rewrite refreshedCheck_frame.
    + apply filter_notWhere_same.
    + intros r Hr.
      split; apply (checkWhere_other _ "Auth-Type"); (discriminate || assumption).
  - apply refreshedCheck_expiration.
  - apply refreshedCheck_mac.
  - rewrite refreshedCheck_frame.
    + apply filter_implied. intros r Hr.
      apply andb_true_iff in Hr as [Hr _]. now apply andb_true_iff in Hr as [Hr _].
    + intros r Hr. apply andb_true_iff in Hr as [Hr H3].
      apply andb_true_iff in Hr as [_ H2]. now apply negb_true_iff in H2, H3.
  - rewrite filter_app.
    destruct (filter (radiusService.userGroupWhere u) (radUserGroup (db w)))
      as [|m rest] eqn:E.
    + rewrite restoredMembership_none by assumption.
      rewrite (proj1 (planRows_found tenantSlug u subscriber)).
      unfold planRows. destruct (planId subscriber) as [plan|]; [|reflexivity].
      cbn. now destruct (String.eqb plan EmptyString).
    + rewrite restoredMembership_some by congruence. apply app_nil_r.
Qed.

(** Alice is enabled: her "Accept" row goes, her silver membership stays. *)
Lemma enableSubscriberRadius_state_witness :
  exists w',
    radiusService.enableSubscriberRadius "acme" alice worldA = (Fulfilled tt, w')
    /\ filter (radiusService.checkWhere "acme_alice" "Auth-Type") (radCheck (db w')) = []
    /\ membershipsOf "acme_alice" (db w')
       = [ {| ug_username := "acme_alice"; ug_groupname := "acme_silver";
              ug_priority := 1 |} ].
Proof.
  eexists. split; [vm_compute; reflexivity|].
  split.
  - refine (proj1 (enableSubscriberRadius_state "acme" alice worldA _ _)).
    vm_compute. reflexivity.
  - refine (proj2 (proj2 (proj2 (proj2
      (enableSubscriberRadius_state "acme" alice worldA _ _))))).
    vm_compute. reflexivity.
Defined.

(** X7: a fulfilled [removeSubscriberAuth] leaves no check, reply or
    membership row for the username.  Enabling the subscriber afterwards
    gives back the expiration and MAC rows and the membership row of the
    subscriber's plan (none without plan), and no password row: enable does
    not restore credentials. *)
Theorem removeSubscriberAuth_clears (tenantSlug : string) (subscriber : Subscriber)
  (w w1 : World) :
  removeSubscriberAuth tenantSlug (sub_username subscriber) w = (Fulfilled tt, w1) ->
  let u := buildRadiusUsername tenantSlug (sub_username subscriber) in
  filter (fun r => String.eqb (rc_username r) u) (radCheck (db w1)) = []
  /\ filter (fun r => String.eqb (rr_username r) u) (radReply (db w1)) = []
  /\ filter (fun r => String.eqb (ug_username r) u) (radUserGroup (db w1)) = []
  /\ forall w2,
       radiusService.enableSubscriberRadius tenantSlug subscriber w1
       = (Fulfilled tt, w2) ->
       filter (fun r => String.eqb (rc_username r) u) (radCheck (db w2))
       = (match expiryDate subscriber with
          | Some date =>
              [ {| rc_username := u; rc_attribute := "Expiration"; rc_op := ":=";
                   rc_value := radiusService.formatRadiusExpiration date |} ]
          | None => []
          end
          ++ match macAddress subscriber with
             | Some mac =>
                 if String.eqb mac EmptyString then []
                 else [ {| rc_username := u; rc_attribute := "Calling-Station-Id";
                           rc_op := ":="; rc_value := Js.toUpperCase mac |} ]
             | None => []
             end)%list
       /\ filter (fun r =>
                    String.eqb (rc_username r) u
                    && String.eqb (rc_attribute r) "Cleartext-Password")
            (radCheck (db w2))
          = []
       /\ filter (fun r => String.eqb (ug_username r) u) (radUserGroup (db w2))
          = match planId subscriber with
            | Some plan =>
                if String.eqb plan EmptyString then []
                else [ {| ug_username := u;
                          ug_groupname := buildRadiusGroupname tenantSlug plan;
                          ug_priority := 1 |} ]
            | None => []
            end.
Proof.
  intros H u.
  change (checksOf u (db w1) = []
          /\ repliesOf u (db w1) = []
          /\ membershipsOf u (db w1) = []
          /\ forall w2,
               radiusService.enableSubscriberRadius tenantSlug subscriber w1
               = (Fulfilled tt, w2) ->
               checksOf u (db w2)
               = (match expiryDate subscriber with
                  | Some date =>
                      [ {| rc_username := u; rc_attribute := "Expiration";
                           rc_op := ":=";
                           rc_value := radiusService.formatRadiusExpiration date |} ]
                  | None => []
                  end
                  ++ match macAddress subscriber with
                     | Some mac =>
                         if String.eqb mac EmptyString then []
                         else [ {| rc_username := u;
                                   rc_attribute := "Calling-Station-Id";
                                   rc_op := ":="; rc_value := Js.toUpperCase mac |} ]
                     | None => []
                     end)%list
               /\ filter (radiusService.checkWhere u "Cleartext-Password")
                    (radCheck (db w2))
                  = []
               /\ membershipsOf u (db w2)
                  = match planId subscriber with
                    | Some plan =>
                        if String.eqb plan EmptyString then []
                        else [planMembership tenantSlug u plan]
                    | None => []
                    end).
  assert (Hrows : (match expiryDate subscriber with
                   | Some date =>
                       [ {| rc_username := u; rc_attribute := "Expiration";
                            rc_op := ":=";
                            rc_value := radiusService.formatRadiusExpiration date |} ]
                   | None => []
                   end
                   ++ match macAddress subscriber with
                      | Some mac =>
                          if String.eqb mac EmptyString then []
                          else [ {| rc_username := u;
                                    rc_attribute := "Calling-Station-Id";
                                    rc_op := ":="; rc_value := Js.toUpperCase mac |} ]
                      | None => []
                      end)%list
                  = (expirationRows u subscriber ++ macRows u subscriber)%list).
  { unfold expirationRows, macRows. f_equal.
    destruct (macAddress subscriber) as [mac|]; [|reflexivity].
    cbn [Js.truthyString]. now destruct (String.eqb mac EmptyString). }
  rewrite Hrows. clear Hrows.
  assert (Hm1 : membershipsOf u (db w1) = []).
  { rewrite (removeSubscriberAuth_fulfilled _ _ _ _ H). apply filter_notWhere_same. }
  assert (Hmember : forall w2,
             radiusService.enableSubscriberRadius tenantSlug subscriber w1
             = (Fulfilled tt, w2) ->
             membershipsOf u (db w2)
             = match planId subscriber with
               | Some plan =>
                   if String.eqb plan EmptyString then []
                   else [planMembership tenantSlug u plan]
               | None => []
               end).
  { intros w2 H2. rewrite (enableSubscriberRadius_fulfilled _ _ _ _ H2).
    unfold afterEnable. fold u. unfold membershipsOf in *. cbn [radUserGroup].
    rewrite filter_app, Hm1. cbn [app]. unfold restoredMembership.
    destruct (planId subscriber) as [plan|]; [|reflexivity].
    cbn [Js.truthyString]. destruct (String.eqb plan EmptyString); [reflexivity|].
    cbn [negb].
    rewrite (proj1 (find_none_filter _ _ Hm1)).
    cbn [filter]. unfold radiusService.userGroupWhere, planMembership.
    cbn [ug_username]. now rewrite String.eqb_refl. }
  rewrite (removeSubscriberAuth_fulfilled _ _ _ _ H).
  assert (Hc : checksOf u (afterRemoveAuth tenantSlug (sub_username subscriber) (db w))
               = []) by apply filter_notWhere_same.
  split; [exact Hc|].
  split; [apply filter_notWhere_same|].
  split; [apply filter_notWhere_same|].
  intros w2 H2. pose proof (Hmember w2 H2) as Hmembers.
  cut (checksOf u (db w2) = (expirationRows u subscriber ++ macRows u subscriber)%list
       /\ filter (radiusService.checkWhere u "Cleartext-Password") (radCheck (db w2))
          = []); [intros [Ha Hb]; now repeat split|].
  assert (Hall : checksOf u (db w2)
                 = (expirationRows u subscriber ++ macRows u subscriber)%list).
  { rewrite (enableSubscriberRadius_fulfilled _ _ _ _ H2), (removeSubscriberAuth_fulfilled _ _ _ _ H).
    unfold afterEnable. fold u. unfold checksOf. cbn [radCheck].
    rewrite refreshedCheck_eq, !filter_app.
    set (user := fun r => String.eqb (rc_username r) u).
    assert (Hnone : filter user
                      (filter (notWhere (radiusService.checkWhere u "Calling-Station-Id"))
                         (filter (notWhere (radiusService.checkWhere u "Expiration"))
                            (filter (notWhere (radiusService.checkWhere u "Auth-Type"))
                               (radCheck (afterRemoveAuth tenantSlug
                                            (sub_username subscriber) (db w))))))
                    = []).
    { apply filter_none. intros x Hx.
      do 3 (apply filter_In in Hx as [Hx _]).
      unfold afterRemoveAuth in Hx. cbn [radCheck] in Hx. fold u in Hx.
      apply filter_In in Hx as [_ Hx]. unfold notWhere in Hx.
      now apply negb_true_iff in Hx. }
    rewrite Hnone. cbn [app].
    assert (He : filter user (expirationRows u subscriber) = expirationRows u subscriber).
    { unfold expirationRows, user. destruct (expiryDate subscriber); cbn;
        rewrite ?String.eqb_refl; reflexivity. }
    assert (Hm : filter user (macRows u subscriber) = macRows u subscriber).
    { unfold macRows, user.
      destruct (macAddress subscriber); [destruct (Js.truthyString _)|]; cbn;
        rewrite ?String.eqb_refl; reflexivity. }
    now rewrite He, Hm. }
  split; [exact Hall|].
  assert (Hpw : filter (radiusService.checkWhere u "Cleartext-Password")
                  (checksOf u (db w2)) = []).
  { rewrite Hall, filter_app.
    rewrite (filter_rowsOf_other u "Expiration" "Cleartext-Password")
      by other_attribute.
    now rewrite (filter_rowsOf_other u "Calling-Station-Id" "Cleartext-Password")
      by other_attribute. }
  unfold checksOf in Hpw. rewrite filter_implied in Hpw; [exact Hpw|].
  intros r Hr. unfold radiusService.checkWhere in Hr.
  now apply andb_true_iff in Hr as [Hr _].
Qed.

(** Alice is removed and enabled again: she had the membership of the
    silver plan, and gets the one of her own plan. *)
Lemma removeSubscriberAuth_clears_witness :
  exists w1 w2,
    removeSubscriberAuth "acme" "alice" worldA = (Fulfilled tt, w1)
    /\ radiusService.enableSubscriberRadius "acme" alice w1 = (Fulfilled tt, w2)
    /\ filter (fun r => String.eqb (rc_username r) "acme_alice") (radCheck (db w1))
       = []
    /\ filter (fun r => String.eqb (ug_username r) "acme_alice")
         (radUserGroup (db w1))
       = []
    /\ filter (fun r =>
                 String.eqb (rc_username r) "acme_alice"
                 && String.eqb (rc_attribute r) "Cleartext-Password")
         (radCheck (db w2))
       = []
    /\ List.length
         (filter (fun r => String.eqb (ug_username r) "acme_alice")
            (radUserGroup (db w2)))
       = 1%nat.
Proof.
  eexists. eexists.
  split; [vm_compute; reflexivity|]. split; [vm_compute; reflexivity|].
  split.
  - refine (proj1 (removeSubscriberAuth_clears "acme" alice worldA _ _)).
    vm_compute. reflexivity.
  - split.
    + refine (proj1 (proj2 (proj2
        (removeSubscriberAuth_clears "acme" alice worldA _ _)))).
      vm_compute. reflexivity.
    + split.
      * refine (proj1 (proj2 (proj2 (proj2 (proj2
          (removeSubscriberAuth_clears "acme" alice worldA _ _))) _ _)));
          vm_compute; reflexivity.
      * vm_compute. reflexivity.
Defined.

(** X8: a fulfilled [syncSubscriberReplyAttributes] leaves the username with
    exactly one Framed-IP-Address row, holding the subscriber's static
    address, and with none when the address is absent or empty; the other
    reply rows, of this username too, are as they were. *)
Theorem syncSubscriberReplyAttributes_replaces (tenantSlug : string)
  (subscriber : Subscriber) (w w' : World) :
  syncSubscriberReplyAttributes tenantSlug subscriber w = (Fulfilled tt, w') ->
  let u := buildRadiusUsername tenantSlug (sub_username subscriber) in
  filter (replyWhere u "Framed-IP-Address") (radReply (db w'))
  = match staticIp subscriber with
    | Some ip =>
        if String.eqb ip EmptyString then []
        else [ {| rr_username := u; rr_attribute := "Framed-IP-Address";
                  rr_op := ":="; rr_value := ip |} ]
    | None => []
    end
  /\ filter (notWhere (replyWhere u "Framed-IP-Address")) (radReply (db w'))
     = filter (notWhere (replyWhere u "Framed-IP-Address")) (radReply (db w)).
Proof.
  intros H u. rewrite (syncSubscriberReplyAttributes_fulfilled _ _ _ _ H).
  unfold afterSyncReply. fold u. cbn.
  assert (Hrows : filter (replyWhere u "Framed-IP-Address") (staticIpRows u subscriber)
                  = staticIpRows u subscriber
                  /\ filter (notWhere (replyWhere u "Framed-IP-Address"))
                       (staticIpRows u subscriber) = []).
  { unfold staticIpRows, notWhere, replyWhere.
    destruct (staticIp subscriber); [destruct (Js.truthyString _)|]; cbn;
      rewrite ?String.eqb_refl; now split. }
  split.
  - rewrite filter_app, filter_notWhere_same, (proj1 Hrows). unfold staticIpRows.
    destruct (staticIp subscriber) as [ip|]; [|reflexivity].
    cbn. now destruct (String.eqb ip EmptyString).
  - now rewrite filter_app, (proj2 Hrows), app_nil_r, filter_idempotent.
Qed.

(** ** Plans *)

Lemma planToRadiusAttributes_distinct (plan : Plan) :
  NoDup (map attr_attribute (planToRadiusAttributes plan)).
Proof.
  unfold planToRadiusAttributes.
  destruct (poolName plan) as [pool|]; cbn [Js.truthyString];
    [destruct (String.eqb pool EmptyString)|];
    destruct (validityUnit plan); cbn;
    repeat constructor; cbn; intuition discriminate.
Qed.

(** X9: [planToRadiusAttributes] always starts with the Mikrotik-Rate-Limit
    attribute at priority 1, adds Framed-Pool at priority 2 exactly when a
    non-empty pool name is set, and Session-Timeout at priority 3, with
    [validityDays * 3600] seconds, exactly for hour-based plans; the
    attribute names of the result are pairwise distinct. *)
Theorem planToRadiusAttributes_shape (plan : Plan) :
  planToRadiusAttributes plan
  = ({| attr_attribute := "Mikrotik-Rate-Limit";
        attr_value := buildMikroTikRateLimit plan;
        attr_priority := 1 |}
     :: match poolName plan with
        | Some pool =>
            if String.eqb pool EmptyString then []
            else [ {| attr_attribute := "Framed-Pool"; attr_value := pool;
                      attr_priority := 2 |} ]
        | None => []
        end
     ++ match validityUnit plan with
        | HOURS => [ {| attr_attribute := "Session-Timeout";
                        attr_value := Js.numberToString (validityDays plan * 3600);
                        attr_priority := 3 |} ]
        | _ => []
        end)%list
  /\ NoDup (map attr_attribute (planToRadiusAttributes plan)).
Proof.
  unfold planToRadiusAttributes.
  destruct (poolName plan) as [pool|]; cbn [Js.truthyString];
    [destruct (String.eqb pool EmptyString)|];
    destruct (validityUnit plan); cbn;
    (split; [reflexivity|]);
    repeat constructor; cbn; intuition discriminate.
Qed.

Lemma groupReplyRows_attributes (groupname : string) (attributes : list RadiusAttribute) :
  map gr_attribute (map (groupReplyRow groupname) attributes)
  = map attr_attribute attributes.
Proof. rewrite map_map. reflexivity. Qed.

(** X10: after a fulfilled [syncPlanBandwidth] the plan's group has exactly
    one reply row per attribute name, and the rows of every other group, in
    the reply and in the check table, are as they were. *)
Theorem syncPlanBandwidth_one_row_per_attribute (tenantSlug : string) (plan : Plan)
  (w w' : World) :
  radiusService.syncPlanBandwidth tenantSlug plan w = (Fulfilled tt, w') ->
  let groupname := buildRadiusGroupname tenantSlug (plan_id plan) in
  NoDup (map gr_attribute
           (filter (fun r => String.eqb (gr_groupname r) groupname)
              (radGroupReply (db w'))))
  /\ filter (notWhere (fun r => String.eqb (gr_groupname r) groupname))
       (radGroupReply (db w'))
     = filter (notWhere (fun r => String.eqb (gr_groupname r) groupname))
         (radGroupReply (db w))
  /\ filter (notWhere (fun r => String.eqb (gc_groupname r) groupname))
       (radGroupCheck (db w'))
     = filter (notWhere (fun r => String.eqb (gc_groupname r) groupname))
         (radGroupCheck (db w))
  /\ radCheck (db w') = radCheck (db w)
  /\ radReply (db w') = radReply (db w)
  /\ radUserGroup (db w') = radUserGroup (db w)
  /\ radAcct (db w') = radAcct (db w).
Proof.
  intros H groupname. rewrite (syncPlanBandwidth_fulfilled _ _ _ _ H).
  unfold afterSyncPlanBandwidth. fold groupname.
  cbn [radGroupReply radGroupCheck radCheck radReply radUserGroup radAcct].
  repeat split.
  - rewrite filter_app, filter_notWhere_same, groupReplyRows_found, app_nil_l.
    rewrite groupReplyRows_attributes. apply planToRadiusAttributes_distinct.
  - now rewrite filter_app, groupReplyRows_stripped, app_nil_r, filter_idempotent.
  - rewrite filter_app, filter_idempotent.
    assert (Hrow : filter (notWhere (fun r => String.eqb (gc_groupname r) groupname))
                     [simultaneousUseRow groupname plan] = []).
    { cbn. unfold notWhere. cbn. now rewrite String.eqb_refl. }
    now rewrite Hrow, app_nil_r.
Qed.

(** X11: [removePlanBandwidth] deletes the group's reply rows only: run
    after [syncPlanBandwidth], it leaves the group without reply row but
    with its Simultaneous-Use check row, the check table being untouched. *)
Theorem removePlanBandwidth_keeps_group_check (tenantSlug : string) (plan : Plan)
  (w w1 w2 : World) :
  radiusService.syncPlanBandwidth tenantSlug plan w = (Fulfilled tt, w1) ->
  removePlanBandwidth tenantSlug (plan_id plan) w1 = (Fulfilled tt, w2) ->
  let groupname := buildRadiusGroupname tenantSlug (plan_id plan) in
  filter (fun r => String.eqb (gr_groupname r) groupname) (radGroupReply (db w2)) = []
  /\ filter (fun r => String.eqb (gc_groupname r) groupname) (radGroupCheck (db w2))
     = [ {| gc_groupname := groupname;
            gc_attribute := "Simultaneous-Use";
            gc_op := ":=";
            gc_value :=
              Js.numberToString (Js.orNumber (simultaneousDevices plan) 1) |} ]
  /\ radGroupCheck (db w2) = radGroupCheck (db w1).
Proof.
  intros H1 H2 groupname.
  rewrite (removePlanBandwidth_fulfilled _ _ _ _ H2).
  rewrite (syncPlanBandwidth_fulfilled _ _ _ _ H1).
  unfold afterRemovePlanBandwidth, afterSyncPlanBandwidth. fold groupname.
  cbn [withRows radGroupReplyT radGroupReply radGroupCheck].
  repeat split.
  - apply filter_notWhere_same.
  - rewrite filter_app, filter_notWhere_same.
    unfold simultaneousUseRow. cbn [filter app gc_groupname].
    now rewrite String.eqb_refl.
Qed.

(** The plan "gold" is synchronised over a store that holds an older rate
    limit for its group. *)
Lemma syncPlanBandwidth_one_row_per_attribute_witness :
  exists w',
    radiusService.syncPlanBandwidth "acme" planGold worldA = (Fulfilled tt, w')
    /\ NoDup (map gr_attribute
                (filter (fun r => String.eqb (gr_groupname r) "acme_gold")
                   (radGroupReply (db w')))).
Proof.
  eexists. split; [vm_compute; reflexivity|].
  refine (proj1 (syncPlanBandwidth_one_row_per_attribute "acme" planGold worldA _ _)).
  vm_compute. reflexivity.
Defined.

(** The plan "gold" is synchronised and its bandwidth removed. *)
Lemma removePlanBandwidth_keeps_group_check_witness :
  exists w1 w2,
    radiusService.syncPlanBandwidth "acme" planGold worldA = (Fulfilled tt, w1)
    /\ removePlanBandwidth "acme" "gold" w1 = (Fulfilled tt, w2)
    /\ filter (fun r => String.eqb (gr_groupname r) "acme_gold")
         (radGroupReply (db w2)) = []
    /\ filter (fun r => String.eqb (gc_groupname r) "acme_gold")
         (radGroupCheck (db w2))
       = [ {| gc_groupname := "acme_gold"; gc_attribute := "Simultaneous-Use";
              gc_op := ":="; gc_value := "3" |} ].
Proof.
  eexists. eexists.
  split; [vm_compute; reflexivity|]. split; [vm_compute; reflexivity|].
  split.
  - refine (proj1 (removePlanBandwidth_keeps_group_check "acme" planGold worldA
                     _ _ _ _)); vm_compute; reflexivity.
  - etransitivity.
    + refine (proj1 (proj2 (removePlanBandwidth_keeps_group_check "acme" planGold
                              worldA _ _ _ _))); vm_compute; reflexivity.
    + vm_compute. reflexivity.
Defined.

(** Alice's static address replaces the old one; her other reply row stays. *)
Lemma syncSubscriberReplyAttributes_replaces_witness :
  exists w',
    syncSubscriberReplyAttributes "acme" aliceStatic (noFaults worldFaulty)
    = (Fulfilled tt, w')
    /\ radReply (db w')
       = [ {| rr_username := "acme_alice"; rr_attribute := "Framed-MTU";
              rr_op := ":="; rr_value := "1480" |};
           {| rr_username := "acme_alice"; rr_attribute := "Framed-IP-Address";
              rr_op := ":="; rr_value := "10.1.1.5" |} ]
    /\ filter (replyWhere "acme_alice" "Framed-IP-Address") (radReply (db w'))
       = [ {| rr_username := "acme_alice"; rr_attribute := "Framed-IP-Address";
              rr_op := ":="; rr_value := "10.1.1.5" |} ].
Proof.
  eexists. split; [vm_compute; reflexivity|]. split; [reflexivity|].
  refine (proj1 (syncSubscriberReplyAttributes_replaces "acme" aliceStatic
                   (noFaults worldFaulty) _ _)).
  vm_compute. reflexivity.
Defined.

(** ** Atomicity *)

Lemma statement_rejected {A : Type} (f : Store -> A * Store) (w w' : World) (e : Error) :
  statement f w = (Rejected e, w') -> db w' = db w.
Proof.
  unfold statement. destruct (faults w) as [|[e'|] later];
    intros H; inversion H; reflexivity.
Qed.

(** X12: a rejected operation writes nothing.  When any of the transactional
    operations, [removePlanBandwidth] or [cleanupStaleSessions] rejects,
    whatever statement failed, the store is the one the operation started
    from. *)
Theorem rejected_operations_write_nothing (tenantSlug : string)
  (subscriber : Subscriber) (cleartextPassword planId sweepTenant : option string)
  (plan : Plan) (minutes : option Z) (w w' : World) (e : Error) :
  radiusService.enableSubscriberRadius tenantSlug subscriber w = (Rejected e, w')
  \/ radiusService.disableSubscriberRadius tenantSlug (sub_username subscriber) w
     = (Rejected e, w')
  \/ radiusService.syncSubscriberAuth tenantSlug subscriber cleartextPassword w
     = (Rejected e, w')
  \/ syncSubscriberPlan tenantSlug (sub_username subscriber) planId w
     = (Rejected e, w')
  \/ syncSubscriberReplyAttributes tenantSlug subscriber w = (Rejected e, w')
  \/ removeSubscriberAuth tenantSlug (sub_username subscriber) w = (Rejected e, w')
  \/ radiusService.syncPlanBandwidth tenantSlug plan w = (Rejected e, w')
  \/ removePlanBandwidth tenantSlug (plan_id plan) w = (Rejected e, w')
  \/ radiusService.cleanupStaleSessions sweepTenant minutes w = (Rejected e, w') ->
  db w' = db w.
Proof.
  intros [H|[H|[H|[H|[H|[H|[H|[H|H]]]]]]]];
    try (exact (transaction_rolls_back _ _ _ _ H)).
  - unfold removePlanBandwidth, tryCatch, bind, deleteMany, throw in H.
    destruct (statement _ w) as [[n|e'] w1] eqn:E; [discriminate|].
    inversion H; subst. exact (statement_rejected _ _ _ _ E).
  - unfold radiusService.cleanupStaleSessions, tryCatch, bind, updateMany, throw,
      dateNow, ret in H.
    destruct w as [d fs c ts].
    destruct ts as [|t1 [|t2 ts]], fs as [|[e'|] fs]; cbn in H;
      inversion H; reflexivity.
Qed.

(** Disabling alice fails at its third statement: her old Auth-Type row and
    her membership are still there. *)
Lemma rejected_operations_write_nothing_witness :
  exists w',
    radiusService.disableSubscriberRadius "acme" "alice" worldFaulty
    = (Rejected (PrismaError "P1001"), w')
    /\ db w' = db worldFaulty.
Proof.
  eexists. split; [vm_compute; reflexivity|].
  refine (rejected_operations_write_nothing "acme" alice None None None planGold None
            worldFaulty _ (PrismaError "P1001") _).
  right. left. vm_compute. reflexivity.
Defined.

(** ** Device registry *)

Lemma substring_length (n : nat) (s : string) :
  String.length (String.substring 0 n s) = Nat.min n (String.length s).
Proof.
  revert s. induction n as [|n IH]; intros [|c s]; cbn; try reflexivity.
  now rewrite IH.
Qed.

Lemma syncNasDevice_run (nas : NasDevice) (w w' : Registry) :
  syncNasDevice nas w = (Fulfilled tt, w') ->
  radNas w'
  = if existsb (hasKey (nasIp nas)) (radNas w)
    then map (fun r =>
                if hasKey (nasIp nas) r
                then {| nasname := nasname r;
                        shortname := String.substring 0 32 (nas_name nas);
                        rn_type := toLowerCase (nasType nas);
                        rn_secret := nas_secret nas;
                        rn_description :=
                          match orUndefined (nas_description nas) with
                          | Some d => Some d
                          | None => rn_description r
                          end |}
                else r)
           (radNas w)
    else (radNas w
          ++ [ {| nasname := nasIp nas;
                  shortname := String.substring 0 32 (nas_name nas);
                  rn_type := toLowerCase (nasType nas);
                  rn_secret := nas_secret nas;
                  rn_description := orUndefined (nas_description nas) |} ])%list.
Proof.
  unfold syncNasDevice, taskTry, upsertNas, registryStatement, taskThrow, hasKey.
  destruct (registryFaults w) as [|[e|] later]; cbn; intros H; inversion H;
    reflexivity.
Qed.

Lemma update_strip (key : string) (f : RadNas -> RadNas) (table : list RadNas) :
  (forall r, nasname (f r) = nasname r) ->
  filter (notWhere (hasKey key)) (map (fun r => if hasKey key r then f r else r) table)
  = filter (notWhere (hasKey key)) table.
Proof.
  intros Hf. unfold notWhere. induction table as [|r table IH]; cbn; [reflexivity|].
  destruct (hasKey key r) eqn:E.
  - assert (E' : hasKey key (f r) = true) by (unfold hasKey in *; now rewrite Hf).
    rewrite E'. exact IH.
  - rewrite E. cbn. now rewrite IH.
Qed.

Lemma update_names (key : string) (f : RadNas -> RadNas) (table : list RadNas) :
  (forall r, nasname (f r) = nasname r) ->
  map nasname (map (fun r => if hasKey key r then f r else r) table)
  = map nasname table.
Proof.
  intros Hf. rewrite map_map. apply map_ext. intros r.
  now destruct (hasKey key r).
Qed.

Lemma update_kept (key : string) (f : RadNas -> RadNas) (table : list RadNas) :
  (forall r, nasname (f r) = nasname r) ->
  filter (hasKey key) (map (fun r => if hasKey key r then f r else r) table)
  = map f (filter (hasKey key) table).
Proof.
  intros Hf. induction table as [|r table IH]; cbn; [reflexivity|].
  destruct (hasKey key r) eqn:E.
  - assert (E' : hasKey key (f r) = true) by (unfold hasKey in *; now rewrite Hf).
    rewrite E'. cbn. now rewrite IH.
  - rewrite E. exact IH.
Qed.

Lemma absent_key (key : string) (table : list RadNas) :
  existsb (hasKey key) table = false ->
  forall r, In r table -> hasKey key r = false.
Proof.
  intros H r Hr. destruct (hasKey key r) eqn:E; [|reflexivity].
  assert (Hex : existsb (hasKey key) table = true)
    by (apply existsb_exists; now exists r).
  congruence.
Qed.

Lemma absent_key_filter (key : string) (table : list RadNas) :
  existsb (hasKey key) table = false ->
  filter (notWhere (hasKey key)) table = table /\ filter (hasKey key) table = [].
Proof.
  intros H. split.
  - apply filter_all. intros r Hr. unfold notWhere.
    now rewrite (absent_key key table H r Hr).
  - apply filter_none. now apply absent_key.
Qed.

Lemma syncNasDevice_registered (nas : NasDevice) (w w' : Registry) :
  syncNasDevice nas w = (Fulfilled tt, w') ->
  existsb (hasKey (nasIp nas)) (radNas w') = true.
Proof.
  intros H. rewrite (syncNasDevice_run nas w w' H).
  destruct (existsb (hasKey (nasIp nas)) (radNas w)) eqn:E.
  - apply existsb_exists in E as (r & Hr & Hk). apply existsb_exists.
    eexists. split.
    + apply in_map_iff. exists r. split; [reflexivity | exact Hr].
    + rewrite Hk. exact Hk.
  - rewrite existsb_app. cbn [existsb]. unfold hasKey at 2. cbn [nasname].
    now rewrite String.eqb_refl, orb_true_r.
Qed.

Lemma syncNasDevice_others (nas : NasDevice) (w w' : Registry) :
  syncNasDevice nas w = (Fulfilled tt, w') ->
  filter (notWhere (hasKey (nasIp nas))) (radNas w')
  = filter (notWhere (hasKey (nasIp nas))) (radNas w).
Proof.
  intros H. rewrite (syncNasDevice_run nas w w' H).
  destruct (existsb (hasKey (nasIp nas)) (radNas w)) eqn:E.
  - now apply update_strip.
  - rewrite filter_app. cbn [filter]. unfold notWhere at 2, hasKey at 2.
    cbn [nasname]. now rewrite String.eqb_refl, app_nil_r.
Qed.

Lemma removeNasDevice_run (ip : string) (w : Registry) :
  hd None (registryFaults w) = None ->
  removeNasDevice ip w
  = (Fulfilled tt,
     {| radNas := filter (notWhere (hasKey ip)) (radNas w);
        registryFaults := tl (registryFaults w) |}).
Proof.
  unfold removeNasDevice, taskTry, deleteNas, registryStatement, taskRet, taskThrow.
  fold (hasKey ip). intros Hhd.
  destruct (registryFaults w) as [|[e|] later]; cbn in Hhd; try discriminate;
    destruct (existsb (hasKey ip) (radNas w)) eqn:E; cbn; try reflexivity;
    now rewrite (proj1 (absent_key_filter ip (radNas w) E)).
Qed.

(** X13: a fulfilled [syncNasDevice] registers the device: the table holds a
    row for its IP address, and every row for that address carries the
    display name cut to at most 32 characters, the type in lower case and
    the shared secret.  The rows of other addresses are untouched, no row is
    added for an address that is already registered, and addresses that
    were unique stay unique. *)
Theorem syncNasDevice_registers (nas : NasDevice) (w w' : Registry) :
  syncNasDevice nas w = (Fulfilled tt, w') ->
  existsb (hasKey (nasIp nas)) (radNas w') = true
  /\ (forall r, In r (radNas w') -> nasname r = nasIp nas ->
        shortname r = String.substring 0 32 (nas_name nas)
        /\ (String.length (shortname r) <= 32)%nat
        /\ rn_type r = toLowerCase (nasType nas)
        /\ rn_secret r = nas_secret nas)
  /\ filter (notWhere (hasKey (nasIp nas))) (radNas w')
     = filter (notWhere (hasKey (nasIp nas))) (radNas w)
  /\ map nasname (radNas w')
     = (if existsb (hasKey (nasIp nas)) (radNas w)
        then map nasname (radNas w)
        else map nasname (radNas w) ++ [nasIp nas])%list
  /\ (NoDup (map nasname (radNas w)) -> NoDup (map nasname (radNas w'))).
Proof.
  intros H. rewrite (syncNasDevice_run nas w w' H).
  set (key := nasIp nas).
  set (update := fun r : RadNas =>
        {| nasname := nasname r;
           shortname := String.substring 0 32 (nas_name nas);
           rn_type := toLowerCase (nasType nas);
           rn_secret := nas_secret nas;
           rn_description :=
             match orUndefined (nas_description nas) with
             | Some d => Some d
             | None => rn_description r
             end |}).
  assert (Hf : forall r, nasname (update r) = nasname r) by reflexivity.
  assert (Hlen : (String.length (String.substring 0 32 (nas_name nas)) <= 32)%nat).
  { rewrite substring_length. apply Nat.le_min_l. }
  destruct (existsb (hasKey key) (radNas w)) eqn:E.
  - split; [|split; [|split; [|split]]].
    + apply existsb_exists in E as (r & Hr & Hk). apply existsb_exists.
      exists (update r). split; [|exact Hk].
      apply in_map_iff. exists r. now rewrite Hk.
    + intros r Hin Hname. apply in_map_iff in Hin as (r0 & <- & _).
      destruct (hasKey key r0) eqn:E0; [now repeat split|].
      unfold hasKey in E0. apply String.eqb_neq in E0. contradiction.
    + now apply update_strip.
    + now apply update_names.
    + now rewrite update_names.
  - destruct (absent_key_filter key (radNas w) E) as [Hkeep Hnone].
    assert (Hnew : hasKey key
                     {| nasname := key;
                        shortname := String.substring 0 32 (nas_name nas);
                        rn_type := toLowerCase (nasType nas);
                        rn_secret := nas_secret nas;
                        rn_description := orUndefined (nas_description nas) |}
                   = true) by apply String.eqb_refl.
    split; [|split; [|split; [|split]]].
    + rewrite existsb_app. cbn [existsb]. now rewrite Hnew, orb_true_r.
    + intros r Hin Hname. apply in_app_or in Hin as [Hin | [<- | []]].
      * pose proof (absent_key key (radNas w) E r Hin) as Hr.
        unfold hasKey in Hr. apply String.eqb_neq in Hr. contradiction.
      * now repeat split.
    + rewrite filter_app. cbn [filter]. unfold notWhere at 2.
      now rewrite Hnew, app_nil_r.
    + now rewrite map_app.
    + intros Hnd. rewrite map_app. cbn [map nasname].
      apply (Permutation_NoDup (l := key :: map nasname (radNas w))).
      * apply Permutation_cons_append.
      * constructor; [|exact Hnd]. intros Hin.
        apply in_map_iff in Hin as (r & Hk & Hr).
        pose proof (absent_key key (radNas w) E r Hr) as Hr'.
        unfold hasKey in Hr'. apply String.eqb_neq in Hr'. contradiction.
Qed.

(** The row of [routerNorth] is rewritten; its name is cut to 32 characters. *)
Lemma syncNasDevice_registers_witness :
  exists w',
    syncNasDevice routerNorth registryA = (Fulfilled tt, w')
    /\ radNas w'
       = [ {| nasname := "10.0.0.1"; shortname := "North Tower Rooftop Router, Buil";
              rn_type := "mikrotik"; rn_secret := "s3cret";
              rn_description := Some "rooftop" |};
           {| nasname := "10.0.0.2"; shortname := "south"; rn_type := "mikrotik";
              rn_secret := "zzz"; rn_description := None |} ]
    /\ existsb (hasKey "10.0.0.1") (radNas w') = true.
Proof.
  eexists. split; [vm_compute; reflexivity|]. split; [reflexivity|].
  refine (proj1 (syncNasDevice_registers routerNorth registryA _ _)).
  vm_compute. reflexivity.
Defined.

(** X14: [syncNasDevice] is idempotent: a second synchronisation of the same
    device leaves the table exactly as the first one left it. *)
Theorem syncNasDevice_idempotent (nas : NasDevice) (w w1 w2 : Registry) :
  syncNasDevice nas w = (Fulfilled tt, w1) ->
  syncNasDevice nas w1 = (Fulfilled tt, w2) ->
  radNas w2 = radNas w1.
Proof.
  intros H1 H2.
  rewrite (syncNasDevice_run nas w1 w2 H2), (syncNasDevice_registered nas w w1 H1).
  rewrite (syncNasDevice_run nas w w1 H1).
  set (key := nasIp nas).
  set (g := fun r : RadNas =>
        if hasKey key r
        then {| nasname := nasname r;
                shortname := String.substring 0 32 (nas_name nas);
                rn_type := toLowerCase (nasType nas);
                rn_secret := nas_secret nas;
                rn_description :=
                  match orUndefined (nas_description nas) with
                  | Some d => Some d
                  | None => rn_description r
                  end |}
        else r).
  assert (Hg : forall r, g (g r) = g r).
  { intros r. unfold g. destruct (hasKey key r) eqn:E.
    - change (hasKey key _) with (hasKey key r). rewrite E. cbn.
      now destruct (orUndefined (nas_description nas)).
    - now rewrite E. }
  destruct (existsb (hasKey key) (radNas w)) eqn:E.
  - rewrite map_map. apply map_ext. exact Hg.
  - rewrite map_app. f_equal.
    + rewrite <- (map_id (radNas w)) at 2. apply map_ext_in. intros r Hr.
      unfold g. now rewrite (absent_key key (radNas w) E r Hr).
    + cbn. unfold g, hasKey. cbn. rewrite String.eqb_refl.
      now destruct (orUndefined (nas_description nas)).
Qed.

(** The router is synchronised twice. *)
Lemma syncNasDevice_idempotent_witness :
  exists w1 w2,
    syncNasDevice routerNorth registryA = (Fulfilled tt, w1)
    /\ syncNasDevice routerNorth w1 = (Fulfilled tt, w2)
    /\ radNas w2 = radNas w1.
Proof.
  eexists. eexists.
  split; [vm_compute; reflexivity|]. split; [vm_compute; reflexivity|].
  refine (syncNasDevice_idempotent routerNorth registryA _ _ _ _);
    vm_compute; reflexivity.
Defined.

(** X15: synchronising a registered device whose description is [null] or
    empty does not clear the stored description: every row keeps the
    description it had. *)
Theorem syncNasDevice_keeps_description (nas : NasDevice) (w w' : Registry) :
  syncNasDevice nas w = (Fulfilled tt, w') ->
  existsb (hasKey (nasIp nas)) (radNas w) = true ->
  nas_description nas = None \/ nas_description nas = Some EmptyString ->
  map rn_description (radNas w') = map rn_description (radNas w).
Proof.
  intros H Hreg Hdesc.
  rewrite (syncNasDevice_run nas w w' H), Hreg.
  assert (Hund : orUndefined (nas_description nas) = None)
    by (destruct Hdesc as [-> | ->]; reflexivity).
  rewrite Hund, map_map. apply map_ext. intros r.
  now destruct (hasKey (nasIp nas) r).
Qed.

(** The router keeps the description "rooftop". *)
Lemma syncNasDevice_keeps_description_witness :
  exists w',
    syncNasDevice routerNorth registryA = (Fulfilled tt, w')
    /\ map rn_description (radNas w') = [Some "rooftop"; None].
Proof.
  eexists. split; [vm_compute; reflexivity|].
  refine (syncNasDevice_keeps_description routerNorth registryA _ _ _ _).
  - vm_compute. reflexivity.
  - reflexivity.
  - left. reflexivity.
Defined.

(** X16: removal is idempotent.  When no database fault is pending,
    [removeNasDevice] fulfils whether or not the device is registered, and
    leaves exactly the rows of the other addresses; it never rejects with the
    "not found" code P2025, and a rejected removal leaves the table as it
    was. *)
Theorem removeNasDevice_idempotent (ip : string) (w : Registry) :
  (hd None (registryFaults w) = None ->
   exists w',
     removeNasDevice ip w = (Fulfilled tt, w')
     /\ radNas w' = filter (notWhere (hasKey ip)) (radNas w)
     /\ existsb (hasKey ip) (radNas w') = false)
  /\ (forall e w',
        removeNasDevice ip w = (Rejected e, w') ->
        e <> PrismaError "P2025" /\ radNas w' = radNas w).
Proof.
  split.
  - intros Hhd. rewrite (removeNasDevice_run ip w Hhd).
    eexists. split; [reflexivity|]. split; [reflexivity|]. cbn.
    destruct (existsb _ _) eqn:E; [|reflexivity].
    apply existsb_exists in E as (r & Hr & Hk).
    apply filter_In in Hr as [_ Hr]. unfold notWhere in Hr. now rewrite Hk in Hr.
  - intros e w'.
    unfold removeNasDevice, taskTry, deleteNas, registryStatement, taskRet, taskThrow.
    destruct (registryFaults w) as [|[e'|] later];
      try (destruct (existsb _ (radNas w)); cbn; discriminate).
    cbn. destruct e' as [code|message].
    + destruct (String.eqb_spec code "P2025") as [->|Hne]; [discriminate|].
      intros H. inversion H; subst. split; [congruence | reflexivity].
    + intros H. inversion H; subst. split; [discriminate | reflexivity].
Qed.

(** Removing an address that is not registered. *)
Lemma removeNasDevice_idempotent_witness :
  exists w',
    removeNasDevice "10.9.9.9" registryA = (Fulfilled tt, w')
    /\ radNas w' = radNas registryA.
Proof.
  destruct (proj1 (removeNasDevice_idempotent "10.9.9.9" registryA) eq_refl)
    as (w' & Hrun & Htable & _).
  exists w'. split; [exact Hrun|]. rewrite Htable. reflexivity.
Defined.

(** X17: registering a device that was not registered and removing it again
    gives back the table as it was. *)
Theorem syncNasDevice_then_remove (nas : NasDevice) (w w1 w2 : Registry) :
  existsb (hasKey (nasIp nas)) (radNas w) = false ->
  syncNasDevice nas w = (Fulfilled tt, w1) ->
  hd None (registryFaults w1) = None ->
  removeNasDevice (nasIp nas) w1 = (Fulfilled tt, w2) ->
  radNas w2 = radNas w.
Proof.
  intros Habsent H1 Hhd H2.
  rewrite (removeNasDevice_run (nasIp nas) w1 Hhd) in H2.
  inversion H2; subst w2. cbn [radNas].
  rewrite (syncNasDevice_others nas w w1 H1). now apply absent_key_filter.
Qed.

(** A router that is not in the registry is registered and removed. *)
Lemma syncNasDevice_then_remove_witness :
  exists w1 w2,
    syncNasDevice routerNorth {| radNas := tl (radNas registryA); registryFaults := [] |}
    = (Fulfilled tt, w1)
    /\ removeNasDevice "10.0.0.1" w1 = (Fulfilled tt, w2)
    /\ radNas w2 = tl (radNas registryA).
Proof.
  eexists. eexists.
  split; [vm_compute; reflexivity|]. split; [vm_compute; reflexivity|].
  refine (syncNasDevice_then_remove routerNorth
            {| radNas := tl (radNas registryA); registryFaults := [] |} _ _ _ _ _ _);
    vm_compute; reflexivity.
Defined.

(** ** Session queries *)

Lemma startsNoEarlier_total (a b : RadAcct) :
  startsNoEarlier a b = false -> startsNoEarlier b a = true.
Proof.
  unfold startsNoEarlier.
  destruct (acctstarttime a) as [x|], (acctstarttime b) as [y|]; try easy.
  rewrite Z.leb_gt, Z.leb_le. lia.
Qed.

Lemma startsNoEarlier_trans (a b c : RadAcct) :
  startsNoEarlier a b = true -> startsNoEarlier b c = true ->
  startsNoEarlier a c = true.
Proof.
  unfold startsNoEarlier.
  destruct (acctstarttime a) as [x|], (acctstarttime b) as [y|],
    (acctstarttime c) as [z|]; try easy.
  rewrite !Z.leb_le. lia.
Qed.

Lemma insertByStart_same (r : RadAcct) (l : list RadAcct) :
  Permutation (insertByStart r l) (r :: l).
Proof.
  induction l as [|x l IH]; cbn; [apply Permutation_refl|].
  destruct (startsNoEarlier r x); [apply Permutation_refl|].
  apply Permutation_trans with (x :: r :: l); [now constructor | apply perm_swap].
Qed.

Lemma orderByStartDesc_same (l : list RadAcct) :
  Permutation (orderByStartDesc l) l.
Proof.
  induction l as [|r l IH]; cbn; [constructor|].
  apply Permutation_trans with (r :: orderByStartDesc l).
  - apply insertByStart_same.
  - now constructor.
Qed.

Lemma insertByStart_descending (r : RadAcct) (l : list RadAcct) :
  descending l -> descending (insertByStart r l).
Proof.
  induction l as [|x l IH]; cbn; intros H.
  - split; [constructor | exact I].
  - destruct H as [Hx Hl]. destruct (startsNoEarlier r x) eqn:E; cbn.
    + split; [|split; assumption].
      constructor; [exact E|].
      apply Forall_impl with (2 := Hx). intros y Hy.
      now apply startsNoEarlier_trans with x.
    + split; [|now apply IH].
      apply (Permutation_Forall (x := r :: l)).
      * apply Permutation_sym, insertByStart_same.
      * constructor; [now apply startsNoEarlier_total | exact Hx].
Qed.

Lemma orderByStartDesc_descending (l : list RadAcct) :
  descending (orderByStartDesc l).
Proof.
  induction l as [|r l IH]; cbn; [exact I|]. now apply insertByStart_descending.
Qed.

Lemma findMany_run {R : Type} (t : Table R) (where_ : R -> bool)
  (orderBy : list R -> list R) (w w' : World) (result : list R) :
  tryCatch (findMany t where_ orderBy) (fun error => throw error) w
  = (Fulfilled result, w') ->
  result = orderBy (filter where_ (rows t (db w))) /\ db w' = db w.
Proof.
  unfold tryCatch, findMany, statement, throw.
  destruct (faults w) as [|[e|] later]; cbn; intros H; inversion H; now split.
Qed.

(** X18: what [getUserActiveSessions] returns.  The result holds exactly the
    open sessions of the namespaced username, each as often as the table
    holds it, in descending order of start time; the query changes
    nothing. *)
Theorem getUserActiveSessions_result (tenantSlug username : string)
  (w w' : World) (sessions : list RadAcct) :
  getUserActiveSessions tenantSlug username w = (Fulfilled sessions, w') ->
  Permutation sessions
    (filter (fun r => String.eqb (acct_username r)
                        (buildRadiusUsername tenantSlug username)
                      && radiusService.isNull (acctstoptime r))
       (radAcct (db w)))
  /\ (forall r, In r sessions <->
                In r (radAcct (db w))
                /\ acct_username r = buildRadiusUsername tenantSlug username
                /\ acctstoptime r = None)
  /\ descending sessions
  /\ db w' = db w.
Proof.
  intros H. apply findMany_run in H as [-> Hdb]. cbn [rows radAcctT].
  split; [apply orderByStartDesc_same|].
  split; [|split; [apply orderByStartDesc_descending | exact Hdb]].
  intros r. split.
  - intros Hin.
    apply (Permutation_in _ (orderByStartDesc_same _)) in Hin.
    apply filter_In in Hin as [Hin Hr]. apply andb_true_iff in Hr as [Hu Hs].
    split; [exact Hin|]. split; [now apply String.eqb_eq | now apply isNull_true].
  - intros (Hin & Hu & Hs).
    apply (Permutation_in _ (Permutation_sym (orderByStartDesc_same _))).
    apply filter_In. split; [exact Hin|].
    apply andb_true_iff. split; [now apply String.eqb_eq | now apply isNull_true].
Qed.

(** Alice's two open sessions, the later one first. *)
Lemma getUserActiveSessions_result_witness :
  exists w',
    getUserActiveSessions "acme" "alice" worldHistory
    = (Fulfilled [ sessionOf "acme_alice" "10.0.0.2" 400 None;
                   sessionOf "acme_alice" "10.0.0.1" 300 None ], w')
    /\ descending [ sessionOf "acme_alice" "10.0.0.2" 400 None;
                    sessionOf "acme_alice" "10.0.0.1" 300 None ].
Proof.
  eexists. split; [vm_compute; reflexivity|].
  refine (proj1 (proj2 (proj2
    (getUserActiveSessions_result "acme" "alice" worldHistory _ _ _)))).
  vm_compute. reflexivity.
Defined.



(** With a backslash in the slug the inclusion fails: the open session of
    the subscriber is active and is not online. *)
Lemma active_session_offline_with_backslash :
  exists w1 w2,
    getUserActiveSessions (String backslash "isp") "bob" worldEscaped
    = (Fulfilled (radAcct (db worldEscaped)), w1)
    /\ radAcct (db worldEscaped) <> []
    /\ getOnlineUsers (String backslash "isp") w1 = (Fulfilled [], w2).
Proof.
  eexists. eexists. split; [vm_compute; reflexivity|].
  split; [discriminate | vm_compute; reflexivity].
Qed.

(** X20: how far tenants are isolated in [getOnlineUsers].  For two tenant
    slugs without [%], [_] and backslash, no session is returned for both
    when neither slug is a prefix of the other.  When one slug is the other
    followed by more characters, isolation fails: every open session of a
    subscriber of the longer slug is returned for the shorter slug too. *)
Theorem getOnlineUsers_isolation_limits (tenantA tenantB : string)
  (w wa wb : World) (onlineA onlineB : list RadAcct) :
  plain tenantA = true ->
  plain tenantB = true ->
  getOnlineUsers tenantA w = (Fulfilled onlineA, wa) ->
  getOnlineUsers tenantB w = (Fulfilled onlineB, wb) ->
  (String.prefix tenantA tenantB = false ->
   String.prefix tenantB tenantA = false ->
   forall r, In r onlineA -> In r onlineB -> False)
  /\ (forall more username r,
        tenantB = tenantA ++ more -> more <> EmptyString ->
        In r (radAcct (db w)) -> acctstoptime r = None ->
        acct_username r = buildRadiusUsername tenantB username ->
        In r onlineA /\ In r onlineB).
Proof.
  intros Ha Hb H1 H2.
  apply findMany_run in H1 as [-> _], H2 as [-> _]. cbn [rows radAcctT].
  split.
  - intros Hab Hba r Hra Hrb.
    apply (Permutation_in _ (orderByStartDesc_same _)) in Hra, Hrb.
    apply filter_In in Hra as [_ Hra], Hrb as [_ Hrb].
    apply andb_true_iff in Hra as [Hra _], Hrb as [Hrb _].
    apply (startsWith_plain _ _ Ha) in Hra as (ca & restA & HA).
    apply (startsWith_plain _ _ Hb) in Hrb as (cb & restB & HB).
    rewrite HA in HB.
    destruct (prefixes_comparable _ _ _ _ HB); congruence.
  - intros more username r -> Hmore Hin Hopen Hname.
    assert (Hnull : radiusService.isNull (acctstoptime r) = true)
      by now apply isNull_true.
    split; apply (Permutation_in _ (Permutation_sym (orderByStartDesc_same _)));
      apply filter_In; (split; [exact Hin|]); rewrite Hnull, andb_true_r, Hname.
    + apply (startsWith_plain _ _ Ha). unfold buildRadiusUsername.
      destruct more as [|c more]; [congruence|].
      exists c, (more ++ "_" ++ username). rewrite <- !string_app_assoc.
      cbn [append]. now rewrite !string_app_assoc.
    + apply startsWith_namespaced. unfold plain in Hb.
      apply andb_true_iff in Hb as [_ Hb]. now apply negb_true_iff in Hb.
Qed.

(** The tenants "acme" and "globex" share no session; the session of the
    tenant "acmes" is returned for "acme" too. *)
Lemma getOnlineUsers_isolation_limits_witness :
  (exists wa wb onlineA onlineB,
      getOnlineUsers "acme" worldNeighbours = (Fulfilled onlineA, wa)
      /\ getOnlineUsers "globex" worldNeighbours = (Fulfilled onlineB, wb)
      /\ List.length onlineA = 3%nat /\ List.length onlineB = 1%nat
      /\ forall r, In r onlineA -> In r onlineB -> False)
  /\ (exists wa wb onlineA onlineB,
         getOnlineUsers "acme" worldNeighbours = (Fulfilled onlineA, wa)
         /\ getOnlineUsers "acmes" worldNeighbours = (Fulfilled onlineB, wb)
         /\ In (sessionStarted "acmes_bob" 1700000000000 20) onlineA
         /\ In (sessionStarted "acmes_bob" 1700000000000 20) onlineB).
Proof.
  split.
  - eexists. eexists. eexists. eexists.
    split; [vm_compute; reflexivity|]. split; [vm_compute; reflexivity|].
    split; [reflexivity|]. split; [reflexivity|].
    refine (proj1 (getOnlineUsers_isolation_limits "acme" "globex" worldNeighbours
                     _ _ _ _ _ _ _ _) _ _);
      vm_compute; reflexivity.
  - eexists. eexists. eexists. eexists.
    split; [vm_compute; reflexivity|]. split; [vm_compute; reflexivity|].
    refine (proj2 (getOnlineUsers_isolation_limits "acme" "acmes" worldNeighbours
                     _ _ _ _ _ _ _ _) "s" "bob" _ _ _ _ _ _);
      try (vm_compute; reflexivity); try discriminate.
    right. now left.
Defined.

(** ** Session history *)

Lemma ceilDiv_bounds (total pageSize : Z) :
  0 < pageSize ->
  (ceilDiv total pageSize - 1) * pageSize < total <= ceilDiv total pageSize * pageSize.
Proof.
  intros Hp. unfold ceilDiv.
  pose proof (Z.div_mod (- total) pageSize ltac:(lia)) as Hdiv.
  pose proof (Z.mod_pos_bound (- total) pageSize Hp) as Hmod.
  nia.
Qed.

Lemma getSessionHistory_run (params : SessionHistoryParams) (w w' : World)
  (data : list RadAcct) (meta : PaginationMeta) :
  getSessionHistory params w = (Fulfilled (data, meta), w') ->
  let page := match sh_page params with Some p => p | None => 1 end in
  let pageSize := match sh_pageSize params with Some s => s | None => 50 end in
  let matching := orderByStartDesc (filter (historyWhere params) (radAcct (db w))) in
  0 <= (page - 1) * pageSize
  /\ 0 <= pageSize
  /\ data = firstn (Z.to_nat pageSize) (skipn (Z.to_nat ((page - 1) * pageSize)) matching)
  /\ meta = {| meta_total := Z.of_nat (List.length matching);
               meta_page := page;
               meta_pageSize := pageSize;
               meta_totalPages := ceilDiv (Z.of_nat (List.length matching)) pageSize |}
  /\ db w' = db w.
Proof.
  intros H page pageSize matching.
  unfold getSessionHistory in H. fold page pageSize in H.
  unfold tryCatch, bind, promiseAll2, findManyPage, count, throw, ret in H.
  assert (Hlen : List.length matching
                 = List.length (filter (historyWhere params) (radAcct (db w)))).
  { apply Permutation_length, orderByStartDesc_same. }
  destruct ((page - 1) * pageSize <? 0) eqn:Eskip; cbn [orb] in H.
  - unfold statement in H. destruct (faults w) as [|[e|] later]; discriminate.
  - destruct (pageSize <? 0) eqn:Etake.
    + unfold statement in H. destruct (faults w) as [|[e|] later]; discriminate.
    + apply Z.ltb_ge in Eskip, Etake.
      unfold statement in H.
      destruct (faults w) as [|[e|] [|[e'|] later]]; cbn in H;
        inversion H; subst; rewrite ?Hlen; repeat split; assumption.
Qed.

Lemma historyWhere_spec (params : SessionHistoryParams) (r : RadAcct) :
  historyWhere params r = true <-> inHistory params r.
Proof.
  unfold historyWhere, inHistory. rewrite !andb_true_iff.
  assert (Huser :
    match sh_subscriberUsername params with
    | Some subscriber =>
        if Js.truthyString (sh_subscriberUsername params)
        then String.eqb (acct_username r)
               (buildRadiusUsername (sh_tenantSlug params) subscriber)
        else startsWith (sh_tenantSlug params ++ "_") (acct_username r)
    | None => startsWith (sh_tenantSlug params ++ "_") (acct_username r)
    end = true
    <-> match sh_subscriberUsername params with
        | Some subscriber =>
            if String.eqb subscriber EmptyString
            then Like (sh_tenantSlug params ++ "_%") (acct_username r)
            else acct_username r = sh_tenantSlug params ++ "_" ++ subscriber
        | None => Like (sh_tenantSlug params ++ "_%") (acct_username r)
        end).
  { destruct (sh_subscriberUsername params) as [subscriber|];
      [|apply startsWith_Like].
    cbn [Js.truthyString]. destruct (String.eqb subscriber EmptyString); cbn [negb].
    - apply startsWith_Like.
    - apply String.eqb_eq. }
  assert (Hnas :
    match sh_nasIp params with
    | Some ip =>
        if Js.truthyString (sh_nasIp params)
        then String.eqb (nasipaddress r) ip else true
    | None => true
    end = true
    <-> match sh_nasIp params with
        | Some ip => ip = EmptyString \/ nasipaddress r = ip
        | None => True
        end).
  { destruct (sh_nasIp params) as [ip|]; [|tauto]. cbn [Js.truthyString].
    destruct (String.eqb_spec ip EmptyString) as [->|Hne]; cbn [negb].
    - split; auto.
    - rewrite String.eqb_eq. split; [now right | now intros [H|H]]. }
  assert (Hstart :
    match sh_startDate params with
    | Some bound => gteTime (acctstarttime r) bound
    | None => true
    end = true
    <-> match sh_startDate params with
        | Some bound =>
            exists started, acctstarttime r = Some started /\ bound <= started
        | None => True
        end).
  { destruct (sh_startDate params) as [bound|]; [|tauto]. unfold gteTime.
    destruct (acctstarttime r) as [v|].
    - rewrite Z.leb_le. split; [intros H; now exists v|].
      intros (started & Hs & H). now injection Hs as ->.
    - split; [discriminate | intros (started & Hs & _); discriminate]. }
  assert (Hend :
    match sh_endDate params with
    | Some bound => lteTime (acctstarttime r) bound
    | None => true
    end = true
    <-> match sh_endDate params with
        | Some bound =>
            exists started, acctstarttime r = Some started /\ started <= bound
        | None => True
        end).
  { destruct (sh_endDate params) as [bound|]; [|tauto]. unfold lteTime.
    destruct (acctstarttime r) as [v|].
    - rewrite Z.leb_le. split; [intros H; now exists v|].
      intros (started & Hs & H). now injection Hs as ->.
    - split; [discriminate | intros (started & Hs & _); discriminate]. }
  assert (Hactive :
    match sh_onlyActive params with
    | Some true => radiusService.isNull (acctstoptime r)
    | _ => true
    end = true
    <-> (sh_onlyActive params = Some true -> acctstoptime r = None)).
  { destruct (sh_onlyActive params) as [[|]|].
    - rewrite isNull_true. split; auto.
    - split; [discriminate | reflexivity].
    - split; [discriminate | reflexivity]. }
  rewrite Huser, Hnas, Hstart, Hend, Hactive. tauto.
Qed.

Lemma descending_skipn (n : nat) (l : list RadAcct) :
  descending l -> descending (skipn n l).
Proof.
  revert l. induction n as [|n IH]; intros l H; [exact H|].
  destruct l as [|x l]; [exact I|]. cbn [skipn]. apply IH. now destruct H.
Qed.

Lemma descending_firstn (n : nat) (l : list RadAcct) :
  descending l -> descending (firstn n l).
Proof.
  revert l. induction n as [|n IH]; intros l H; [exact I|].
  destruct l as [|x l]; [exact I|]. cbn [firstn descending]. destruct H as [Hx Hl].
  split; [|now apply IH].
  apply Forall_forall. intros y Hy. apply (proj1 (Forall_forall _ _) Hx).
  revert Hy. clear. revert l. induction n as [|n IH]; intros l Hy; [contradiction|].
  destruct l as [|z l]; [contradiction|]. cbn [firstn] in Hy.
  destruct Hy as [->|Hy]; [now left | right; now apply IH].
Qed.

Lemma startsNoEarlier_antisym (a b : RadAcct) :
  startsNoEarlier a b = true -> startsNoEarlier b a = true ->
  acctstarttime a = acctstarttime b.
Proof.
  unfold startsNoEarlier.
  destruct (acctstarttime a) as [x|], (acctstarttime b) as [y|]; try easy.
  rewrite !Z.leb_le. intros. f_equal. lia.
Qed.

(** Without two sessions of the same start time there is one descending
    order only. *)
Lemma descending_unique (l1 : list RadAcct) :
  forall l2,
    Permutation l1 l2 -> descending l1 -> descending l2 ->
    NoDup (map acctstarttime l1) -> l1 = l2.
Proof.
  induction l1 as [|x l1 IH]; intros l2 Hperm H1 H2 Hnodup.
  - apply Permutation_nil in Hperm. now subst.
  - destruct l2 as [|y l2].
    { apply Permutation_sym, Permutation_nil in Hperm. discriminate. }
    assert (Hxy : x = y).
    { destruct H1 as [Hx _], H2 as [Hy _].
      assert (Hin_y : In y (x :: l1))
        by (apply (Permutation_in _ (Permutation_sym Hperm)); now left).
      assert (Hin_x : In x (y :: l2))
        by (apply (Permutation_in _ Hperm); now left).
      destruct Hin_y as [Heq|Hin_y]; [exact Heq|].
      destruct Hin_x as [Heq|Hin_x]; [now symmetry|].
      pose proof (proj1 (Forall_forall _ _) Hx y Hin_y) as Hxy.
      pose proof (proj1 (Forall_forall _ _) Hy x Hin_x) as Hyx.
      pose proof (startsNoEarlier_antisym _ _ Hxy Hyx) as Hsame.
      cbn [map] in Hnodup. inversion Hnodup as [|? ? Hnot _]. exfalso. apply Hnot.
      rewrite Hsame. now apply in_map. }
    subst y. f_equal. apply IH.
    + now apply Permutation_cons_inv in Hperm.
    + now destruct H1.
    + now destruct H2.
    + cbn [map] in Hnodup. now inversion Hnodup.
Qed.

Lemma page_In (n k : nat) (l : list RadAcct) (r : RadAcct) :
  In r (firstn n (skipn k l)) -> In r l.
Proof.
  intros H. rewrite <- (firstn_skipn k l). apply in_or_app. right.
  rewrite <- (firstn_skipn n (skipn k l)). apply in_or_app. now left.
Qed.

Lemma length_page (n k : nat) (l : list RadAcct) :
  List.length (firstn n (skipn k l)) = Nat.min n (List.length l - k).
Proof. now rewrite length_firstn, length_skipn. Qed.

(** X21: pagination of [getSessionHistory].  For a page number and a page
    size of at least 1, a fulfilled query reports as total the number of
    sessions asked for (those of the subscriber, or those whose username
    matches the pattern of the tenant, with the optional filters), returns
    only such sessions, in descending order of start time, as many as the
    page size and the sessions left after the earlier pages allow, and
    reports the least number of pages that holds them all; a page after the
    last one is empty.  When no two of the sessions asked for have the same
    start time, the page is the slice of their descending order that starts
    after the earlier pages: the session at position [i] of the order is at
    position [i mod pageSize] of page [i / pageSize + 1].  The query changes
    nothing. *)
Theorem getSessionHistory_pages (params : SessionHistoryParams) (w w' : World)
  (data : list RadAcct) (meta : PaginationMeta) :
  getSessionHistory params w = (Fulfilled (data, meta), w') ->
  1 <= meta_page meta -> 1 <= meta_pageSize meta ->
  let matching := filter (historyWhere params) (radAcct (db w)) in
  (forall r, In r matching <-> In r (radAcct (db w)) /\ inHistory params r)
  /\ meta_page meta = match sh_page params with Some p => p | None => 1 end
  /\ meta_pageSize meta = match sh_pageSize params with Some s => s | None => 50 end
  /\ meta_total meta = Z.of_nat (List.length matching)
  /\ Z.of_nat (List.length data)
     = Z.min (meta_pageSize meta)
         (Z.max 0 (meta_total meta - (meta_page meta - 1) * meta_pageSize meta))
  /\ (meta_totalPages meta - 1) * meta_pageSize meta < meta_total meta
       <= meta_totalPages meta * meta_pageSize meta
  /\ (forall r, In r data -> In r (radAcct (db w)) /\ inHistory params r)
  /\ descending data
  /\ (meta_totalPages meta < meta_page meta -> data = [])
  /\ (NoDup (map acctstarttime matching) ->
      forall sorted,
        Permutation sorted matching -> descending sorted ->
        data = firstn (Z.to_nat (meta_pageSize meta))
                 (skipn (Z.to_nat ((meta_page meta - 1) * meta_pageSize meta)) sorted)
        /\ forall i : nat,
             Z.of_nat i / meta_pageSize meta + 1 = meta_page meta ->
             nth_error data (Z.to_nat (Z.of_nat i mod meta_pageSize meta))
             = nth_error sorted i)
  /\ db w' = db w.
Proof.
  intros H Hpage Hsize matching.
  apply getSessionHistory_run in H as (Hskip & Htake & Hdata & Hmeta & Hdb).
  fold matching in Hdata, Hmeta.
  rewrite Hmeta in *. cbn [meta_page meta_pageSize meta_total meta_totalPages] in *.
  set (page := match sh_page params with Some p => p | None => 1 end) in *.
  set (pageSize := match sh_pageSize params with Some s => s | None => 50 end) in *.
  assert (Hlen : List.length (orderByStartDesc matching) = List.length matching)
    by apply Permutation_length, orderByStartDesc_same.
  rewrite Hlen in *.
  pose proof (ceilDiv_bounds (Z.of_nat (List.length matching)) pageSize ltac:(lia))
    as Hceil.
  assert (Hmatching : forall r,
             In r matching <-> In r (radAcct (db w)) /\ inHistory params r).
  { intros r. unfold matching. rewrite filter_In, historyWhere_spec. tauto. }
  assert (Hin : forall r, In r data -> In r matching).
  { intros r Hr. rewrite Hdata in Hr.
    apply (Permutation_in _ (orderByStartDesc_same _)).
    eapply page_In. exact Hr. }
  split; [exact Hmatching|].
  split; [reflexivity|]. split; [reflexivity|]. split; [reflexivity|].
  split; [|split; [exact Hceil|]].
  { rewrite Hdata, length_page, Hlen. lia. }
  split; [intros r Hr; now apply Hmatching, Hin|].
  split.
  { rewrite Hdata. apply descending_firstn, descending_skipn,
      orderByStartDesc_descending. }
  split.
  { intros Hlast. rewrite Hdata.
    rewrite skipn_all2; [now destruct (Z.to_nat pageSize)|]. rewrite Hlen. nia. }
  split; [|exact Hdb].
  intros Hnodup sorted Hperm Hsorted.
  assert (Hsame : sorted = orderByStartDesc matching).
  { apply descending_unique.
    - apply Permutation_trans with matching; [exact Hperm|].
      apply Permutation_sym, orderByStartDesc_same.
    - exact Hsorted.
    - apply orderByStartDesc_descending.
    - apply (Permutation_NoDup (l := map acctstarttime matching)); [|exact Hnodup].
      apply Permutation_map, Permutation_sym, Hperm. }
  rewrite Hsame. split; [exact Hdata|].
  intros i Hi. rewrite Hdata, nth_error_firstn, nth_error_skipn.
  pose proof (Z.mod_pos_bound (Z.of_nat i) pageSize ltac:(lia)) as Hmod.
  pose proof (Z.div_mod (Z.of_nat i) pageSize ltac:(lia)) as Hdiv.
  replace (Z.to_nat (Z.of_nat i mod pageSize) <? Z.to_nat pageSize)%nat with true
    by (symmetry; apply Nat.ltb_lt; lia).
  f_equal. nia.
Qed.

(** The third page, two to a page, of the five sessions of "acme", no two of
    which started at the same time: the oldest session. *)
Lemma getSessionHistory_pages_witness :
  exists w' data meta,
    getSessionHistory thirdPageOfTwo worldHistory = (Fulfilled (data, meta), w')
    /\ data = [sessionOf "acme_carol" "10.0.0.2" 50 (Some 60)]
    /\ meta = {| meta_total := 5; meta_page := 3; meta_pageSize := 2;
                 meta_totalPages := 3 |}
    /\ NoDup (map acctstarttime
                (filter (historyWhere thirdPageOfTwo) (radAcct (db worldHistory))))
    /\ (meta_totalPages meta - 1) * meta_pageSize meta < meta_total meta
         <= meta_totalPages meta * meta_pageSize meta.
Proof.
  eexists. eexists. eexists.
  split; [vm_compute; reflexivity|]. split; [reflexivity|]. split; [reflexivity|].
  split.
  - vm_compute. repeat constructor; cbn; intuition discriminate.
  - refine (proj1 (proj2 (proj2 (proj2 (proj2 (proj2
      (getSessionHistory_pages thirdPageOfTwo worldHistory _ _ _ _ _ _))))))).
    + vm_compute. reflexivity.
    + vm_compute. discriminate.
    + vm_compute. discriminate.
Defined.

(** ** Disconnecting every session *)

Lemma disconnectUser_fulfils (send : CoaDisconnectParams -> Async bool)
  (nasIp username secret : string) (w : World) :
  exists success w',
    radiusService.disconnectUser send nasIp username secret w = (Fulfilled success, w')
    /\ (success = true ->
        exists w1,
          send {| cd_nasIp := nasIp; cd_secret := secret; cd_username := username |} w
          = (Fulfilled true, w1)).
Proof.
  unfold radiusService.disconnectUser, tryCatch, bind, ret.
  destruct (send _ w) as [[success|error] w1].
  - exists success, w1. split; [reflexivity|]. intros ->. now exists w1.
  - exists false, w1. split; [reflexivity | discriminate].
Qed.

Lemma disconnectEach_counts (disconnect : RadAcct -> Async bool)
  (sessions : list RadAcct) :
  (forall session w, exists success w', disconnect session w = (Fulfilled success, w')) ->
  forall (disconnected : nat) (w : World),
  exists n w',
    disconnectEach disconnect sessions disconnected w = (Fulfilled n, w')
    /\ (disconnected <= n <= disconnected + List.length sessions)%nat.
Proof.
  intros Hd. induction sessions as [|session rest IH]; intros disconnected w.
  - exists disconnected, w. split; [reflexivity | cbn; lia].
  - cbn [disconnectEach]. unfold bind at 1.
    destruct (Hd session w) as (success & w1 & ->).
    destruct (IH (if success then S disconnected else disconnected) w1)
      as (n & w' & Hrun & Hn).
    exists n, w'. split; [exact Hrun|]. cbn [List.length]. destruct success; lia.
Qed.

Lemma disconnectEach_all (disconnect : RadAcct -> Async bool)
  (sessions : list RadAcct) (answer : bool) :
  (forall session w, exists w', disconnect session w = (Fulfilled answer, w')) ->
  forall (disconnected : nat) (w : World),
  exists w',
    disconnectEach disconnect sessions disconnected w
    = (Fulfilled (if answer then disconnected + List.length sessions
                  else disconnected)%nat, w').
Proof.
  intros Hd. induction sessions as [|session rest IH]; intros disconnected w.
  - exists w. cbn. destruct answer; [now rewrite Nat.add_0_r | reflexivity].
  - cbn [disconnectEach]. unfold bind at 1.
    destruct (Hd session w) as (w1 & ->).
    destruct (IH (if answer then S disconnected else disconnected) w1) as (w' & ->).
    exists w'. cbn [List.length]. destruct answer; [|reflexivity].
    now rewrite Nat.add_succ_r.
Qed.

(** X22: [disconnectAllUserSessions] fails only when the lookup of the
    active sessions fails, then with the lookup's error: whatever the CoA
    sender does, once the lookup is fulfilled the operation fulfils with a
    count between zero and the number of active sessions.  The count is that
    number when every request is acknowledged, and zero when none is
    (negative acknowledgment or rejection). *)
Theorem disconnectAllUserSessions_counts
  (sendCoaDisconnect : CoaDisconnectParams -> Async bool)
  (tenantSlug username nasSecret : string) (w : World) :
  (forall sessions w1,
      getUserActiveSessions tenantSlug username w = (Fulfilled sessions, w1) ->
      (exists n w',
          disconnectAllUserSessions sendCoaDisconnect tenantSlug username nasSecret w
          = (Fulfilled n, w')
          /\ (n <= List.length sessions)%nat)
      /\ ((forall params w0, exists w0',
              sendCoaDisconnect params w0 = (Fulfilled true, w0')) ->
          exists w',
            disconnectAllUserSessions sendCoaDisconnect tenantSlug username nasSecret w
            = (Fulfilled (List.length sessions), w'))
      /\ ((forall params w0,
              (exists w0', sendCoaDisconnect params w0 = (Fulfilled false, w0'))
              \/ (exists error w0', sendCoaDisconnect params w0 = (Rejected error, w0'))) ->
          exists w',
            disconnectAllUserSessions sendCoaDisconnect tenantSlug username nasSecret w
            = (Fulfilled 0%nat, w')))
  /\ (forall error w1,
        getUserActiveSessions tenantSlug username w = (Rejected error, w1) ->
        disconnectAllUserSessions sendCoaDisconnect tenantSlug username nasSecret w
        = (Rejected error, w1)).
Proof.
  split.
  - intros sessions w1 Hlookup.
    unfold disconnectAllUserSessions, bind. rewrite Hlookup.
    split; [|split].
    + destruct (disconnectEach_counts
                  (fun session =>
                     radiusService.disconnectUser sendCoaDisconnect
                       (nasipaddress session)
                       (buildRadiusUsername tenantSlug username) nasSecret)
                  sessions) with (disconnected := 0%nat) (w := w1)
        as (n & w' & Hrun & Hn).
      * intros session w0.
        destruct (disconnectUser_fulfils sendCoaDisconnect (nasipaddress session)
                    (buildRadiusUsername tenantSlug username) nasSecret w0)
          as (success & w0' & Hrun & _).
        now exists success, w0'.
      * exists n, w'. split; [exact Hrun | lia].
    + intros Hack.
      destruct (disconnectEach_all
                  (fun session =>
                     radiusService.disconnectUser sendCoaDisconnect
                       (nasipaddress session)
                       (buildRadiusUsername tenantSlug username) nasSecret)
                  sessions true) with (disconnected := 0%nat) (w := w1)
        as (w' & Hrun).
      * intros session w0.
        unfold radiusService.disconnectUser, tryCatch, bind, ret.
        destruct (Hack {| cd_nasIp := nasipaddress session; cd_secret := nasSecret;
                          cd_username := buildRadiusUsername tenantSlug username |} w0)
          as (w0' & ->).
        now exists w0'.
      * exists w'. exact Hrun.
    + intros Hnak.
      destruct (disconnectEach_all
                  (fun session =>
                     radiusService.disconnectUser sendCoaDisconnect
                       (nasipaddress session)
                       (buildRadiusUsername tenantSlug username) nasSecret)
                  sessions false) with (disconnected := 0%nat) (w := w1)
        as (w' & Hrun).
      * intros session w0.
        unfold radiusService.disconnectUser, tryCatch, bind, ret.
        destruct (Hnak {| cd_nasIp := nasipaddress session; cd_secret := nasSecret;
                          cd_username := buildRadiusUsername tenantSlug username |} w0)
          as [(w0' & ->) | (error & w0' & ->)]; now exists w0'.
      * exists w'. exact Hrun.
  - intros error w1 Hlookup.
    unfold disconnectAllUserSessions, bind. now rewrite Hlookup.
Qed.

(** Alice's two sessions with a sender that times out: nothing is
    disconnected, and nothing is thrown. *)
Lemma disconnectAllUserSessions_counts_witness :
  exists w',
    disconnectAllUserSessions sendTimesOut "acme" "alice" "s3cret" worldHistory
    = (Fulfilled 0%nat, w').
Proof.
  pose proof (proj1 (disconnectAllUserSessions_counts sendTimesOut "acme" "alice"
                       "s3cret" worldHistory)) as Hall.
  edestruct Hall as (_ & _ & Hnone); [vm_compute; reflexivity|].
  apply Hnone. intros params w0. right.
  exists (TransportError "ETIMEDOUT"), w0. reflexivity.
Defined.

(** ** The sweep never reopens or rewrites a closed session *)

(** X23: [cleanupStaleSessions] only ever closes sessions.  After a
    fulfilled sweep the table has the same sessions in the same places;
    a session that already had a stop time is exactly as it was, a session
    that is still open is exactly as it was, every session keeps its
    username, NAS address, start and update time, and the count returned is
    the number of sessions that went from open to closed. *)
Theorem cleanupStaleSessions_only_closes (tenantSlug : option string)
  (staleThresholdMinutes : option Z) (w w' : World) (n : nat) :
  radiusService.cleanupStaleSessions tenantSlug staleThresholdMinutes w
  = (Fulfilled n, w') ->
  Forall2
    (fun r r' =>
       (acctstoptime r <> None -> r' = r)
       /\ (acctstoptime r' = None -> r' = r)
       /\ acct_username r' = acct_username r
       /\ nasipaddress r' = nasipaddress r
       /\ acctstarttime r' = acctstarttime r
       /\ acctupdatetime r' = acctupdatetime r)
    (radAcct (db w)) (radAcct (db w'))
  /\ n = (List.length (filter (fun r => radiusService.isNull (acctstoptime r))
                         (radAcct (db w)))
          - List.length (filter (fun r => radiusService.isNull (acctstoptime r))
                           (radAcct (db w'))))%nat
  /\ radCheck (db w') = radCheck (db w)
  /\ radReply (db w') = radReply (db w)
  /\ radUserGroup (db w') = radUserGroup (db w)
  /\ radGroupCheck (db w') = radGroupCheck (db w)
  /\ radGroupReply (db w') = radGroupReply (db w).
Proof.
  intros H. apply cleanupStaleSessions_fulfilled in H as [Hdb Hn].
  rewrite Hdb. cbn [withRows radAcctT radAcct radCheck radReply radUserGroup
                      radGroupCheck radGroupReply].
  set (where_ := radiusService.staleWhere tenantSlug
                   (staleThreshold staleThresholdMinutes (clock w))) in *.
  set (stoptime := clock (snd (dateNow w))).
  assert (Hopen : forall r, where_ r = true -> acctstoptime r = None).
  { intros r Hr. unfold where_, radiusService.staleWhere in Hr.
    apply andb_true_iff in Hr as [Hr _]. apply andb_true_iff in Hr as [Hr _].
    now apply isNull_true. }
  split; [|split; [|now repeat split]].
  - apply swept_records; intros r Hr.
    + repeat split; try reflexivity.
      * intros Hclosed. now rewrite (Hopen r Hr) in Hclosed.
      * cbn. discriminate.
    + now repeat split.
  - rewrite Hn. clear Hn Hdb.
    induction (radAcct (db w)) as [|r l IH]; [reflexivity|]. cbn [map filter].
    destruct (where_ r) eqn:E.
    + rewrite (Hopen r E). cbn [radiusService.isNull radiusService.closeStale
                                  acctstoptime List.length].
      rewrite IH.
      pose proof (filter_length_le (fun r => radiusService.isNull (acctstoptime r)) l).
      assert (Hle : (List.length
                       (filter (fun r => radiusService.isNull (acctstoptime r))
                          (map (fun r => if where_ r
                                         then radiusService.closeStale stoptime r
                                         else r) l))
                     <= List.length
                          (filter (fun r => radiusService.isNull (acctstoptime r)) l))%nat).
      { clear IH H. induction l as [|x l IHl]; [cbn; lia|]. cbn [map filter].
        destruct (where_ x) eqn:Ex.
        - rewrite (Hopen x Ex). cbn. lia.
        - destruct (radiusService.isNull (acctstoptime x)); cbn; lia. }
      lia.
    + destruct (radiusService.isNull (acctstoptime r)); cbn [List.length]; lia.
Qed.

(** The sweep of the two sessions of "acme": one goes from open to closed. *)
Lemma cleanupStaleSessions_only_closes_witness :
  exists w',
    radiusService.cleanupStaleSessions (Some "acme") None worldTwoSessions
    = (Fulfilled 1%nat, w')
    /\ radCheck (db w') = radCheck (db worldTwoSessions).
Proof.
  eexists. split; [vm_compute; reflexivity|].
  refine (proj1 (proj2 (proj2
    (cleanupStaleSessions_only_closes (Some "acme") None worldTwoSessions _ 1%nat _)))).
  vm_compute. reflexivity.
Defined.

(** ** The namespace *)

(** X24: the namespace is collision-free: when the tenant slugs hold no
    underscore, two namespaced usernames (or group names) are equal only if
    both the tenant slugs and the local names are equal. *)
Theorem namespace_injective (tenantA tenantB nameA nameB : string) :
  Js.includes "_" tenantA = false ->
  Js.includes "_" tenantB = false ->
  (buildRadiusUsername tenantA nameA = buildRadiusUsername tenantB nameB ->
   tenantA = tenantB /\ nameA = nameB)
  /\ (buildRadiusGroupname tenantA nameA = buildRadiusGroupname tenantB nameB ->
      tenantA = tenantB /\ nameA = nameB).
Proof.
  intros Ha Hb.
  assert (Hsplit : forall t name,
             Js.includes "_" t = false ->
             Js.split "_" (t ++ "_" ++ name) = t :: Js.split "_" name).
  { intros t name Ht.
    change (t ++ "_" ++ name) with (t ++ String "_" name).
    now apply split_at_first_separator. }
  assert (Hinj : tenantA ++ "_" ++ nameA = tenantB ++ "_" ++ nameB ->
                 tenantA = tenantB /\ nameA = nameB).
  { intros H. apply (f_equal (Js.split "_")) in H.
    rewrite !Hsplit in H by assumption. inversion H as [[Ht Hn]].
    split; [reflexivity|].
    rewrite <- (join_split "_" nameA), <- (join_split "_" nameB). now rewrite Hn. }
  split; exact Hinj.
Qed.

(** Two tenants with a subscriber of the same local name. *)
Lemma namespace_injective_witness :
  (buildRadiusUsername "acme" "al_ice" = buildRadiusUsername "globex" "al_ice" ->
   "acme" = "globex" /\ "al_ice" = "al_ice")
  /\ buildRadiusUsername "acme" "al_ice" <> buildRadiusUsername "globex" "al_ice".
Proof.
  split.
  - apply (namespace_injective "acme" "globex" "al_ice" "al_ice"); reflexivity.
  - discriminate.
Defined.

(** X25: a name without underscore is not taken for a local username:
    [extractSubscriberUsername] returns the empty string for it, not the name
    itself. *)
Theorem extractSubscriberUsername_without_namespace (name : string) :
  Js.includes "_" name = false ->
  extractSubscriberUsername name = EmptyString.
Proof.
  intros H. unfold extractSubscriberUsername.
  now rewrite split_without_separator.
Qed.

Lemma extractSubscriberUsername_without_namespace_witness :
  extractSubscriberUsername "alice" = EmptyString.
Proof.
  apply (extractSubscriberUsername_without_namespace "alice"). reflexivity.
Defined.

(** ** Fair-usage rate limit *)

(** X26: the fair-usage rate limit has the format of a plan's base rate: for
    every plan, with or without burst profile, [buildFupRateLimit] of the
    plan's speeds and unit is the first space-separated field of the plan's
    rate-limit string, and it is a single field itself. *)
Theorem buildFupRateLimit_first_field (plan : Plan) :
  hd_error (rateLimitFields (buildMikroTikRateLimit plan))
  = Some (buildFupRateLimit (downloadSpeed plan) (uploadSpeed plan) (speedUnit plan))
  /\ rateLimitFields
       (buildFupRateLimit (downloadSpeed plan) (uploadSpeed plan) (speedUnit plan))
     = [buildFupRateLimit (downloadSpeed plan) (uploadSpeed plan) (speedUnit plan)].
Proof.
  assert (Hfup : buildFupRateLimit (downloadSpeed plan) (uploadSpeed plan)
                   (speedUnit plan) = baseRateLimit plan) by reflexivity.
  rewrite Hfup.
  assert (Hone : rateLimitFields (baseRateLimit plan) = [baseRateLimit plan]).
  { unfold rateLimitFields, baseRateLimit.
    apply split_without_separator. without_space. }
  split; [|exact Hone].
  destruct (Js.truthyNumber (burstDownloadSpeed plan)
            && Js.truthyNumber (burstUploadSpeed plan)
            && Js.truthyNumber (burstTime plan)) eqn:E.
  - apply andb_true_iff in E as [E Ht]. apply andb_true_iff in E as [Hd Hu].
    destruct (burstDownloadSpeed plan) as [bd|] eqn:Ebd; [|discriminate].
    destruct (burstUploadSpeed plan) as [bu|] eqn:Ebu; [|discriminate].
    destruct (burstTime plan) as [bt|] eqn:Ebt; [|discriminate].
    cbn in Hd, Hu, Ht. apply negb_true_iff, Z.eqb_neq in Hd, Hu, Ht.
    rewrite (buildMikroTikRateLimit_burst plan bd bu bt); [reflexivity | | | ];
      now split.
  - rewrite buildMikroTikRateLimit_base; [now rewrite Hone|].
    rewrite <- !truthyNumber_false.
    apply andb_false_iff in E as [E|E]; [apply andb_false_iff in E as [E|E]|]; auto.
Qed.

(** * Properties of the one-time passwords *)

Lemma newest_In (l : list Otp) (o : Otp) : newest l = Some o -> In o l.
Proof.
  revert o. induction l as [|r l IH]; intros o H; [discriminate|].
  cbn [newest] in H. destruct (newest l) as [r'|].
  - destruct (otp_createdAt r' >? otp_createdAt r); injection H as <-.
    + right. now apply IH.
    + now left.
  - injection H as <-. now left.
Qed.

Lemma newest_none (l : list Otp) : newest l = None -> l = [].
Proof.
  destruct l as [|r l]; [reflexivity|]. cbn [newest].
  destruct (newest l) as [r'|]; [|discriminate].
  now destruct (otp_createdAt r' >? otp_createdAt r).
Qed.

Lemma newest_map (f : Otp -> Otp) (l : list Otp) :
  (forall r, otp_createdAt (f r) = otp_createdAt r) ->
  newest (map f l) = option_map f (newest l).
Proof.
  intros Hf. induction l as [|r l IH]; [reflexivity|].
  cbn [map newest]. rewrite IH. destruct (newest l) as [r'|]; cbn [option_map].
  - rewrite !Hf. now destruct (otp_createdAt r' >? otp_createdAt r).
  - reflexivity.
Qed.

Lemma filter_map_same {A : Type} (p : A -> bool) (f : A -> A) (l : list A) :
  (forall r, p (f r) = p r) -> filter p (map f l) = map f (filter p l).
Proof.
  intros Hf. induction l as [|r l IH]; [reflexivity|].
  cbn [map filter]. rewrite Hf, IH. now destruct (p r).
Qed.

Lemma pending_registered (tenantId phone purpose : string) (w : OtpWorld) (o : Otp) :
  newest (pendingOtps tenantId phone purpose w) = Some o ->
  existsb (fun r => String.eqb (otp_id r) (otp_id o)) (otp w) = true.
Proof.
  intros H. apply newest_In in H. apply filter_In in H as [H _].
  apply existsb_exists. exists o. split; [exact H | apply String.eqb_refl].
Qed.

(** ** Statements *)

Lemma otpStatement_cases {A : Type} (f : list Otp -> Outcome A * list Otp)
  (w : OtpWorld) :
  (exists e, hd_error (otpFaults w) = Some (Some e)
             /\ otpStatement f w = (Rejected e, afterStatement (otp w) w))
  \/ otpStatement f w = (fst (f (otp w)), afterStatement (snd (f (otp w))) w).
Proof.
  unfold otpStatement, afterStatement.
  destruct (otpFaults w) as [|[e|] later]; cbn [tl hd_error].
  - now right.
  - left. exists e. now split.
  - now right.
Qed.

Lemma otpStatement_run {A : Type} (f : list Otp -> Outcome A * list Otp)
  (w : OtpWorld) :
  otpNoFaults w ->
  otpStatement f w = (fst (f (otp w)), afterStatement (snd (f (otp w))) w).
Proof.
  unfold otpNoFaults, otpStatement, afterStatement. intros H.
  destruct (otpFaults w) as [|[e|] later]; cbn [tl]; try reflexivity.
  inversion H. discriminate.
Qed.

Lemma afterStatement_noFaults (table : list Otp) (w : OtpWorld) :
  otpNoFaults w -> otpNoFaults (afterStatement table w).
Proof.
  unfold otpNoFaults, afterStatement. cbn [otpFaults]. intros H.
  destruct (otpFaults w); [exact H | now inversion H].
Qed.

Lemma afterReading_noFaults (w : OtpWorld) :
  otpNoFaults w -> otpNoFaults (afterReading w).
Proof. unfold otpNoFaults, afterReading. now destruct (otpTicks w). Qed.

Lemma afterReading_otp (w : OtpWorld) : otp (afterReading w) = otp w.
Proof. unfold afterReading. now destruct (otpTicks w). Qed.

Lemma afterReading_clock (w : OtpWorld) : otpClock w <= otpClock (afterReading w).
Proof. unfold afterReading. destruct (otpTicks w); cbn; lia. Qed.

Lemma otpNow_run (w : OtpWorld) : otpNow w = (Fulfilled (otpClock w), afterReading w).
Proof. reflexivity. Qed.

(** ** Verification *)

(** [verifyOtp] step by step: the lookup, the reading of the clock when an
    OTP is pending, and the update when the OTP is neither expired nor
    exhausted.  Each of the two statements can be rejected. *)
Lemma verifyOtp_cases (limit : option Z) (params : VerifyOtpParams) (w : OtpWorld) :
  let pending := pendingOtps (vp_tenantId params) (vp_phone params)
                   (vp_purpose params) w in
  let w1 := afterStatement (otp w) w in
  let w2 := afterReading w1 in
  (exists e,
      hd_error (otpFaults w) = Some (Some e)
      /\ verifyOtp limit params w
         = (Fulfilled {| success := false; vr_error := Some (MessageOf e) |}, w1))
  \/ (newest pending = None
      /\ verifyOtp limit params w
         = (Fulfilled {| success := false;
                         vr_error :=
                           Some (Text "No OTP found or OTP already verified") |}, w1))
  \/ (exists o, newest pending = Some o
      /\ ((verdict limit params w = Expired
           /\ verifyOtp limit params w
              = (Fulfilled {| success := false;
                              vr_error :=
                                Some (Text "OTP has expired. Please request a new one") |},
                 w2))
          \/ (verdict limit params w = Exhausted
              /\ verifyOtp limit params w
                 = (Fulfilled
                      {| success := false;
                         vr_error :=
                           Some (Text "Too many failed attempts. Please request a new OTP") |},
                    w2))
          \/ ((verdict limit params w = WrongCode \/ verdict limit params w = Accepted)
              /\ exists e,
                  hd_error (otpFaults w2) = Some (Some e)
                  /\ verifyOtp limit params w
                     = (Fulfilled {| success := false; vr_error := Some (MessageOf e) |},
                        afterStatement (otp w) w2))
          \/ (verdict limit params w = WrongCode
              /\ verifyOtp limit params w
                 = (Fulfilled
                      {| success := false;
                         vr_error :=
                           Some (Text ("Invalid OTP. "
                                       ++ attemptsRemaining limit (otp_attempts o)
                                       ++ " attempts remaining")) |},
                    afterStatement
                      (updated o (withAttempts (otp_attempts o + 1)) (otp w)) w2))
          \/ (verdict limit params w = Accepted
              /\ verifyOtp limit params w
                 = (Fulfilled {| success := true; vr_error := None |},
                    afterStatement (updated o (withVerified true) (otp w)) w2)))).
Proof.
  intros pending w1 w2. unfold verdict. fold pending.
  unfold verifyOtp, taskTry, taskBind, otpFindFirst.
  destruct (otpStatement_cases
              (fun table =>
                 (Fulfilled
                    (newest (filter (verifyWhere (vp_tenantId params) (vp_phone params)
                                       (vp_purpose params)) table)), table)) w)
    as [[e [He ->]]| ->].
  { left. exists e. now split. }
  right. cbn [fst snd]. fold (pendingOtps (vp_tenantId params) (vp_phone params)
                               (vp_purpose params) w). fold pending. fold w1.
  destruct (newest pending) as [o|] eqn:Enew; [right | left; now split].
  exists o. split; [reflexivity|].
  rewrite otpNow_run. fold w2. cbn [otpClock afterStatement w1].
  assert (Hreg : existsb (fun r => String.eqb (otp_id r) (otp_id o)) (otp w2) = true).
  { unfold w2. rewrite afterReading_otp. cbn [otp w1 afterStatement].
    exact (pending_registered _ _ _ _ _ Enew). }
  assert (Hotp : otp w2 = otp w).
  { unfold w2. now rewrite afterReading_otp. }
  destruct (otpClock w >? otp_expiresAt o); [left; now split | right].
  destruct (attemptsExhausted limit (otp_attempts o)); [left; now split | right].
  destruct (negb (String.eqb (otp_code o) (vp_code params))).
  - unfold otpUpdate.
    destruct (otpStatement_cases
                (fun table =>
                   if existsb (fun r => String.eqb (otp_id r) (otp_id o)) table
                   then (Fulfilled tt,
                         map (fun r => if String.eqb (otp_id r) (otp_id o)
                                       then withAttempts (otp_attempts o + 1) r
                                       else r) table)
                   else (Rejected (PrismaError "P2025"), table)) w2)
      as [[e [He ->]]| ->].
    + left. split; [now left|]. exists e. now rewrite Hotp.
    + right. left. split; [reflexivity|]. rewrite Hreg, Hotp. reflexivity.
  - unfold otpUpdate.
    destruct (otpStatement_cases
                (fun table =>
                   if existsb (fun r => String.eqb (otp_id r) (otp_id o)) table
                   then (Fulfilled tt,
                         map (fun r => if String.eqb (otp_id r) (otp_id o)
                                       then withVerified true r
                                       else r) table)
                   else (Rejected (PrismaError "P2025"), table)) w2)
      as [[e [He ->]]| ->].
    + left. split; [now right|]. exists e. now rewrite Hotp.
    + right. right. split; [reflexivity|]. rewrite Hreg, Hotp. reflexivity.
Qed.

Lemma otpNoFaults_hd (w : OtpWorld) (e : Error) :
  otpNoFaults w -> hd_error (otpFaults w) <> Some (Some e).
Proof.
  unfold otpNoFaults. intros H E. destruct (otpFaults w) as [|fault later];
    [discriminate|]. injection E as ->. inversion H. discriminate.
Qed.

(** What a verdict says about the OTP examined. *)
Lemma verdict_inv (limit : option Z) (params : VerifyOtpParams) (w : OtpWorld) (o : Otp) :
  newest (pendingOtps (vp_tenantId params) (vp_phone params) (vp_purpose params) w)
  = Some o ->
  match verdict limit params w with
  | NoneFound => False
  | Expired => otp_expiresAt o < otpClock w
  | Exhausted =>
      otpClock w <= otp_expiresAt o /\ attemptsExhausted limit (otp_attempts o) = true
  | WrongCode =>
      otpClock w <= otp_expiresAt o /\ attemptsExhausted limit (otp_attempts o) = false
      /\ otp_code o <> vp_code params
  | Accepted =>
      otpClock w <= otp_expiresAt o /\ attemptsExhausted limit (otp_attempts o) = false
      /\ otp_code o = vp_code params
  end.
Proof.
  intros H. unfold verdict. rewrite H.
  destruct (otpClock w >? otp_expiresAt o) eqn:Eexp; [lia|].
  assert (otpClock w <= otp_expiresAt o) by lia.
  destruct (attemptsExhausted limit (otp_attempts o)); [now split|].
  destruct (String.eqb (otp_code o) (vp_code params)) eqn:Ecode; cbn [negb].
  - apply String.eqb_eq in Ecode. now repeat split.
  - apply String.eqb_neq in Ecode. now repeat split.
Qed.

Lemma verifyWhere_withAttempts (tenantId phone purpose : string) (a : Z) (r : Otp) :
  verifyWhere tenantId phone purpose (withAttempts a r)
  = verifyWhere tenantId phone purpose r.
Proof. reflexivity. Qed.

Lemma verifyWhere_withVerified (tenantId phone purpose : string) (r : Otp) :
  verifyWhere tenantId phone purpose (withVerified true r) = false.
Proof. unfold verifyWhere. cbn. now rewrite !andb_false_r. Qed.

Lemma updated_attempts_frame (o : Otp) (a : Z) (table : list Otp) :
  map (withAttempts 0) (updated o (withAttempts a) table) = map (withAttempts 0) table.
Proof.
  unfold updated. rewrite map_map. apply map_ext. intros r.
  now destruct (String.eqb (otp_id r) (otp_id o)).
Qed.

Lemma updated_attempts_verified (o : Otp) (a : Z) (table : list Otp) :
  map otp_verified (updated o (withAttempts a) table) = map otp_verified table.
Proof.
  unfold updated. rewrite map_map. apply map_ext. intros r.
  now destruct (String.eqb (otp_id r) (otp_id o)).
Qed.

(** The pending OTPs after a wrong code: the same rows, the one examined
    with one more attempt. *)
Lemma pending_after_wrong_code (tenantId phone purpose : string) (o : Otp) (a : Z)
  (w w' : OtpWorld) :
  otp w' = updated o (withAttempts a) (otp w) ->
  newest (pendingOtps tenantId phone purpose w) = Some o ->
  newest (pendingOtps tenantId phone purpose w') = Some (withAttempts a o).
Proof.
  intros Hotp Hnew. unfold pendingOtps in *. rewrite Hotp. unfold updated.
  rewrite filter_map_same.
  - rewrite newest_map.
    + rewrite Hnew. cbn [option_map]. now rewrite String.eqb_refl.
    + intros r. now destruct (String.eqb (otp_id r) (otp_id o)).
  - intros r. now destruct (String.eqb (otp_id r) (otp_id o)).
Qed.

(** The pending OTPs after an accepted code: those with another key. *)
Lemma pending_after_accepted (tenantId phone purpose : string) (o : Otp)
  (w w' : OtpWorld) :
  otp w' = updated o (withVerified true) (otp w) ->
  pendingOtps tenantId phone purpose w'
  = filter (fun r => negb (String.eqb (otp_id r) (otp_id o)))
      (pendingOtps tenantId phone purpose w).
Proof.
  intros Hotp. unfold pendingOtps. rewrite Hotp. clear Hotp. unfold updated.
  induction (otp w) as [|r l IH]; [reflexivity|]. cbn [map filter].
  destruct (String.eqb (otp_id r) (otp_id o)) eqn:E.
  - rewrite verifyWhere_withVerified, IH.
    destruct (verifyWhere tenantId phone purpose r); [|reflexivity].
    cbn [filter]. now rewrite E.
  - rewrite IH. destruct (verifyWhere tenantId phone purpose r); [|reflexivity].
    cbn [filter]. now rewrite E.
Qed.

(** X27: [verifyOtp] never rejects, and it accepts a code only for the
    newest OTP of the tenant, phone and purpose that is not verified yet:
    the code is the one of that OTP, the OTP is not expired at the time of
    the request and its failed attempts are below the limit.  Accepting
    marks the OTP verified and changes nothing else; a refusal changes no
    column other than attempt counters.  When no database fault is pending,
    a request that meets the conditions is accepted. *)
Theorem verifyOtp_accepts (OTP_MAX_ATTEMPTS : option Z) (params : VerifyOtpParams)
  (w : OtpWorld) :
  exists response w',
    verifyOtp OTP_MAX_ATTEMPTS params w = (Fulfilled response, w')
    /\ (success response = true ->
        exists o,
          newest (pendingOtps (vp_tenantId params) (vp_phone params)
                    (vp_purpose params) w) = Some o
          /\ otp_code o = vp_code params
          /\ otpClock w <= otp_expiresAt o
          /\ attemptsExhausted OTP_MAX_ATTEMPTS (otp_attempts o) = false
          /\ otp w' = updated o (withVerified true) (otp w))
    /\ (success response = false ->
        map (withAttempts 0) (otp w') = map (withAttempts 0) (otp w))
    /\ (otpNoFaults w ->
        forall o,
          newest (pendingOtps (vp_tenantId params) (vp_phone params)
                    (vp_purpose params) w) = Some o ->
          otp_code o = vp_code params ->
          otpClock w <= otp_expiresAt o ->
          attemptsExhausted OTP_MAX_ATTEMPTS (otp_attempts o) = false ->
          success response = true).
Proof.
  pose proof (verifyOtp_cases OTP_MAX_ATTEMPTS params w) as H. cbv zeta in H.
  destruct H as [(e & He & ->) | [[Hnone ->] | (o & Hnew & H)]].
  - do 2 eexists. split; [reflexivity|]. cbn [success otp afterStatement].
    split; [discriminate|]. split; [reflexivity|].
    intros Hnf. now apply otpNoFaults_hd with (e := e) in Hnf.
  - do 2 eexists. split; [reflexivity|]. cbn [success otp afterStatement].
    split; [discriminate|]. split; [reflexivity|].
    intros _ o Ho. rewrite Hnone in Ho. discriminate.
  - pose proof (verdict_inv OTP_MAX_ATTEMPTS params w o Hnew) as Hv.
    destruct H as [[Ev ->] | [[Ev ->] | [[Ev (e & He & ->)] | [[Ev ->] | [Ev ->]]]]];
      do 2 eexists; (split; [reflexivity|]); cbn [success otp afterStatement].
    + rewrite Ev in Hv. split; [discriminate|].
      split; [now rewrite afterReading_otp|].
      intros _ o' Ho'. rewrite Hnew in Ho'. injection Ho' as <-. lia.
    + rewrite Ev in Hv. split; [discriminate|].
      split; [now rewrite afterReading_otp|].
      intros _ o' Ho'. rewrite Hnew in Ho'. injection Ho' as <-.
      destruct Hv as [_ Hv]. congruence.
    + split; [discriminate|]. split; [reflexivity|].
      intros Hnf. exfalso.
      apply (otpNoFaults_hd (afterReading (afterStatement (otp w) w)) e); [|exact He].
      now apply afterReading_noFaults, afterStatement_noFaults.
    + rewrite Ev in Hv. split; [discriminate|].
      split; [intros _; apply updated_attempts_frame|].
      intros _ o' Ho'. rewrite Hnew in Ho'. injection Ho' as <-.
      destruct Hv as (_ & _ & Hv). congruence.
    + rewrite Ev in Hv. destruct Hv as (Hexp & Hex & Hcode).
      split; [intros _; now exists o|]. split; [discriminate|]. reflexivity.
Qed.

(** The newest pending OTP of the example world is accepted with its code,
    and is marked verified. *)
Lemma verifyOtp_accepts_witness :
  exists w',
    verifyOtp (Some 3)
      {| vp_tenantId := "acme"; vp_phone := "+15550100";
         vp_code := "424242"; vp_purpose := "LOGIN" |} worldOtp
    = (Fulfilled {| success := true; vr_error := None |}, w')
    /\ map otp_verified (otp w') = [true; true; false].
Proof.
  destruct (verifyOtp_accepts (Some 3)
              {| vp_tenantId := "acme"; vp_phone := "+15550100";
                 vp_code := "424242"; vp_purpose := "LOGIN" |} worldOtp)
    as (response & w' & Hrun & _).
  exists w'. vm_compute in Hrun. injection Hrun as <- <-. split; reflexivity.
Defined.

(** ** Lockout *)

Section Lockout.

Variable limit : Z.
Variable tenantId phone purpose : string.
Variable tried : list string.

(** The OTP under attack, if there is one, has a code that is not tried and,
    unless it is expired, at most [n] attempts left. *)
Let guarded (n : nat) (w : OtpWorld) : Prop :=
  otpNoFaults w
  /\ forall o, newest (pendingOtps tenantId phone purpose w) = Some o ->
       ~ In (otp_code o) tried
       /\ (otp_expiresAt o < otpClock w \/ limit - Z.of_nat n <= otp_attempts o).

Let request (code : string) : VerifyOtpParams :=
  {| vp_tenantId := tenantId; vp_phone := phone;
     vp_code := code; vp_purpose := purpose |}.

Lemma guarded_refuses (n : nat) (code : string) (w : OtpWorld) :
  guarded n w -> (In code tried \/ n = 0%nat) ->
  exists response w',
    verifyOtp (Some limit) (request code) w = (Fulfilled response, w')
    /\ success response = false
    /\ guarded (pred n) w'
    /\ map otp_verified (otp w') = map otp_verified (otp w).
Proof.
  intros [Hnf Hg] Hcode.
  pose proof (verifyOtp_cases (Some limit) (request code) w) as H. cbv zeta in H.
  cbn [request vp_tenantId vp_phone vp_purpose] in H.
  destruct H as [(e & He & _) | [[Hnone ->] | (o & Hnew & H)]].
  - now apply otpNoFaults_hd with (e := e) in Hnf.
  - do 2 eexists. split; [reflexivity|]. split; [reflexivity|].
    split; [|reflexivity]. split; [now apply afterStatement_noFaults|].
    intros o Ho. unfold pendingOtps in Ho, Hnone. cbn [otp afterStatement] in Ho.
    rewrite Hnone in Ho. discriminate.
  - pose proof (verdict_inv (Some limit) (request code) w o Hnew) as Hv.
    destruct (Hg o Hnew) as [Hnot Hleft].
    assert (Hnf2 : otpNoFaults (afterReading (afterStatement (otp w) w)))
      by now apply afterReading_noFaults, afterStatement_noFaults.
    assert (Hsame : forall w' : OtpWorld,
               otp w' = otp w ->
               newest (pendingOtps tenantId phone purpose w') = Some o).
    { intros w' E. unfold pendingOtps in *. now rewrite E. }
    pose proof (afterReading_clock (afterStatement (otp w) w)) as Hclock.
    cbn [otpClock afterStatement] in Hclock.
    destruct H as [[Ev ->] | [[Ev ->] | [[Ev (e & He & _)] | [[Ev ->] | [Ev _]]]]].
    + rewrite Ev in Hv. do 2 eexists. split; [reflexivity|]. split; [reflexivity|].
      split; [|now rewrite afterReading_otp]. split; [exact Hnf2|].
      intros o' Ho'. rewrite Hsame in Ho' by now rewrite afterReading_otp.
      injection Ho' as <-. split; [exact Hnot|]. left. lia.
    + rewrite Ev in Hv. do 2 eexists. split; [reflexivity|]. split; [reflexivity|].
      split; [|now rewrite afterReading_otp]. split; [exact Hnf2|].
      intros o' Ho'. rewrite Hsame in Ho' by now rewrite afterReading_otp.
      injection Ho' as <-. split; [exact Hnot|]. right.
      destruct Hv as [_ Hv]. cbn [attemptsExhausted] in Hv. lia.
    + now apply otpNoFaults_hd with (e := e) in Hnf2.
    + rewrite Ev in Hv. destruct Hv as (Hexp & Hex & Hwrong).
      cbn [attemptsExhausted] in Hex.
      do 2 eexists. split; [reflexivity|]. split; [reflexivity|].
      split; [|apply updated_attempts_verified].
      split; [now apply afterStatement_noFaults|].
      intros o' Ho'.
      rewrite (pending_after_wrong_code tenantId phone purpose o
                 (otp_attempts o + 1) w) in Ho' by (reflexivity || exact Hnew).
      injection Ho' as <-. cbn [otp_code otp_attempts otp_expiresAt withAttempts].
      split; [exact Hnot|]. right. destruct Hleft as [Hl|Hl]; lia.
    + rewrite Ev in Hv. destruct Hv as (Hexp & Hex & Hright).
      cbn [attemptsExhausted request vp_code] in Hex, Hright.
      destruct Hcode as [Hin | ->].
      * rewrite <- Hright in Hin. contradiction.
      * destruct Hleft as [Hl|Hl]; cbn in Hl; lia.
Qed.

Lemma tryCodes_refused (guesses : list string) :
  forall (n : nat) (w : OtpWorld),
    incl guesses tried -> guarded n w ->
    exists responses w',
      tryCodes (Some limit) tenantId phone purpose guesses w = (Fulfilled responses, w')
      /\ Forall (fun response => success response = false) responses
      /\ guarded (n - List.length guesses) w'
      /\ map otp_verified (otp w') = map otp_verified (otp w).
Proof.
  induction guesses as [|code later IH]; intros n w Hincl Hg.
  - exists [], w. cbn [tryCodes List.length]. rewrite Nat.sub_0_r.
    split; [reflexivity|]. split; [constructor|]. now split.
  - destruct (guarded_refuses n code w Hg) as (response & w1 & Hrun & Hfail & Hg1 & Hv1).
    { left. apply Hincl. now left. }
    destruct (IH (pred n) w1) as (responses & w2 & Hrun2 & Hfail2 & Hg2 & Hv2).
    { intros g Hin. apply Hincl. now right. }
    { exact Hg1. }
    exists (response :: responses), w2. cbn [tryCodes]. unfold taskBind at 1.
    fold (request code). rewrite Hrun. unfold taskBind at 1. rewrite Hrun2.
    split; [reflexivity|]. split; [now constructor|]. split; [|congruence].
    cbn [List.length]. now replace (n - S (List.length later))%nat
                        with (pred n - List.length later)%nat by lia.
Qed.

End Lockout.

(** X28: lockout.  When no database fault is pending and the OTP under
    attack starts with a non-negative attempt counter, as many wrong codes
    as the limit allows, tried one after the other, are all refused, and
    after them every code is refused, the right one too; no OTP is marked
    verified on the way. *)
Theorem verifyOtp_lockout (limit : Z) (tenantId phone purpose : string)
  (guesses : list string) (code : string) (w : OtpWorld) :
  otpNoFaults w ->
  (forall o, newest (pendingOtps tenantId phone purpose w) = Some o ->
             0 <= otp_attempts o /\ ~ In (otp_code o) guesses) ->
  (Z.to_nat limit <= List.length guesses)%nat ->
  exists responses w1 response w2,
    tryCodes (Some limit) tenantId phone purpose guesses w = (Fulfilled responses, w1)
    /\ Forall (fun r => success r = false) responses
    /\ verifyOtp (Some limit)
         {| vp_tenantId := tenantId; vp_phone := phone;
            vp_code := code; vp_purpose := purpose |} w1
       = (Fulfilled response, w2)
    /\ success response = false
    /\ map otp_verified (otp w2) = map otp_verified (otp w).
Proof.
  intros Hnf Hstart Hlen.
  destruct (tryCodes_refused limit tenantId phone purpose guesses guesses
              (List.length guesses) w)
    as (responses & w1 & Hrun & Hfail & Hg & Hv).
  { apply incl_refl. }
  { split; [exact Hnf|]. intros o Ho. destruct (Hstart o Ho) as [H0 Hnot].
    split; [exact Hnot|]. right. lia. }
  rewrite Nat.sub_diag in Hg.
  destruct (guarded_refuses limit tenantId phone purpose guesses 0 code w1 Hg)
    as (response & w2 & Hrun2 & Hfail2 & _ & Hv2); [now right|].
  exists responses, w1, response, w2. repeat split; try assumption. congruence.
Qed.

(** Three wrong codes against the pending OTP of the example world: the
    right code is refused afterwards. *)
Lemma verifyOtp_lockout_witness :
  exists responses w1 response w2,
    tryCodes (Some 3) "acme" "+15550100" "LOGIN" ["000000"; "000001"; "000002"] worldOtp
    = (Fulfilled responses, w1)
    /\ Forall (fun r => success r = false) responses
    /\ verifyOtp (Some 3)
         {| vp_tenantId := "acme"; vp_phone := "+15550100";
            vp_code := "424242"; vp_purpose := "LOGIN" |} w1
       = (Fulfilled response, w2)
    /\ success response = false
    /\ map otp_verified (otp w2) = map otp_verified (otp worldOtp).
Proof.
  apply (verifyOtp_lockout 3 "acme" "+15550100" "LOGIN"
           ["000000"; "000001"; "000002"] "424242" worldOtp).
  - constructor.
  - intros o Ho. vm_compute in Ho. injection Ho as <-. split; [cbn; lia|].
    cbn. intros [H|[H|[H|[]]]]; discriminate.
  - cbn. lia.
Defined.

(** ** Single use *)

(** X29: an OTP is accepted once.  After an accepted request the OTPs still
    pending for the tenant, phone and purpose are those that were pending
    without the one accepted; when it was the only one, every later request
    for them is refused, whatever its code, until a new OTP is created. *)
Theorem verifyOtp_single_use (OTP_MAX_ATTEMPTS : option Z) (params : VerifyOtpParams)
  (w w1 : OtpWorld) (response : VerifyOtpResponse) :
  verifyOtp OTP_MAX_ATTEMPTS params w = (Fulfilled response, w1) ->
  success response = true ->
  exists o,
    newest (pendingOtps (vp_tenantId params) (vp_phone params) (vp_purpose params) w)
    = Some o
    /\ pendingOtps (vp_tenantId params) (vp_phone params) (vp_purpose params) w1
       = filter (fun r => negb (String.eqb (otp_id r) (otp_id o)))
           (pendingOtps (vp_tenantId params) (vp_phone params) (vp_purpose params) w)
    /\ (List.length
          (pendingOtps (vp_tenantId params) (vp_phone params) (vp_purpose params) w)
        = 1%nat ->
        forall (code : string) (w' : OtpWorld),
          otp w' = otp w1 ->
          exists response' w'',
            verifyOtp OTP_MAX_ATTEMPTS
              {| vp_tenantId := vp_tenantId params; vp_phone := vp_phone params;
                 vp_code := code; vp_purpose := vp_purpose params |} w'
            = (Fulfilled response', w'')
            /\ success response' = false).
Proof.
  intros Hrun Hok.
  pose proof (verifyOtp_cases OTP_MAX_ATTEMPTS params w) as H. cbv zeta in H.
  destruct H as [(e & _ & E) | [[_ E] | (o & Hnew & H)]];
    try (rewrite E in Hrun; injection Hrun as <- <-; discriminate).
  destruct H as [[_ E] | [[_ E] | [[_ (e & _ & E)] | [[_ E] | [_ E]]]]];
    try (rewrite E in Hrun; injection Hrun as <- <-; discriminate).
  rewrite E in Hrun. injection Hrun as _ <-.
  exists o. split; [exact Hnew|].
  assert (Hpending :
            pendingOtps (vp_tenantId params) (vp_phone params) (vp_purpose params)
              (afterStatement (updated o (withVerified true) (otp w))
                 (afterReading (afterStatement (otp w) w)))
            = filter (fun r => negb (String.eqb (otp_id r) (otp_id o)))
                (pendingOtps (vp_tenantId params) (vp_phone params)
                   (vp_purpose params) w))
    by now apply pending_after_accepted.
  split; [exact Hpending|].
  intros Hone code w' Hw'.
  set (params' := {| vp_tenantId := vp_tenantId params; vp_phone := vp_phone params;
                     vp_code := code; vp_purpose := vp_purpose params |}).
  assert (Hnone : newest (pendingOtps (vp_tenantId params) (vp_phone params)
                            (vp_purpose params) w') = None).
  { unfold pendingOtps at 1. rewrite Hw'.
    fold (pendingOtps (vp_tenantId params) (vp_phone params) (vp_purpose params)
            (afterStatement (updated o (withVerified true) (otp w))
               (afterReading (afterStatement (otp w) w)))).
    rewrite Hpending.
    destruct (pendingOtps (vp_tenantId params) (vp_phone params)
                (vp_purpose params) w) as [|r [|r' l]]; try discriminate.
    cbn [newest] in Hnew. injection Hnew as ->.
    cbn [filter]. now rewrite String.eqb_refl. }
  pose proof (verifyOtp_cases OTP_MAX_ATTEMPTS params' w') as H'. cbv zeta in H'.
  cbn [params' vp_tenantId vp_phone vp_purpose] in H'.
  destruct H' as [(e & _ & ->) | [[_ ->] | (o' & Hnew' & _)]].
  - now do 2 eexists.
  - now do 2 eexists.
  - rewrite Hnone in Hnew'. discriminate.
Qed.

(** The accepted code of the example world is refused when it is presented
    again. *)
Lemma verifyOtp_single_use_witness :
  exists w1 response' w2,
    verifyOtp (Some 3)
      {| vp_tenantId := "acme"; vp_phone := "+15550100";
         vp_code := "424242"; vp_purpose := "LOGIN" |} worldOtp
    = (Fulfilled {| success := true; vr_error := None |}, w1)
    /\ verifyOtp (Some 3)
         {| vp_tenantId := "acme"; vp_phone := "+15550100";
            vp_code := "424242"; vp_purpose := "LOGIN" |} w1
       = (Fulfilled response', w2)
    /\ success response' = false.
Proof.
  eexists.
  assert (Hrun : verifyOtp (Some 3)
                   {| vp_tenantId := "acme"; vp_phone := "+15550100";
                      vp_code := "424242"; vp_purpose := "LOGIN" |} worldOtp
                 = (Fulfilled {| success := true; vr_error := None |}, _))
    by (vm_compute; reflexivity).
  destruct (verifyOtp_single_use _ _ _ _ _ Hrun eq_refl) as (o & _ & _ & Hlater).
  destruct (Hlater eq_refl "424242" _ eq_refl) as (response' & w2 & Hrun2 & Hfail).
  exists response', w2. split; [exact Hrun|]. now split.
Defined.

(** ** Expired OTPs *)

(** X30: [cleanupExpired] never rejects.  It deletes exactly the OTPs whose
    expiry is before the reading of the clock, keeps the others in their
    order and returns the number deleted; when the deletion is rejected it
    returns 0 and the table is as it was.  An OTP that is not expired is
    kept in both cases. *)
Theorem cleanupExpired_result (w : OtpWorld) :
  exists count w',
    cleanupExpired w = (Fulfilled count, w')
    /\ ((otp w' = filter (fun r => otpClock w <=? otp_expiresAt r) (otp w)
         /\ count = (List.length (otp w) - List.length (otp w'))%nat)
        \/ (otp w' = otp w /\ count = 0%nat /\ ~ otpNoFaults w))
    /\ (forall r, In r (otp w) -> otpClock w <= otp_expiresAt r -> In r (otp w')).
Proof.
  assert (Hflip : forall l : list Otp,
             filter (fun r => negb (otp_expiresAt r <? otpClock w)) l
             = filter (fun r => otpClock w <=? otp_expiresAt r) l).
  { intros l. apply filter_ext. intros r.
    destruct (otp_expiresAt r <? otpClock w) eqn:E1,
             (otpClock w <=? otp_expiresAt r) eqn:E2; cbn; lia || reflexivity. }
  unfold cleanupExpired, taskTry, taskBind. rewrite otpNow_run.
  unfold otpDeleteMany.
  destruct (otpStatement_cases
              (fun table =>
                 (Fulfilled (List.length (filter (fun r => otp_expiresAt r <? otpClock w)
                                            table)),
                  filter (fun r => negb (otp_expiresAt r <? otpClock w)) table))
              (afterReading w)) as [(e & He & ->) | ->].
  - do 2 eexists. split; [reflexivity|]. cbn [otp afterStatement].
    rewrite afterReading_otp. split.
    + right. repeat split. intros Hnf.
      now apply afterReading_noFaults, otpNoFaults_hd with (e := e) in Hnf.
    + now intros.
  - cbn [fst snd]. do 2 eexists. split; [reflexivity|]. cbn [otp afterStatement].
    rewrite afterReading_otp, Hflip. split.
    + left. split; [reflexivity|].
      rewrite <- Hflip.
      induction (otp w) as [|r l IH]; [reflexivity|]. cbn [filter List.length].
      pose proof (filter_length_le (fun r => negb (otp_expiresAt r <? otpClock w)) l).
      destruct (otp_expiresAt r <? otpClock w); cbn [negb List.length]; lia.
    + intros r Hin Hr. apply filter_In. split; [exact Hin|]. lia.
Qed.
